(** * Cache layer and sliding-window rate limiter of the RealWorld FastAPI app

    A shallow embedding of [app/cache] (key builders, monitor, cache-aside
    decorator, invalidation), [app/core/rate_limiter.py],
    [app/middleware/rate_limiting.py] and the alias generator of
    [app/models/domain/rwmodel.py], with the properties the
    specification states about them and further properties of the
    sources.

    Conventions.  Python [int] is [Z]; [str] is [string]; [Optional[str]]
    is [option string]; a Python [float] is the rational number it
    denotes ([Q]), and every operation on floats rounds its exact result
    to the nearest double ([Float.round]); a Python [dict] is an
    insertion-ordered association list; the Redis keyspace is a [gmap]
    from keys to text values. *)

From Stdlib Require Import ZArith QArith Qround Qpower Lia Lqa String Ascii List.
From stdpp Require Import base gmap strings list pretty.

Set Warnings "-register-all".

Local Open Scope string_scope.
Local Open Scope list_scope.
Local Open Scope Z_scope.

(** ** Exceptions and results *)

(** Exceptions the modelled code can raise.  [NotModelled] marks a
    library behaviour outside this model (it is never a result the
    theorems rely on). *)
Inductive exn :=
| KeyError (k : string)
| IndexError
| ValueError
| TypeError
| AttributeError
| ZeroDivisionError
| ValidationError
| JSONDecodeError
| ResponseError
| NotModelled.

(** Results of a call: a value, a raised exception, or a model that ran
    out of fuel (a loop that has not finished within the bound). *)
Inductive outcome (A : Type) :=
| Ok (a : A)
| Raise (e : exn)
| OutOfFuel.
Arguments Ok {A} a.
Arguments Raise {A} e.
Arguments OutOfFuel {A}.

#[global] Instance outcome_ret : MRet outcome := fun _ a => Ok a.
#[global] Instance outcome_bind : MBind outcome := fun _ _ f x =>
  match x with
  | Ok a => f a
  | Raise e => Raise e
  | OutOfFuel => OutOfFuel
  end.

(** Python values that flow through the cache decorator: JSON-like
    data and pydantic model instances ([PModel cls fields]). *)
Inductive value :=
| PNone
| PBool (b : bool)
| PInt (n : Z)
| PStr (s : string)
| PList (items : list value)
| PDict (members : list (string * value))
| PModel (cls : string) (fields : list (string * value)).

(** ** Python primitives used by the sources *)

Module Py.

(** Truthiness of a [str]: only the empty string is falsy. *)
Definition truthy_str (s : string) : bool :=
  match s with EmptyString => false | String _ _ => true end.

(** [x if x else None] for an [Optional[str]]: [None] and the empty
    string are both falsy. *)
Definition truthy (o : option string) : option string :=
  match o with
  | Some s => if truthy_str s then Some s else None
  | None => None
  end.

(** [str(n)] for an [int]. *)
Definition str_int (n : Z) : string := pretty n.

(** [sep.join(parts)]. *)
Fixpoint join (sep : string) (parts : list string) : string :=
  match parts with
  | [] => ""
  | p :: ps =>
      match ps with
      | [] => p
      | _ :: _ => p +:+ sep +:+ join sep ps
      end
  end.

(** [s.startswith(p)]. *)
Fixpoint startswith (p s : string) : bool :=
  match p, s with
  | EmptyString, _ => true
  | String a p', String b s' => if Ascii.eqb a b then startswith p' s' else false
  | String _ _, EmptyString => false
  end.

(** [s.endswith(p)]. *)
Definition endswith (p s : string) : bool :=
  startswith (String.rev p) (String.rev s).

(** [c in s] for a one-character [c]. *)
Fixpoint contains_char (c : ascii) (s : string) : bool :=
  match s with
  | EmptyString => false
  | String a s' => if Ascii.eqb a c then true else contains_char c s'
  end.

(** [s.split(c)] for a one-character separator: never empty, and
    [n] separators give [n + 1] pieces. *)
Fixpoint split (c : ascii) (s : string) : list string :=
  match s with
  | EmptyString => [""]
  | String a s' =>
      if Ascii.eqb a c then "" :: split c s'
      else match split c s' with
           | [] => [String a ""]
           | w :: ws => String a w :: ws
           end
  end.

(** The characters [str.strip()] removes: the white space among the
    code points below 256. *)
Definition is_space (c : ascii) : bool :=
  let n := nat_of_ascii c in
  ((9 <=? n) && (n <=? 13) || (n =? 32) || ((28 <=? n) && (n <=? 31))
   || (n =? 133) || (n =? 160))%nat.

Fixpoint lstrip (s : string) : string :=
  match s with
  | EmptyString => ""
  | String a s' => if is_space a then lstrip s' else s
  end.

(** [s.strip()]. *)
Definition strip (s : string) : string :=
  String.rev (lstrip (String.rev (lstrip s))).

(** [int(x)] for a [float] [x]: truncation toward zero. *)
Definition int_of_float (x : Q) : Z :=
  if Qle_bool 0 x then Qfloor x else Qceiling x.

(** [x < y] for a float and an integer: the two are compared as the
    numbers they denote, with no conversion. *)
Definition num_lt (x y : Q) : bool := negb (Qle_bool y x).

(** Decimal digits, shared by [int(text)], the store's integer values
    and the JSON reader. *)
Definition digit_val (c : ascii) : option Z :=
  let n := nat_of_ascii c in
  if ((48 <=? n) && (n <=? 57))%nat then Some (Z.of_nat n - 48) else None.

(** The leading decimal digits of [s], most significant first, and the
    rest of [s]. *)
Fixpoint read_digits (s : string) : list Z * string :=
  match s with
  | EmptyString => ([], "")
  | String c r =>
      match digit_val c with
      | Some d => let '(ds, rest) := read_digits r in (d :: ds, rest)
      | None => ([], s)
      end
  end.

Definition digits_value (ds : list Z) : Z :=
  fold_left (fun acc d => 10 * acc + d) ds 0.

(** A canonical integer text: an optional minus sign, then digits with
    no leading zero (except 0 itself), and nothing else. *)
Definition canonical_int (s : string) : option Z :=
  let '(neg, body) :=
    match s with
    | String c r => if Ascii.eqb c "-" then (true, r) else (false, s)
    | EmptyString => (false, s)
    end in
  match read_digits body with
  | (d :: ds, EmptyString) =>
      match ds with
      | _ :: _ => if d =? 0 then None
                  else Some (if neg then - digits_value (d :: ds) else digits_value (d :: ds))
      | [] => Some (if neg then - d else d)
      end
  | _ => None
  end.

(** A [dict] keeps insertion order; assigning to a key that is present
    replaces the value in place, a new key goes to the end.  This is
    also how a dict literal with a repeated key is evaluated. *)
Fixpoint dict_set {V} (k : string) (v : V) (d : list (string * V)) : list (string * V) :=
  match d with
  | [] => [(k, v)]
  | (k', v') :: d' =>
      if String.eqb k' k then (k, v) :: d' else (k', v') :: dict_set k v d'
  end.

Definition dict_literal {V} (items : list (string * V)) : list (string * V) :=
  fold_left (fun d kv => dict_set (fst kv) (snd kv) d) items [].

Fixpoint dict_get {V} (k : string) (d : list (string * V)) : option V :=
  match d with
  | [] => None
  | (k', v) :: d' => if String.eqb k' k then Some v else dict_get k d'
  end.

(** [int(text)] for a [str]: surrounding white space and a sign are
    allowed; digit-group underscores are [NotModelled]. *)
Definition int_of_str (text : string) : outcome Z :=
  let s := strip text in
  let '(neg, body) :=
    match s with
    | String c r =>
        if Ascii.eqb c "-" then (true, r)
        else if Ascii.eqb c "+" then (false, r)
        else (false, s)
    | EmptyString => (false, s)
    end in
  if contains_char "_" body then Raise NotModelled
  else
    match read_digits body with
    | (d :: ds, EmptyString) =>
        Ok (if neg then - digits_value (d :: ds) else digits_value (d :: ds))
    | _ => Raise ValueError
    end.

End Py.

(** ** Python floats

    A [float] is an IEEE 754 binary64 number.  A finite double is a
    rational [m * 2^e] with [|m| < 2^53] and [-1074 <= e]; it is modelled
    as that rational, and an operation returns the exact result rounded
    to the nearest double, ties to the even mantissa.  The exponent is not
    bounded above: magnitudes of [2^1024] and more, where a double is
    infinite, are outside this model, and so are the sign of zero and
    NaN. *)

Module Float.

(** The integer nearest to [x], ties to the even one. *)
Definition nearest_even (x : Q) : Z :=
  let n := Qfloor x in
  let twice := ((x - inject_Z n) * 2)%Q in
  match Qcompare twice 1%Q with
  | Lt => n
  | Gt => n + 1
  | Eq => if Z.even n then n else n + 1
  end.

(** The binary order of magnitude of [x > 0]: the [l] with
    [2^l <= x < 2^(l+1)]. *)
Definition ilog2 (x : Q) : Z :=
  let k := Z.log2 (Qnum x) - Z.log2 (Zpos (Qden x)) in
  if Qle_bool (2 ^ k) x then k else k - 1.

(** The exponent of the last mantissa bit of the doubles around
    [x > 0]: 52 below the order of magnitude, and never below that of
    the subnormal numbers. *)
Definition exponent (x : Q) : Z := Z.max (ilog2 x - 52) (-1074).

Definition round_pos (x : Q) : Q :=
  (inject_Z (nearest_even (x / 2 ^ exponent x)) * 2 ^ exponent x)%Q.

(** The double nearest to [x]. *)
Definition round (x : Q) : Q :=
  match Qnum x with
  | Z0 => 0%Q
  | Zpos _ => round_pos x
  | Zneg _ => (- round_pos (- x))%Q
  end.

(** [float(n)], as an arithmetic operator converts an [int] operand. *)
Definition of_int (n : Z) : Q := round (inject_Z n).

(** [x + y], [x - y], [x * y] and [x / y] on floats, [y] not 0 in the
    last. *)
Definition add (x y : Q) : Q := round (x + y).
Definition sub (x y : Q) : Q := round (x - y).
Definition mul (x y : Q) : Q := round (x * y).
Definition div (x y : Q) : Q := round (x / y).

End Float.


(** ** The [json] module and pydantic's JSON methods

    Library code the decorator calls.  Text is a sequence of code points
    below 256; numbers are integers (a number with a fraction or an
    exponent, NaN and the infinities are [NotModelled]). *)

Module Json.

Import Py.

Definition dquote : ascii := ascii_of_nat 34.
Definition backslash : ascii := ascii_of_nat 92.

Definition hex_digit (n : nat) : ascii :=
  match n with
  | 0 => "0" | 1 => "1" | 2 => "2" | 3 => "3" | 4 => "4" | 5 => "5"
  | 6 => "6" | 7 => "7" | 8 => "8" | 9 => "9" | 10 => "a" | 11 => "b"
  | 12 => "c" | 13 => "d" | 14 => "e" | _ => "f"
  end%nat%char.

(** How one character is written inside a JSON string. *)
Definition escape_char (ensure_ascii : bool) (c : ascii) : string :=
  let n := nat_of_ascii c in
  if (n =? 34)%nat then String backslash (String dquote "")
  else if (n =? 92)%nat then String backslash (String backslash "")
  else if (n =? 10)%nat then String backslash "n"
  else if (n =? 13)%nat then String backslash "r"
  else if (n =? 9)%nat then String backslash "t"
  else if (n =? 8)%nat then String backslash "b"
  else if (n =? 12)%nat then String backslash "f"
  else if ((n <? 32) || (ensure_ascii && (127 <=? n)))%nat then
    String backslash ("u00" +:+ String (hex_digit (n / 16)) (String (hex_digit (n mod 16)) ""))
  else String c "".

Fixpoint escape (ensure_ascii : bool) (s : string) : string :=
  match s with
  | EmptyString => ""
  | String c s' => escape_char ensure_ascii c +:+ escape ensure_ascii s'
  end.

Record style := {
  item_sep : string;
  key_sep : string;
  ensure_ascii : bool
}.

(** [json.dumps] defaults. *)
Definition python_style : style :=
  {| item_sep := ", "; key_sep := ": "; ensure_ascii := true |}.

(** pydantic's compact output. *)
Definition compact_style : style :=
  {| item_sep := ","; key_sep := ":"; ensure_ascii := false |}.

Definition quote (st : style) (s : string) : string :=
  String dquote (escape (ensure_ascii st) s) +:+ String dquote "".

(** The JSON text of a value; a model instance is written as the object
    of its fields. *)
Fixpoint render (st : style) (v : value) : string :=
  match v with
  | PNone => "null"
  | PBool true => "true"
  | PBool false => "false"
  | PInt n => str_int n
  | PStr s => quote st s
  | PList items => "[" +:+ join (item_sep st) (map (render st) items) +:+ "]"
  | PDict members =>
      "{" +:+ join (item_sep st)
                (map (fun kx => quote st (fst kx) +:+ key_sep st +:+ render st (snd kx))
                     members) +:+ "}"
  | PModel _ fields =>
      "{" +:+ join (item_sep st)
                (map (fun kx => quote st (fst kx) +:+ key_sep st +:+ render st (snd kx))
                     fields) +:+ "}"
  end.

(** What [json.dumps] can serialize: no model instance anywhere. *)
Fixpoint plain (v : value) : bool :=
  match v with
  | PNone | PBool _ | PInt _ | PStr _ => true
  | PList items => forallb plain items
  | PDict members => forallb (fun kx => plain (snd kx)) members
  | PModel _ _ => false
  end.

(** [json.dumps(v)]. *)
Definition dumps (v : value) : outcome string :=
  if plain v then Ok (render python_style v) else Raise TypeError.

(** [m.json()] of a pydantic model instance [m]. *)
Definition model_json (m : value) : outcome string :=
  match m with
  | PModel _ _ => Ok (render compact_style m)
  | _ => Raise AttributeError
  end.

(** [json.loads]: a recursive-descent reader of the same grammar. *)

Definition is_ws (c : ascii) : bool :=
  let n := nat_of_ascii c in
  ((n =? 32) || (n =? 9) || (n =? 10) || (n =? 13))%nat.

Fixpoint skip_ws (s : string) : string :=
  match s with
  | EmptyString => ""
  | String c s' => if is_ws c then skip_ws s' else s
  end.

Definition hex_val (c : ascii) : option nat :=
  let n := nat_of_ascii c in
  if ((48 <=? n) && (n <=? 57))%nat then Some (n - 48)%nat
  else if ((97 <=? n) && (n <=? 102))%nat then Some (n - 87)%nat
  else if ((65 <=? n) && (n <=? 70))%nat then Some (n - 55)%nat
  else None.

Definition unescape (e : ascii) : option ascii :=
  let n := nat_of_ascii e in
  if (n =? 34)%nat then Some dquote
  else if (n =? 92)%nat then Some backslash
  else if (n =? 47)%nat then Some "/"%char
  else if (n =? 110)%nat then Some (ascii_of_nat 10)
  else if (n =? 114)%nat then Some (ascii_of_nat 13)
  else if (n =? 116)%nat then Some (ascii_of_nat 9)
  else if (n =? 98)%nat then Some (ascii_of_nat 8)
  else if (n =? 102)%nat then Some (ascii_of_nat 12)
  else None.

(** The characters of a string literal, read after its opening quote:
    the decoded text and what follows the closing quote. *)
Fixpoint read_chars (s : string) : outcome (string * string) :=
  match s with
  | EmptyString => Raise JSONDecodeError
  | String c r =>
      if Ascii.eqb c dquote then Ok ("", r)
      else if Ascii.eqb c backslash then
        match r with
        | EmptyString => Raise JSONDecodeError
        | String e r1 =>
            if Ascii.eqb e "u" then
              match r1 with
              | String h1 (String h2 (String h3 (String h4 r2))) =>
                  match hex_val h1, hex_val h2, hex_val h3, hex_val h4 with
                  | Some a, Some b, Some c3, Some d =>
                      if ((a =? 0) && (b =? 0))%nat then
                        '(t, rest) ← read_chars r2;
                        Ok (String (ascii_of_nat (16 * c3 + d)) t, rest)
                      else Raise NotModelled
                  | _, _, _, _ => Raise JSONDecodeError
                  end
              | _ => Raise JSONDecodeError
              end
            else
              match unescape e with
              | Some c' => '(t, rest) ← read_chars r1; Ok (String c' t, rest)
              | None => Raise JSONDecodeError
              end
        end
      else if (nat_of_ascii c <? 32)%nat then Raise JSONDecodeError
      else '(t, rest) ← read_chars r; Ok (String c t, rest)
  end.

Definition starts_fraction (s : string) : bool :=
  match s with
  | String c _ => Ascii.eqb c "." || Ascii.eqb c "e" || Ascii.eqb c "E"
  | EmptyString => false
  end.

(** An integer literal's magnitude: no leading zero except for 0 itself. *)
Definition read_nat (s : string) : outcome (Z * string) :=
  match read_digits s with
  | ([], _) => Raise JSONDecodeError
  | (d :: ds, rest) =>
      match ds with
      | _ :: _ => if d =? 0 then Raise JSONDecodeError
                  else if starts_fraction rest then Raise NotModelled
                  else Ok (digits_value (d :: ds), rest)
      | [] => if starts_fraction rest then Raise NotModelled
              else Ok (d, rest)
      end
  end.

Fixpoint after_prefix (p s : string) : option string :=
  match p, s with
  | EmptyString, _ => Some s
  | String a p', String b s' => if Ascii.eqb a b then after_prefix p' s' else None
  | String _ _, EmptyString => None
  end.

Definition expect (lit : string) (v : value) (s : string) : outcome (value * string) :=
  match after_prefix lit s with
  | Some rest => Ok (v, rest)
  | None => Raise JSONDecodeError
  end.

Fixpoint read_value (fuel : nat) (s : string) : outcome (value * string) :=
  match fuel with
  | O => OutOfFuel
  | S fuel' =>
      match skip_ws s with
      | EmptyString => Raise JSONDecodeError
      | String c r =>
          if Ascii.eqb c dquote then
            '(t, rest) ← read_chars r; Ok (PStr t, rest)
          else if Ascii.eqb c "[" then
            match skip_ws r with
            | String c1 r1 =>
                if Ascii.eqb c1 "]" then Ok (PList [], r1)
                else
                  (fix items (n : nat) (s : string) (acc : list value) {struct n}
                     : outcome (value * string) :=
                     match n with
                     | O => OutOfFuel
                     | S n' =>
                         '(v, rest) ← read_value fuel' s;
                         match skip_ws rest with
                         | String d rest' =>
                             if Ascii.eqb d "," then items n' rest' (acc ++ [v])
                             else if Ascii.eqb d "]" then Ok (PList (acc ++ [v]), rest')
                             else Raise JSONDecodeError
                         | EmptyString => Raise JSONDecodeError
                         end
                     end) fuel' r []
            | EmptyString => Raise JSONDecodeError
            end
          else if Ascii.eqb c "{" then
            match skip_ws r with
            | String c1 r1 =>
                if Ascii.eqb c1 "}" then Ok (PDict [], r1)
                else
                  (fix members (n : nat) (s : string) (acc : list (string * value)) {struct n}
                     : outcome (value * string) :=
                     match n with
                     | O => OutOfFuel
                     | S n' =>
                         match skip_ws s with
                         | String q s1 =>
                             if Ascii.eqb q dquote then
                               '(k, s2) ← read_chars s1;
                               match skip_ws s2 with
                               | String colon s3 =>
                                   if Ascii.eqb colon ":" then
                                     '(v, rest) ← read_value fuel' s3;
                                     match skip_ws rest with
                                     | String d rest' =>
                                         if Ascii.eqb d "," then members n' rest' (dict_set k v acc)
                                         else if Ascii.eqb d "}" then Ok (PDict (dict_set k v acc), rest')
                                         else Raise JSONDecodeError
                                     | EmptyString => Raise JSONDecodeError
                                     end
                                   else Raise JSONDecodeError
                               | EmptyString => Raise JSONDecodeError
                               end
                             else Raise JSONDecodeError
                         | EmptyString => Raise JSONDecodeError
                         end
                     end) fuel' r []
            | EmptyString => Raise JSONDecodeError
            end
          else if Ascii.eqb c "n" then expect "null" PNone (String c r)
          else if Ascii.eqb c "t" then expect "true" (PBool true) (String c r)
          else if Ascii.eqb c "f" then expect "false" (PBool false) (String c r)
          else if Ascii.eqb c "N" || Ascii.eqb c "I" then Raise NotModelled
          else if Ascii.eqb c "-" then
            if startswith "I" r then Raise NotModelled
            else '(n, rest) ← read_nat r; Ok (PInt (- n), rest)
          else
            '(n, rest) ← read_nat (String c r); Ok (PInt n, rest)
      end
  end.

(** [json.loads(text)]. *)
Definition loads (text : string) : outcome value :=
  '(v, rest) ← read_value (S (String.length text)) text;
  match skip_ws rest with
  | EmptyString => Ok v
  | String _ _ => Raise JSONDecodeError
  end.

(** The array loop and the object loop of [read_value], on their own:
    [rv] reads one value. *)
Definition read_items (rv : string -> outcome (value * string))
    : nat -> string -> list value -> outcome (value * string) :=
  fix items (n : nat) (s : string) (acc : list value) {struct n} :=
    match n with
    | O => OutOfFuel
    | S n' =>
        '(v, rest) ← rv s;
        match skip_ws rest with
        | String d rest' =>
            if Ascii.eqb d "," then items n' rest' (acc ++ [v])
            else if Ascii.eqb d "]" then Ok (PList (acc ++ [v]), rest')
            else Raise JSONDecodeError
        | EmptyString => Raise JSONDecodeError
        end
    end.

Definition read_members (rv : string -> outcome (value * string))
    : nat -> string -> list (string * value) -> outcome (value * string) :=
  fix members (n : nat) (s : string) (acc : list (string * value)) {struct n} :=
    match n with
    | O => OutOfFuel
    | S n' =>
        match skip_ws s with
        | String q s1 =>
            if Ascii.eqb q dquote then
              '(k, s2) ← read_chars s1;
              match skip_ws s2 with
              | String colon s3 =>
                  if Ascii.eqb colon ":" then
                    '(v, rest) ← rv s3;
                    match skip_ws rest with
                    | String d rest' =>
                        if Ascii.eqb d "," then members n' rest' (dict_set k v acc)
                        else if Ascii.eqb d "}" then Ok (PDict (dict_set k v acc), rest')
                        else Raise JSONDecodeError
                    | EmptyString => Raise JSONDecodeError
                    end
                  else Raise JSONDecodeError
              | EmptyString => Raise JSONDecodeError
              end
            else Raise JSONDecodeError
        | EmptyString => Raise JSONDecodeError
        end
    end.

(** A value as Python can hold it: no key occurs twice in a dict. *)
Fixpoint unique_keys (v : value) : bool :=
  match v with
  | PNone | PBool _ | PInt _ | PStr _ => true
  | PList items => forallb unique_keys items
  | PDict members =>
      bool_decide (NoDup (map fst members))
      && forallb (fun kx => unique_keys (snd kx)) members
  | PModel _ fields =>
      bool_decide (NoDup (map fst fields))
      && forallb (fun kx => unique_keys (snd kx)) fields
  end.

(** Text before which a number ends: the end, or a character that is
    neither a digit nor the start of a fraction or an exponent. *)
Definition ends_number (rest : string) : bool :=
  match rest with
  | EmptyString => true
  | String c _ =>
      match digit_val c with
      | Some _ => false
      | None => negb (starts_fraction rest)
      end
  end.

(** White space only. *)
Fixpoint blank (s : string) : bool :=
  match s with
  | EmptyString => true
  | String c s' => is_ws c && blank s'
  end.

End Json.

(** ** [app/cache/keys.py] *)

Module CacheKeys.

Definition article_detail (slug : string) (username : option string) : string :=
  match Py.truthy username with
  | Some u => "article:detail:" +:+ slug +:+ ":user:" +:+ u
  | None => "article:detail:" +:+ slug
  end.

Definition articles_list (page limit : Z)
    (tag author favorited : option string) : string :=
  let key_parts := ["articles:list"] in
  let key_parts :=
    match Py.truthy tag with
    | Some t => key_parts ++ ["tag:" +:+ t]
    | None =>
        match Py.truthy author with
        | Some a => key_parts ++ ["author:" +:+ a]
        | None =>
            match Py.truthy favorited with
            | Some f => key_parts ++ ["favorited:" +:+ f]
            | None => key_parts ++ ["all"]
            end
        end
    end in
  let key_parts := key_parts ++ ["page:" +:+ Py.str_int page] in
  let key_parts := key_parts ++ ["limit:" +:+ Py.str_int limit] in
  Py.join ":" key_parts.

Definition articles_feed (username : string) (page limit : Z) : string :=
  "articles:list:feed:" +:+ username +:+ ":page:" +:+ Py.str_int page
    +:+ ":limit:" +:+ Py.str_int limit.

Definition user_profile (username : string) : string :=
  "user:profile:" +:+ username.

Definition user_follower_count (username : string) : string :=
  "user:profile:" +:+ username +:+ ":follower_count".

Definition user_following_count (username : string) : string :=
  "user:profile:" +:+ username +:+ ":following_count".

Definition comments_list (slug : string) (page limit : Z) : string :=
  "comments:article:" +:+ slug +:+ ":page:" +:+ Py.str_int page
    +:+ ":limit:" +:+ Py.str_int limit.

Definition tags_all : string := "tags:all".

(** The filter a call to [articles_list] selects, in the words of the
    specification: tag before author before favorited, else none. *)
Inductive filter :=
| FTag (v : string)
| FAuthor (v : string)
| FFavorited (v : string)
| FAll.

Definition chosen_filter (tag author favorited : option string) : filter :=
  match Py.truthy tag, Py.truthy author, Py.truthy favorited with
  | Some t, _, _ => FTag t
  | None, Some a, _ => FAuthor a
  | None, None, Some f => FFavorited f
  | None, None, None => FAll
  end.

Definition filter_segment (f : filter) : string :=
  match f with
  | FTag v => "tag:" +:+ v
  | FAuthor v => "author:" +:+ v
  | FFavorited v => "favorited:" +:+ v
  | FAll => "all"
  end.

End CacheKeys.

(** ** [app/cache/monitoring.py] *)

Module CacheMonitor.

(** The class attributes [hits] and [misses]. *)
Record t := { hits : Z; misses : Z }.

(** The class as loaded: both counters are 0. *)
Definition initial : t := {| hits := 0; misses := 0 |}.

Definition record_hit (cls : t) : t :=
  {| hits := hits cls + 1; misses := misses cls |}.

Definition record_miss (cls : t) : t :=
  {| hits := hits cls; misses := misses cls + 1 |}.

(** Rounding to the nearest integer, ties to even, as number formatting
    does. *)
Definition round_half_even (x : Q) : Z :=
  let n := Qfloor x in
  let twice := ((x - inject_Z n) * 2)%Q in
  match Qcompare twice 1%Q with
  | Lt => n
  | Gt => n + 1
  | Eq => if Z.even n then n else n + 1
  end.

Definition two_digits (n : Z) : string :=
  (if n <? 10 then "0" else "") +:+ Py.str_int n.

(** [format(x, ".2%")] for a float [x >= 0]: [x] is multiplied by 100
    as a float, and the product is written with two fractional digits
    (the decimal nearest to the double, ties to even), then a percent
    sign. *)
Definition format_percent2 (x : Q) : string :=
  let percent := Float.mul x 100 in
  let hundredths := round_half_even (percent * 100)%Q in
  Py.str_int (hundredths / 100) +:+ "." +:+ two_digits (hundredths mod 100) +:+ "%".

(** The [dict] that [get_stats] returns. *)
Record stats := {
  stat_hits : Z;
  stat_misses : Z;
  stat_total : Z;
  stat_hit_rate : string
}.

(** [cls.hits / total] is the quotient of two integers as a float: the
    double nearest to the exact quotient. *)
Definition get_stats (cls : t) : stats :=
  let total := hits cls + misses cls in
  let hit_rate :=
    if 0 <? total then Float.round (inject_Z (hits cls) / inject_Z total)%Q else 0%Q in
  {| stat_hits := hits cls;
     stat_misses := misses cls;
     stat_total := total;
     stat_hit_rate := format_percent2 hit_rate |}.

(** What happened to the monitor since the process started. *)
Inductive event := Hit | Miss.

Definition record (cls : t) (e : event) : t :=
  match e with
  | Hit => record_hit cls
  | Miss => record_miss cls
  end.

Definition after (events : list event) : t := fold_left record events initial.

Definition count_hits (events : list event) : Z :=
  Z.of_nat (length (List.filter (fun e => match e with Hit => true | Miss => false end) events)).

Definition count_misses (events : list event) : Z :=
  Z.of_nat (length (List.filter (fun e => match e with Miss => true | Hit => false end) events)).

End CacheMonitor.

(** ** The key-value store

    The Redis server behind [redis.asyncio], as far as the sources use
    it.  A key holds a text value and the time-to-live last set on it;
    the removal of a key whose time has run out happens inside the server
    as time passes and is no part of a call.  [layout] is the order in
    which SCAN walks the key slots: a key keeps its slot when it is
    deleted, and a new key takes a new slot at the end. *)

Module Redis.

Record entry := { payload : string; ttl : option Z }.

Record t := {
  data : gmap string entry;
  layout : list string
}.

Definition empty : t := {| data := ∅; layout := [] |}.

Definition place (k : string) (slots : list string) : list string :=
  if bool_decide (k ∈ slots) then slots else slots ++ [k].

(** GET *)
Definition get (k : string) (r : t) : option string :=
  payload <$> data r !! k.

(** SETEX: a time-to-live that is not positive is refused. *)
Definition setex (k : string) (seconds : Z) (v : string) (r : t) : outcome t :=
  if seconds <=? 0 then Raise ResponseError
  else Ok {| data := <[k := {| payload := v; ttl := Some seconds |}]> (data r);
             layout := place k (layout r) |}.

(** INCR: a missing key counts from 0; a value that is not an integer
    is refused. *)
Definition incr (k : string) (r : t) : outcome (Z * t) :=
  match data r !! k with
  | None =>
      Ok (1, {| data := <[k := {| payload := Py.str_int 1; ttl := None |}]> (data r);
                layout := place k (layout r) |})
  | Some e =>
      match Py.canonical_int (payload e) with
      | Some n =>
          Ok (n + 1, {| data := <[k := {| payload := Py.str_int (n + 1); ttl := ttl e |}]> (data r);
                        layout := layout r |})
      | None => Raise ResponseError
      end
  end.

(** The integer a key holds, as INCR reads it: a missing key counts as
    0, and a text that is not a canonical integer is no counter. *)
Definition counter (k : string) (r : t) : option Z :=
  match data r !! k with
  | None => Some 0
  | Some e => Py.canonical_int (payload e)
  end.

(** EXPIRE: sets the time-to-live of a key that exists; a time that is
    not positive deletes the key at once. *)
Definition expire (k : string) (seconds : Z) (r : t) : bool * t :=
  match data r !! k with
  | None => (false, r)
  | Some e =>
      if seconds <=? 0 then (true, {| data := delete k (data r); layout := layout r |})
      else (true, {| data := <[k := {| payload := payload e; ttl := Some seconds |}]> (data r);
                     layout := layout r |})
  end.

(** Glob patterns, as the server's [stringmatchlen] matches them
    byte by byte: [*] matches any run of characters, [?] any one
    character, [[...]] one character of a class (single characters,
    ranges [a-z], a leading [^] for the complement), and a backslash
    takes the next character literally. *)

(** A character as a range compares it: a signed byte. *)
Definition signed (c : ascii) : Z :=
  let n := Z.of_nat (nat_of_ascii c) in
  if n <? 128 then n else n - 256.

(** [c] lies between the two ends of a range, given in either order. *)
Definition in_range (a b c : ascii) : bool :=
  (Z.min (signed a) (signed b) <=? signed c) && (signed c <=? Z.max (signed a) (signed b)).

Definition backslash : ascii := ascii_of_nat 92.

(** The loop over the items of a class, after the opening bracket and
    the [^]: whether [c] matched an item so far, and the pattern after
    the closing bracket.  A class that is not closed runs to the end of
    the pattern. *)
Fixpoint class_items (pattern : string) (c : ascii) (matched : bool) : bool * string :=
  match pattern with
  | EmptyString => (matched, "")
  | String p0 rest0 =>
      match rest0 with
      | String p1 rest1 =>
          if Ascii.eqb p0 backslash then class_items rest1 c (matched || Ascii.eqb p1 c)
          else if Ascii.eqb p0 "]" then (matched, rest0)
          else
            match rest1 with
            | String p2 rest2 =>
                if Ascii.eqb p1 "-" then class_items rest2 c (matched || in_range p0 p2 c)
                else class_items rest0 c (matched || Ascii.eqb p0 c)
            | EmptyString => class_items rest0 c (matched || Ascii.eqb p0 c)
            end
      | EmptyString =>
          if Ascii.eqb p0 "]" then (matched, "")
          else (matched || Ascii.eqb p0 c, "")
      end
  end.

Fixpoint skip_stars (pattern : string) : string :=
  match pattern with
  | String c rest => if Ascii.eqb c "*" then skip_stars rest else pattern
  | EmptyString => ""
  end.

Definition is_empty (s : string) : bool :=
  match s with
  | EmptyString => true
  | String _ _ => false
  end.

(** [stringmatchlen]: the loop runs while pattern and string both have
    characters left; [continue] is its end of round, where a string that
    is used up lets only stars follow in the pattern.  A star tries the
    rest of the pattern on every non-empty suffix of the string, one
    level of recursion deeper; past 1000 levels nothing matches.  [fuel]
    bounds the length of the pattern. *)
Fixpoint stringmatch_from (fuel nesting : nat) (pattern s : string) {struct fuel} : bool :=
  match fuel with
  | O => false
  | S fuel' =>
      if (1000 <? nesting)%nat then false
      else
        match pattern, s with
        | EmptyString, EmptyString => true
        | EmptyString, String _ _ => false
        | String _ _, EmptyString => false
        | String p0 prest, String c srest =>
            let continue (pattern' : string) : bool :=
              match srest with
              | EmptyString => is_empty (skip_stars pattern')
              | String _ _ => stringmatch_from fuel' nesting pattern' srest
              end in
            if Ascii.eqb p0 "*" then
              let after := skip_stars prest in
              match after with
              | EmptyString => true
              | String _ _ =>
                  (fix try (s : string) : bool :=
                     match s with
                     | EmptyString => false
                     | String _ s' =>
                         stringmatch_from fuel' (S nesting) after s || try s'
                     end) s
              end
            else if Ascii.eqb p0 "?" then continue prest
            else if Ascii.eqb p0 "[" then
              let '(negated, items) :=
                match prest with
                | String n rest => if Ascii.eqb n "^" then (true, rest) else (false, prest)
                | EmptyString => (false, prest)
                end in
              let '(matched, pattern') := class_items items c false in
              if xorb negated matched then continue pattern' else false
            else if Ascii.eqb p0 backslash then
              match prest with
              | String p1 pattern' => if Ascii.eqb p1 c then continue pattern' else false
              | EmptyString => if Ascii.eqb p0 c then continue "" else false
              end
            else if Ascii.eqb p0 c then continue prest else false
        end
  end.

Definition stringmatch (pattern s : string) : bool :=
  stringmatch_from (S (String.length pattern)) 0 pattern s.

(** MATCH pattern: the pattern that is exactly one star is not matched
    at all, every key passes. *)
Definition glob (pattern key : string) : bool :=
  String.eqb pattern "*" || stringmatch pattern key.

(** SCAN cursor MATCH pattern COUNT count: looks at the next [count]
    slots from [cursor] and returns the keys among them that exist and
    match, with the cursor to go on from: 0 when the walk is over. *)
Definition scan (cursor : nat) (pattern : string) (count : nat) (r : t) : nat * list string :=
  let window := take count (drop cursor (layout r)) in
  let keys := List.filter (fun k => bool_decide (is_Some (data r !! k)) && glob pattern k) window in
  let next := (cursor + count)%nat in
  (if (next <? length (layout r))%nat then next else 0%nat, keys).

(** DEL key...: removes the keys that exist and returns how many. *)
Fixpoint del (keys : list string) (r : t) : Z * t :=
  match keys with
  | [] => (0, r)
  | k :: keys' =>
      match data r !! k with
      | Some _ =>
          let '(n, r') := del keys' {| data := delete k (data r); layout := layout r |} in
          (1 + n, r')
      | None => del keys' r
      end
  end.

(** Every key the store holds has a slot that SCAN visits. *)
Definition well_formed (r : t) : Prop :=
  forall k, is_Some (data r !! k) -> k ∈ layout r.

End Redis.

(** ** The process and its environment *)

(** [app/core/settings/base.py]: the settings the cache reads. *)
Record Settings := {
  redis_url : string;
  cache_enabled : bool;
  cache_default_ttl : Z
}.

Definition default_settings : Settings :=
  {| redis_url := "redis://localhost:6379/0";
     cache_enabled := true;
     cache_default_ttl := 300 |}.

(** Everything a call can read or change: the store, the settings, the
    class attributes of [CacheMonitor], the clock ([clock n] is the float
    that the [n]-th call of [time.time()] returns, [ticks] counts the
    calls made so far), and the invocations of decorated functions, in
    order. *)
Record World := {
  redis : Redis.t;
  settings : Settings;
  monitor : CacheMonitor.t;
  clock : nat -> Q;
  ticks : nat;
  calls : list (list value * list (string * value))
}.

Definition set_redis (r : Redis.t) (w : World) : World :=
  {| redis := r; settings := settings w; monitor := monitor w;
     clock := clock w; ticks := ticks w; calls := calls w |}.

Definition set_monitor (m : CacheMonitor.t) (w : World) : World :=
  {| redis := redis w; settings := settings w; monitor := m;
     clock := clock w; ticks := ticks w; calls := calls w |}.

Definition set_ticks (n : nat) (w : World) : World :=
  {| redis := redis w; settings := settings w; monitor := monitor w;
     clock := clock w; ticks := n; calls := calls w |}.

Definition set_calls (c : list (list value * list (string * value))) (w : World) : World :=
  {| redis := redis w; settings := settings w; monitor := monitor w;
     clock := clock w; ticks := ticks w; calls := c |}.

(** A computation over the world that may raise; what was changed before
    an exception stays changed. *)
Definition M (A : Type) : Type := World -> outcome A * World.

#[global] Instance M_ret : MRet M := fun _ a w => (Ok a, w).
#[global] Instance M_bind : MBind M := fun _ _ f m w =>
  match m w with
  | (Ok a, w') => f a w'
  | (Raise e, w') => (Raise e, w')
  | (OutOfFuel, w') => (OutOfFuel, w')
  end.

Definition raise {A} (e : exn) : M A := fun w => (Raise e, w).

Definition lift {A} (o : outcome A) : M A := fun w => (o, w).

(** [time.time()] *)
Definition time_time : M Q :=
  fun w => (Ok (clock w (ticks w)), set_ticks (S (ticks w)) w).

(** [get_app_settings()] *)
Definition get_app_settings : M Settings :=
  fun w => (Ok (settings w), w).

Definition redis_get (k : string) : M (option string) :=
  fun w => (Ok (Redis.get k (redis w)), w).

Definition redis_setex (k : string) (seconds : Z) (v : string) : M unit :=
  fun w =>
    match Redis.setex k seconds v (redis w) with
    | Ok r => (Ok tt, set_redis r w)
    | Raise e => (Raise e, w)
    | OutOfFuel => (OutOfFuel, w)
    end.

Definition redis_incr (k : string) : M Z :=
  fun w =>
    match Redis.incr k (redis w) with
    | Ok (n, r) => (Ok n, set_redis r w)
    | Raise e => (Raise e, w)
    | OutOfFuel => (OutOfFuel, w)
    end.

Definition redis_expire (k : string) (seconds : Z) : M bool :=
  fun w => let '(b, r) := Redis.expire k seconds (redis w) in (Ok b, set_redis r w).

Definition redis_scan (cursor : nat) (pattern : string) (count : nat) : M (nat * list string) :=
  fun w => (Ok (Redis.scan cursor pattern count (redis w)), w).

Definition redis_delete (keys : list string) : M Z :=
  fun w => let '(n, r) := Redis.del keys (redis w) in (Ok n, set_redis r w).

(** ** [app/core/rate_limiter.py] *)

Module RateLimiter.

Record RateLimitInfo := {
  limit : Z;
  remaining : Z;
  reset_time : Z
}.

Definition _generate_key (identifier endpoint : string) (window : Z) : string :=
  "rate_limit:" +:+ identifier +:+ ":" +:+ endpoint +:+ ":" +:+ Py.str_int window.

Definition _get_count (identifier endpoint : string) (window : Z) : M Z :=
  let key := _generate_key identifier endpoint window in
  count ← redis_get key;
  match count with
  | Some text => lift (Py.int_of_str text)
  | None => mret 0
  end.

Definition _increment (identifier endpoint : string) (window expire : Z) : M unit :=
  let key := _generate_key identifier endpoint window in
  _ ← redis_incr key;
  _ ← redis_expire key expire;
  mret tt.

(** [a // b] on integers. *)
Definition floordiv (a b : Z) : M Z :=
  if b =? 0 then raise ZeroDivisionError else mret (a / b).

(** [x / b] for a float [x] and an integer [b]. *)
Definition truediv (x : Q) (b : Z) : M Q :=
  if b =? 0 then raise ZeroDivisionError else mret (Float.div x (Float.of_int b)).

(** [current_count + previous_count * (1 - percentage)]: an integer
    operand of a float operation is converted to a float first. *)
Definition weighted_count (current_count previous_count : Z) (percentage : Q) : Q :=
  Float.add (Float.of_int current_count)
    (Float.mul (Float.of_int previous_count) (Float.sub (Float.of_int 1) percentage)).

Definition check (identifier endpoint : string) (limit window : Z)
    : M (bool * RateLimitInfo) :=
  now ← time_time;
  q ← floordiv (Py.int_of_float now) window;
  let current_window := q * window in
  let previous_window := current_window - window in
  current_count ← _get_count identifier endpoint current_window;
  previous_count ← _get_count identifier endpoint previous_window;
  now' ← time_time;
  let elapsed := Float.sub now' (Float.of_int current_window) in
  percentage ← truediv elapsed window;
  let weighted_count := weighted_count current_count previous_count percentage in
  let allowed := Py.num_lt weighted_count (inject_Z limit) in
  _ ← (if allowed then _increment identifier endpoint current_window (window * 2)
       else mret tt);
  let remaining :=
    Z.max 0 (limit - Py.int_of_float weighted_count - (if allowed then 1 else 0)) in
  let reset_time := current_window + window in
  mret (allowed, {| limit := limit; remaining := remaining; reset_time := reset_time |}).

(** [n] calls of [check] one after the other, and their decisions. *)
Fixpoint check_times (n : nat) (identifier endpoint : string) (limit window : Z)
    : M (list bool) :=
  match n with
  | O => mret []
  | S n' =>
      '(allowed, _) ← check identifier endpoint limit window;
      rest ← check_times n' identifier endpoint limit window;
      mret (allowed :: rest)
  end.

(** How many of the decisions admit. *)
Definition admitted (decisions : list bool) : Z :=
  Z.of_nat (length (List.filter (fun allowed => allowed) decisions)).

End RateLimiter.

(** ** [app/middleware/rate_limiting.py] *)

Module RateLimitMiddleware.

Record RateLimitConfig := {
  limit : Z;
  window : Z;
  dimension : string
}.

(** What the middleware reads of a request: the URL path, the
    [X-Forwarded-For] header, the peer address ([request.client] may be
    absent) and [request.state.user.id] when both attributes exist. *)
Record Request := {
  path : string;
  x_forwarded_for : option string;
  client_host : option string;
  user_id : option Z
}.

Record Response := {
  status_code : Z;
  content : value;
  headers : gmap string string
}.

(** [response.headers[name] = v] *)
Definition set_header (name v : string) (r : Response) : Response :=
  {| status_code := status_code r; content := content r;
     headers := <[name := v]> (headers r) |}.

(** The items of the dict literal in [_load_limit_configs], in source
    order. *)
Definition limit_config_items : list (string * RateLimitConfig) :=
    [ ("/api/users/login", {| limit := 5; window := 60; dimension := "ip" |});
      ("/api/users", {| limit := 3; window := 3600; dimension := "ip" |});
      ("/api/articles", {| limit := 10; window := 3600; dimension := "user" |});
      ("/api/articles/{slug}/comments", {| limit := 20; window := 3600; dimension := "user" |});
      ("/api/articles/{slug}/favorite", {| limit := 30; window := 60; dimension := "user" |});
      ("/api/articles", {| limit := 100; window := 60; dimension := "ip" |});
      ("/api/articles/{slug}", {| limit := 60; window := 60; dimension := "ip" |});
      ("/api/profiles/{username}", {| limit := 60; window := 60; dimension := "ip" |}) ].

Definition _load_limit_configs : list (string * RateLimitConfig) :=
  Py.dict_literal limit_config_items.

(** The middleware object: what [__init__] stores that matters here. *)
Record t := { limit_configs : list (string * RateLimitConfig) }.

Definition __init__ : t := {| limit_configs := _load_limit_configs |}.

(** The inner [for i in range(len(pattern_parts))] loop, on two lists
    of equal length. *)
Fixpoint parts_match (pattern_parts path_parts : list string) : bool :=
  match pattern_parts, path_parts with
  | p :: ps, q :: qs =>
      if Py.startswith "{" p && Py.endswith "}" p then parts_match ps qs
      else if negb (String.eqb p q) then false
      else parts_match ps qs
  | _, _ => true
  end.

(** The [for pattern, config in self.limit_configs.items()] loop. *)
Fixpoint match_patterns (path : string) (items : list (string * RateLimitConfig))
    : option RateLimitConfig :=
  match items with
  | [] => None
  | (pattern, config) :: rest =>
      if Py.contains_char "{" pattern && Py.contains_char "}" pattern then
        let pattern_parts := Py.split "/" pattern in
        let path_parts := Py.split "/" path in
        if (length pattern_parts =? length path_parts)%nat then
          if parts_match pattern_parts path_parts then Some config
          else match_patterns path rest
        else match_patterns path rest
      else match_patterns path rest
  end.

Definition _get_rate_limit_config (self : t) (request : Request) : RateLimitConfig :=
  let path := path request in
  match Py.dict_get path (limit_configs self) with
  | Some config => config
  | None =>
      match match_patterns path (limit_configs self) with
      | Some config => config
      | None => {| limit := 0; window := 60; dimension := "ip" |}
      end
  end.

Definition _get_ip_identifier (request : Request) : M string :=
  match Py.truthy (x_forwarded_for request) with
  | Some xff => mret ("ip:" +:+ Py.strip (hd "" (Py.split "," xff)))
  | None =>
      match client_host request with
      | Some host => mret ("ip:" +:+ host)
      | None => raise AttributeError
      end
  end.

Definition _get_identifier (request : Request) (config : RateLimitConfig) : M string :=
  if String.eqb (dimension config) "user" then
    match user_id request with
    | Some uid =>
        if negb (uid =? 0) then mret ("user:" +:+ Py.str_int uid)
        else _get_ip_identifier request
    | None => _get_ip_identifier request
    end
  else if String.eqb (dimension config) "ip" then _get_ip_identifier request
  else _get_ip_identifier request.

Definition _rate_limit_response (retry_after : Z) : Response :=
  {| status_code := 429;
     content := PDict [ ("error", PStr "rate_limit_exceeded");
                        ("message", PStr "Too many requests. Please try again later.");
                        ("retry_after", PInt retry_after) ];
     headers := ∅ |}.

Definition dispatch (self : t) (request : Request) (call_next : Request -> M Response)
    : M Response :=
  if Py.startswith "/static" (path request) then call_next request
  else
    let config := _get_rate_limit_config self request in
    if limit config =? 0 then call_next request
    else
      identifier ← _get_identifier request config;
      '(allowed, info) ← RateLimiter.check identifier (path request) (limit config) (window config);
      response ←
        (if allowed : bool then call_next request
         else
           now ← time_time;
           let retry_after :=
             Py.int_of_float (Float.sub (Float.of_int (RateLimiter.reset_time info)) now) in
           mret (_rate_limit_response retry_after));
      let response := set_header "X-RateLimit-Limit" (Py.str_int (RateLimiter.limit info)) response in
      let response := set_header "X-RateLimit-Remaining" (Py.str_int (RateLimiter.remaining info)) response in
      let response := set_header "X-RateLimit-Reset" (Py.str_int (RateLimiter.reset_time info)) response in
      mret response.

(** Requests served one after the other by the same middleware. *)
Fixpoint serve (self : t) (call_next : Request -> M Response) (requests : list Request)
    : M (list Response) :=
  match requests with
  | [] => mret []
  | request :: rest =>
      response ← dispatch self request call_next;
      responses ← serve self call_next rest;
      mret (response :: responses)
  end.

End RateLimitMiddleware.

(** ** [app/cache/decorators.py] *)

Module Decorators.

(** [str(v)], as a replacement field with no format spec renders it. *)
Definition str_of (v : value) : outcome string :=
  match v with
  | PStr s => Ok s
  | PInt n => Ok (Py.str_int n)
  | PNone => Ok "None"
  | PBool true => Ok "True"
  | PBool false => Ok "False"
  | _ => Raise NotModelled
  end.

Definition all_digits (s : string) : bool :=
  match Py.read_digits s with
  | (_, EmptyString) => true
  | _ => false
  end.

(** A replacement field [{name}] looked up in the keyword arguments.
    An empty or numeric name asks for a positional argument, and
    [format] is given none. *)
Definition lookup_field (name : string) (kwargs : list (string * value)) : outcome string :=
  if all_digits name then Raise IndexError
  else match Py.dict_get name kwargs with
       | Some v => str_of v
       | None => Raise (KeyError name)
       end.

(** [str.format] applied to the keyword arguments alone.  [field] is the name read so far when
    the reader is inside braces.  Doubled braces stand for one literal
    brace; attribute access, indexing, conversions and format specs
    inside a field are [NotModelled]. *)
Fixpoint format_from (template : string) (field : option string)
    (kwargs : list (string * value)) : outcome string :=
  match template with
  | EmptyString =>
      match field with
      | None => Ok ""
      | Some _ => Raise ValueError
      end
  | String c rest =>
      match field with
      | None =>
          if Ascii.eqb c "{" then
            match rest with
            | String c' rest' =>
                if Ascii.eqb c' "{" then
                  out ← format_from rest' None kwargs; Ok (String "{" out)
                else format_from rest (Some "") kwargs
            | EmptyString => Raise ValueError
            end
          else if Ascii.eqb c "}" then
            match rest with
            | String c' rest' =>
                if Ascii.eqb c' "}" then
                  out ← format_from rest' None kwargs; Ok (String "}" out)
                else Raise ValueError
            | EmptyString => Raise ValueError
            end
          else out ← format_from rest None kwargs; Ok (String c out)
      | Some name =>
          if Ascii.eqb c "}" then
            text ← lookup_field name kwargs;
            out ← format_from rest None kwargs;
            Ok (text +:+ out)
          else if Ascii.eqb c "{" then Raise ValueError
          else if Ascii.eqb c "." || Ascii.eqb c "[" || Ascii.eqb c "!" || Ascii.eqb c ":"
          then Raise NotModelled
          else format_from rest (Some (name +:+ String c "")) kwargs
      end
  end.

Definition format (template : string) (kwargs : list (string * value)) : outcome string :=
  format_from template None kwargs.

(** A pydantic model class: its name and its validation of the fields
    read from JSON (which may coerce them or refuse them). *)
Record model_class := {
  cls_name : string;
  validate : list (string * value) -> option (list (string * value))
}.

(** The item type [T] of a [List[T]] annotation. *)
Inductive item_type :=
| ItemModel (cls : model_class)
| ItemClass
| ItemNotClass.

(** [func.__annotations__.get('return')] as the wrapper inspects it. *)
Inductive annotation :=
| NoAnnotation
| AModel (cls : model_class)
| AList (item : item_type)
| AOther.

(** A function to decorate: its return annotation and what a call
    returns or raises. *)
Record pyfunc := {
  returns : annotation;
  body : list value -> list (string * value) -> outcome value
}.

(** Awaiting [func] on the positional and keyword arguments; the call
    is recorded. *)
Definition call (func : pyfunc) (args : list value) (kwargs : list (string * value)) : M value :=
  fun w => (body func args kwargs, set_calls (calls w ++ [(args, kwargs)]) w).

(** [cls.parse_raw(text)]: read the JSON text, then validate an object. *)
Definition parse_raw (cls : model_class) (text : string) : outcome value :=
  match Json.loads text with
  | Ok (PDict members) =>
      match validate cls members with
      | Some fields => Ok (PModel (cls_name cls) fields)
      | None => Raise ValidationError
      end
  | Ok _ => Raise ValidationError
  | Raise JSONDecodeError => Raise ValidationError
  | Raise e => Raise e
  | OutOfFuel => OutOfFuel
  end.

(** [cls.parse_raw(item)] for an item of any type: only text is read. *)
Definition parse_raw_item (cls : model_class) (item : value) : outcome value :=
  match item with
  | PStr text => parse_raw cls text
  | _ => Raise ValidationError
  end.

Fixpoint chars (s : string) : list value :=
  match s with
  | EmptyString => []
  | String c s' => PStr (String c "") :: chars s'
  end.

(** [for item in v]: the items of a list, the keys of a dict, the
    characters of a string. *)
Definition iterate (v : value) : outcome (list value) :=
  match v with
  | PList items => Ok items
  | PDict members => Ok (map (fun kx => PStr (fst kx)) members)
  | PStr s => Ok (chars s)
  | _ => Raise TypeError
  end.

(** A list comprehension whose body may raise. *)
Fixpoint each {A B} (f : A -> outcome B) (l : list A) : outcome (list B) :=
  match l with
  | [] => Ok []
  | x :: l' => y ← f x; ys ← each f l'; Ok (y :: ys)
  end.

(** The hit branch after [record_hit]: the payload read back according
    to the return annotation. *)
Definition decode (ann : annotation) (cached_data : string) : outcome value :=
  match ann with
  | AModel cls => parse_raw cls cached_data
  | AList (ItemModel cls) =>
      loaded ← Json.loads cached_data;
      items ← iterate loaded;
      models ← each (parse_raw_item cls) items;
      Ok (PList models)
  | AList ItemNotClass => Raise TypeError
  | AList ItemClass | AOther | NoAnnotation => Json.loads cached_data
  end.

(** The miss branch: the text that is stored for a result. *)
Definition encode (result : value) : outcome string :=
  match result with
  | PModel _ _ => Json.model_json result
  | PList (PModel c f :: rest) =>
      texts ← each Json.model_json (PModel c f :: rest);
      Json.dumps (PList (map PStr texts))
  | _ => Json.dumps result
  end.

(** [isinstance(v, BaseModel)] *)
Definition is_model (v : value) : bool :=
  match v with
  | PModel _ _ => true
  | _ => false
  end.

(** [ttl or settings.cache_default_ttl] *)
Definition ttl_or (ttl : option Z) (default_ttl : Z) : Z :=
  match ttl with
  | Some t => if t =? 0 then default_ttl else t
  | None => default_ttl
  end.

Definition record_hit : M unit :=
  fun w => (Ok tt, set_monitor (CacheMonitor.record_hit (monitor w)) w).

Definition record_miss : M unit :=
  fun w => (Ok tt, set_monitor (CacheMonitor.record_miss (monitor w)) w).

(** The world after a miss was recorded and [func] was awaited once. *)
Definition missed (args : list value) (kwargs : list (string * value)) (w : World) : World :=
  set_calls (calls w ++ [(args, kwargs)])
    (set_monitor (CacheMonitor.record_miss (monitor w)) w).

Definition wrapper (key_pattern : string) (ttl : option Z) (func : pyfunc)
    (args : list value) (kwargs : list (string * value)) : M value :=
  settings ← get_app_settings;
  if negb (cache_enabled settings) then call func args kwargs
  else
    cache_key ← lift (format key_pattern kwargs);
    cached_data ← redis_get cache_key;
    match Py.truthy cached_data with
    | Some cached_data =>
        _ ← record_hit;
        lift (decode (returns func) cached_data)
    | None =>
        _ ← record_miss;
        result ← call func args kwargs;
        _ ← match result with
            | PNone => mret tt
            | _ =>
                let cache_ttl := ttl_or ttl (cache_default_ttl settings) in
                serialized_data ← lift (encode result);
                redis_setex cache_key cache_ttl serialized_data
            end;
        mret result
    end.

(** The decorated function: the wrapper, and the patterns attached to
    it as an attribute when the list given is not empty. *)
Record decorated := {
  invoke : list value -> list (string * value) -> M value;
  invalidate_patterns : option (list string)
}.

Definition cache (key_pattern : string) (ttl : option Z)
    (patterns : option (list string)) (func : pyfunc) : decorated :=
  {| invoke := wrapper key_pattern ttl func;
     invalidate_patterns :=
       match patterns with
       | Some (p :: ps) => Some (p :: ps)
       | _ => None
       end |}.

(** A model instance that comes back from its JSON text as it is: an
    instance of [cls] whose fields hold plain data and pass the
    validation of [cls] unchanged. *)
Definition returned_as_is (cls : model_class) (m : value) : Prop :=
  exists fields,
    m = PModel (cls_name cls) fields
    /\ Json.plain (PDict fields) = true
    /\ Json.unique_keys (PDict fields) = true
    /\ validate cls fields = Some fields.

(** A result whose shape is the one the return annotation declares. *)
Definition fits (ann : annotation) (result : value) : Prop :=
  match ann with
  | AModel cls => returned_as_is cls result
  | AList (ItemModel cls) =>
      exists models, result = PList models /\ Forall (returned_as_is cls) models
  | AList ItemNotClass => False
  | AList ItemClass | AOther | NoAnnotation =>
      Json.plain result = true /\ Json.unique_keys result = true
  end.

End Decorators.

(** ** [app/cache/invalidation.py] *)

Module Invalidation.

(** The [while True] loop for one pattern, from [cursor] on; [fuel]
    bounds the number of rounds. *)
Fixpoint scan_loop (fuel : nat) (pattern : string) (cursor : nat)
    (invalidated_count : Z) : M Z :=
  match fuel with
  | O => lift OutOfFuel
  | S fuel' =>
      '(cursor, keys) ← redis_scan cursor pattern 100;
      invalidated_count ←
        match keys with
        | _ :: _ => n ← redis_delete keys; mret (invalidated_count + n)
        | [] => mret invalidated_count
        end;
      if (cursor =? 0)%nat then mret invalidated_count
      else scan_loop fuel' pattern cursor invalidated_count
  end.

(** The [for pattern in patterns] loop. *)
Fixpoint each_pattern (fuel : nat) (patterns : list string) (invalidated_count : Z) : M Z :=
  match patterns with
  | [] => mret invalidated_count
  | pattern :: rest =>
      invalidated_count ← scan_loop fuel pattern 0 invalidated_count;
      each_pattern fuel rest invalidated_count
  end.

Definition invalidate_cache (fuel : nat) (patterns : list string) : M Z :=
  each_pattern fuel patterns 0.

(** A key matches one of the patterns. *)
Definition matches_any (patterns : list string) (k : string) : bool :=
  existsb (fun pattern => Redis.glob pattern k) patterns.

End Invalidation.

(** ** [app/models/domain/rwmodel.py] *)

Module RWModel.

Definition is_ascii (c : ascii) : bool := (nat_of_ascii c <? 128)%nat.

Fixpoint all_ascii (s : string) : bool :=
  match s with
  | EmptyString => true
  | String c s' => is_ascii c && all_ascii s'
  end.

Definition upper (c : ascii) : ascii :=
  let n := nat_of_ascii c in
  if ((97 <=? n) && (n <=? 122))%nat then ascii_of_nat (n - 32) else c.

Definition lower (c : ascii) : ascii :=
  let n := nat_of_ascii c in
  if ((65 <=? n) && (n <=? 90))%nat then ascii_of_nat (n + 32) else c.

Fixpoint lower_all (s : string) : string :=
  match s with
  | EmptyString => ""
  | String c s' => String (lower c) (lower_all s')
  end.

(** [word.capitalize()]: the first character in upper case, the others
    in lower case.  Only ASCII text is modelled. *)
Definition capitalize (word : string) : outcome string :=
  if all_ascii word then
    Ok (match word with
        | EmptyString => ""
        | String c rest => String (upper c) (lower_all rest)
        end)
  else Raise NotModelled.

(** The words of index 1 and more, capitalized in turn. *)
Fixpoint capitalize_each (words : list string) : outcome (list string) :=
  match words with
  | [] => Ok []
  | word :: rest =>
      word' ← capitalize word;
      rest' ← capitalize_each rest;
      Ok (word' :: rest')
  end.

Definition convert_field_to_camel_case (s : string) : outcome string :=
  match Py.split "_" s with
  | [] => Ok ""
  | first :: rest =>
      words ← capitalize_each rest;
      Ok (Py.join "" (first :: words))
  end.

End RWModel.


(** * Concrete inputs *)

Module Examples.

(** The clock of the specification's scenario: two readings per admitted
    request at t = 0, 1, 2, 3, 4, and every later reading at t = 4. *)
Definition scenario_clock (n : nat) : Q :=
  if (n <? 10)%nat then inject_Z (Z.of_nat (n / 2)) else 4%Q.

Definition fresh_world (clock : nat -> Q) : World :=
  {| redis := Redis.empty; settings := default_settings;
     monitor := CacheMonitor.initial; clock := clock; ticks := 0%nat; calls := [] |}.

Definition scenario_world : World := fresh_world scenario_clock.

(** A middleware whose only quota is 5 requests per 10 seconds. *)
Definition scenario_middleware : RateLimitMiddleware.t :=
  {| RateLimitMiddleware.limit_configs :=
       [ ("/api/ping",
          {| RateLimitMiddleware.limit := 5;
             RateLimitMiddleware.window := 10;
             RateLimitMiddleware.dimension := "ip" |}) ] |}.

Definition request_to (path : string) : RateLimitMiddleware.Request :=
  {| RateLimitMiddleware.path := path;
     RateLimitMiddleware.x_forwarded_for := None;
     RateLimitMiddleware.client_host := Some "10.0.0.1";
     RateLimitMiddleware.user_id := None |}.

Definition scenario_request : RateLimitMiddleware.Request := request_to "/api/ping".

(** A downstream application that answers 200 with no header. *)
Definition plain_next : RateLimitMiddleware.Request -> M RateLimitMiddleware.Response :=
  fun _ => mret {| RateLimitMiddleware.status_code := 200;
                   RateLimitMiddleware.content := PNone;
                   RateLimitMiddleware.headers := ∅ |}.

(** The scenario's limiter calls on their own. *)
Fixpoint checks (n : nat) : M (list (bool * RateLimiter.RateLimitInfo)) :=
  match n with
  | O => mret []
  | S n' =>
      r ← RateLimiter.check "ip:10.0.0.1" "/api/ping" 5 10;
      rs ← checks n';
      mret (r :: rs)
  end.

(** The scenario after its five admitted requests. *)
Definition scenario_world_after_five : World := snd (checks 5 scenario_world).

(** The limiter's answer to the scenario's sixth request, and the world
    it leaves. *)
Definition sixth_info : RateLimiter.RateLimitInfo :=
  {| RateLimiter.limit := 5; RateLimiter.remaining := 0; RateLimiter.reset_time := 10 |}.

Definition scenario_world_after_sixth_check : World :=
  snd (RateLimiter.check "ip:10.0.0.1" "/api/ping" 5 10 scenario_world_after_five).

(** A clock that stands at t = 0. *)
Definition still_clock (n : nat) : Q := 0%Q.

(** A pydantic model with one field, accepted as read. *)
Definition Tag : Decorators.model_class :=
  {| Decorators.cls_name := "Tag"; Decorators.validate := fun fields => Some fields |}.

Definition tag (name : value) : value := PModel "Tag" [("tag", name)].

(** [async def popular_tags() -> List[Tag]], which returns one tag. *)
Definition popular_tags : Decorators.pyfunc :=
  {| Decorators.returns := Decorators.AList (Decorators.ItemModel Tag);
     Decorators.body := fun _ _ => Ok (PList [tag (PStr "rocq")]) |}.

(** [async def tag_of(name, *, slug) -> Tag], whose result depends on
    its positional argument only. *)
Definition tag_of : Decorators.pyfunc :=
  {| Decorators.returns := Decorators.AModel Tag;
     Decorators.body := fun args _ => Ok (tag (hd PNone args)) |}.

(** A store filled by SETEX with one entry per key. *)
Definition filled (keys : list string) : Redis.t :=
  fold_left
    (fun r k => match Redis.setex k 60 "cached" r with
                | Ok r' => r'
                | _ => r
                end)
    keys Redis.empty.

(** 250 article keys (more than two SCAN batches of 100) between two
    keys of other kinds. *)
Definition crowded_keys : list string :=
  "tags:all" :: map (fun i : nat => "article:detail:" +:+ pretty i) (seq 0 250)
    ++ ["user:profile:alice"].

Definition crowded_world : World :=
  {| redis := filled crowded_keys; settings := default_settings;
     monitor := CacheMonitor.initial; clock := still_clock; ticks := 0%nat; calls := [] |}.

(** A clock that stands at t = 12.5. *)
Definition half_past_twelve (n : nat) : Q := (25 # 2)%Q.

(** A store that holds 3 requests of the window that began at t = 10
    and nothing of the window before, read at t = 12.5. *)
Definition busy_world : World :=
  {| redis :=
       {| Redis.data :=
            {[ "rate_limit:ip:10.0.0.1:/api/ping:10"
                 := {| Redis.payload := "3"; Redis.ttl := Some 20 |} ]};
          Redis.layout := [ "rate_limit:ip:10.0.0.1:/api/ping:10" ] |};
     settings := default_settings;
     monitor := CacheMonitor.initial;
     clock := half_past_twelve;
     ticks := 0%nat;
     calls := [] |}.

(** A store that holds 2 requests of the window that began at t = 10
    and 15 requests of the window before, read at t = 18: the weighted
    count is exactly 5. *)
Definition rounding_world : World :=
  {| redis :=
       {| Redis.data :=
            {[ "rate_limit:ip:10.0.0.1:/api/ping:0"
                 := {| Redis.payload := "15"; Redis.ttl := Some 20 |};
               "rate_limit:ip:10.0.0.1:/api/ping:10"
                 := {| Redis.payload := "2"; Redis.ttl := Some 20 |} ]};
          Redis.layout := [ "rate_limit:ip:10.0.0.1:/api/ping:0";
                            "rate_limit:ip:10.0.0.1:/api/ping:10" ] |};
     settings := default_settings;
     monitor := CacheMonitor.initial;
     clock := fun _ => 18%Q;
     ticks := 0%nat;
     calls := [] |}.


(** A store that holds an entry for the tag of slug 7 and the tags key. *)
Definition stale_world : World :=
  {| redis := filled ["tag:7"; "tags:all"]; settings := default_settings;
     monitor := CacheMonitor.initial; clock := still_clock; ticks := 0%nat; calls := [] |}.

(** A store with a list key, a feed key, a detail key and the tags key. *)
Definition listing_world : World :=
  {| redis := filled [ CacheKeys.articles_list 1 20 None None None;
                       CacheKeys.articles_feed "alice" 1 20;
                       CacheKeys.article_detail "intro" None;
                       CacheKeys.tags_all ];
     settings := default_settings;
     monitor := CacheMonitor.initial; clock := still_clock; ticks := 0%nat; calls := [] |}.


End Examples.

(** * Properties *)

(** ** The definitions at work *)

Section WorkedExamples.

Example articles_list_default :
  CacheKeys.articles_list 1 20 None None None = "articles:list:all:page:1:limit:20".
Proof. vm_compute. reflexivity. Qed.

Example articles_list_tag_before_author :
  CacheKeys.articles_list 2 10 (Some "rocq") (Some "bob") None
  = "articles:list:tag:rocq:page:2:limit:10".
Proof. vm_compute. reflexivity. Qed.

Example articles_list_empty_tag_is_no_filter :
  CacheKeys.articles_list 1 20 (Some "") None (Some "eve")
  = "articles:list:favorited:eve:page:1:limit:20".
Proof. vm_compute. reflexivity. Qed.

Example split_path :
  Py.split "/" "/api/articles/x" = [""; "api"; "articles"; "x"].
Proof. reflexivity. Qed.

Example strip_forwarded_address :
  Py.strip (hd "" (Py.split "," " 203.0.113.7 , 10.0.0.1")) = "203.0.113.7".
Proof. vm_compute. reflexivity. Qed.

Example format_renders_keyword_arguments :
  Decorators.format "article:{slug}:page:{page}" [("slug", PStr "intro"); ("page", PInt 3)]
  = Ok "article:intro:page:3"
  /\ Decorators.format "article:{slug}" [("page", PInt 3)] = Raise (KeyError "slug")
  /\ Decorators.format "article:{}" [("slug", PStr "intro")] = Raise IndexError.
Proof. repeat split; vm_compute; reflexivity. Qed.

Example dumps_then_loads :
  (text ← Json.dumps (PDict [("tags", PList [PStr "a b"; PNone; PBool true; PInt (-20)])]);
   Json.loads text)
  = Ok (PDict [("tags", PList [PStr "a b"; PNone; PBool true; PInt (-20)])]).
Proof. vm_compute. reflexivity. Qed.

Example loads_rejects_and_declines :
  Json.loads "[1, 2,3 , [] , {}, 01]" = Raise JSONDecodeError
  /\ Json.loads "1.5" = Raise NotModelled
  /\ Json.loads " [ ]  x" = Raise JSONDecodeError
  /\ Json.loads "{ }" = Ok (PDict []).
Proof. repeat split; vm_compute; reflexivity. Qed.

Example glob_patterns :
  Redis.glob "article:*" "article:detail:intro" = true
  /\ Redis.glob "article:*" "articles:list:all" = false
  /\ Redis.glob "a*:x?" "abc:xy" = true
  /\ Redis.glob "a*:x?" "abc:xyz" = false
  /\ map (Redis.glob "tag:[12]") ["tag:1"; "tag:2"; "tag:3"; "tag:[12]"]
     = [true; true; false; false]
  /\ map (Redis.glob "tag:[^a-y]") ["tag:z"; "tag:b"; "tag:"] = [true; false; false]
  /\ map (Redis.glob (String "a" (String Redis.backslash "")))
       [String "a" (String Redis.backslash ""); "ab"] = [true; false]
  /\ map (fun pattern => Redis.glob pattern "") ["*"; "**"; ""] = [true; false; true].
Proof. repeat split; reflexivity. Qed.

Example quota_resolution :
  map (fun p => RateLimitMiddleware.limit
                  (RateLimitMiddleware._get_rate_limit_config RateLimitMiddleware.__init__
                     (Examples.request_to p)))
      [ "/api/users/login"; "/api/articles"; "/api/articles/intro";
        "/api/articles/intro/comments"; "/api/tags" ]
  = [5; 100; 60; 20; 0].
Proof. vm_compute. reflexivity. Qed.

End WorkedExamples.

(** ** Text *)

Section Text.

Lemma append_cons (a : ascii) (s t : string) : String a s +:+ t = String a (s +:+ t).
Proof. reflexivity. Qed.

Lemma append_length (s t : string) :
  String.length (s +:+ t) = (String.length s + String.length t)%nat.
Proof.
  induction s as [|a s IH]; [reflexivity|].
  rewrite append_cons. cbn. now rewrite IH.
Qed.

Lemma append_nil_r (s : string) : s +:+ "" = s.
Proof.
  induction s as [|a s IH]; [reflexivity|].
  rewrite append_cons. now rewrite IH.
Qed.

Lemma append_assoc (s t u : string) : (s +:+ t) +:+ u = s +:+ (t +:+ u).
Proof.
  induction s as [|a s IH]; [reflexivity|].
  rewrite !append_cons. now rewrite IH.
Qed.

(** Appending the same tail is injective. *)
Lemma append_inv_tail (t s1 s2 : string) : s1 +:+ t = s2 +:+ t -> s1 = s2.
Proof.
  revert s2. induction s1 as [|a s1 IH]; intros [|b s2] H.
  - reflexivity.
  - apply (f_equal String.length) in H. rewrite !append_length in H. cbn in H. lia.
  - apply (f_equal String.length) in H. rewrite !append_length in H. cbn in H. lia.
  - rewrite !append_cons in H. injection H as -> H. f_equal. now apply IH.
Qed.

Lemma append_inv_head (h s1 s2 : string) : h +:+ s1 = h +:+ s2 -> s1 = s2.
Proof. apply String.app_inj. Qed.

End Text.

(** ** Floats *)

Section FloatFacts.

Import Float.

Lemma nearest_even_comp (x y : Q) : (x == y)%Q -> nearest_even x = nearest_even y.
Proof.
  intros H. unfold nearest_even.
  rewrite <- (Qfloor_comp _ _ H).
  assert (((x - inject_Z (Qfloor x)) * 2 ?= 1) = ((y - inject_Z (Qfloor x)) * 2 ?= 1))%Q as ->;
    [|reflexivity].
  apply Qcompare_comp; [lra|reflexivity].
Qed.

Lemma nearest_even_near (x : Q) :
  (inject_Z (nearest_even x) - (1 # 2) <= x
   /\ x <= inject_Z (nearest_even x) + (1 # 2))%Q.
Proof.
  unfold nearest_even.
  pose proof (Qfloor_le x) as Hlo.
  pose proof (Qlt_floor x) as Hhi.
  rewrite inject_Z_plus in Hhi.
  change (inject_Z 1) with 1%Q in Hhi.
  destruct (Qcompare ((x - inject_Z (Qfloor x)) * 2) 1) eqn:Hc.
  - apply Qeq_alt in Hc.
    destruct (Z.even (Qfloor x)); rewrite ?inject_Z_plus;
      change (inject_Z 1) with 1%Q; split; lra.
  - apply Qlt_alt in Hc. split; lra.
  - apply Qgt_alt in Hc. rewrite inject_Z_plus.
    change (inject_Z 1) with 1%Q. split; lra.
Qed.

Lemma nearest_even_int (n : Z) : nearest_even (inject_Z n) = n.
Proof.
  unfold nearest_even. rewrite Qfloor_Z.
  assert (((inject_Z n - inject_Z n) * 2 ?= 1)%Q = Lt) as ->; [|reflexivity].
  apply (proj1 (Qlt_alt _ _)). lra.
Qed.

Lemma nearest_even_mono (x y : Q) : (x <= y)%Q -> nearest_even x <= nearest_even y.
Proof.
  intros Hxy.
  destruct (nearest_even_near x) as [Hx1 Hx2].
  destruct (nearest_even_near y) as [Hy1 Hy2].
  destruct (Z_lt_le_dec (nearest_even y) (nearest_even x)) as [Hlt|]; [exfalso|assumption].
  assert (nearest_even y + 1 <= nearest_even x) as Hle by lia.
  rewrite Zle_Qle, inject_Z_plus in Hle. change (inject_Z 1) with 1%Q in Hle.
  assert (x == y)%Q as Heq by lra.
  rewrite (nearest_even_comp _ _ Heq) in Hlt. lia.
Qed.

Lemma two_neq_0 : ~ (2 == 0)%Q.
Proof. discriminate. Qed.

Lemma pow2_pos (e : Z) : (0 < 2 ^ e)%Q.
Proof. apply Qpower_0_lt. reflexivity. Qed.

Lemma pow2_succ (e : Z) : (2 ^ (e + 1) == 2 ^ e * 2)%Q.
Proof. rewrite Qpower_plus by apply two_neq_0. reflexivity. Qed.

Lemma pow2_le (a b : Z) : a <= b -> (2 ^ a <= 2 ^ b)%Q.
Proof. intros H. apply Qpower_le_compat_l; [exact H|discriminate]. Qed.

Lemma pow2_lt (a b : Z) : a < b -> (2 ^ a < 2 ^ b)%Q.
Proof. intros H. apply Qpower_lt_compat_l; [exact H|reflexivity]. Qed.

Lemma pow2_inject (e : Z) : 0 <= e -> (2 ^ e == inject_Z (2 ^ e))%Q.
Proof. intros H. rewrite Zpower_Qpower by exact H. reflexivity. Qed.

(** [ilog2 x] is the binary order of magnitude of a positive [x]. *)
Lemma ilog2_spec (x : Q) :
  (0 < x)%Q -> (2 ^ ilog2 x <= x /\ x < 2 ^ (ilog2 x + 1))%Q.
Proof.
  intros Hx. destruct x as [n d].
  assert (0 < n) as Hn.
  { unfold Qlt in Hx. cbn in Hx. lia. }
  unfold ilog2. cbn [Qnum Qden].
  set (a := Z.log2 n). set (b := Z.log2 (Z.pos d)).
  destruct (Z.log2_spec n Hn) as [Ha1 Ha2]. fold a in Ha1, Ha2.
  destruct (Z.log2_spec (Z.pos d) (Pos2Z.is_pos d)) as [Hb1 Hb2]. fold b in Hb1, Hb2.
  assert (0 <= a) as Ha0 by apply Z.log2_nonneg.
  assert (0 <= b) as Hb0 by apply Z.log2_nonneg.
  assert (n # d == inject_Z n / inject_Z (Z.pos d))%Q as Hxq.
  { rewrite Qmake_Qdiv. reflexivity. }
  assert (0 < inject_Z (Z.pos d))%Q as Hdq by reflexivity.
  assert (2 ^ (a - b - 1) < n # d)%Q as Hlow.
  { rewrite Hxq. apply Qlt_shift_div_l; [exact Hdq|].
    assert (2 ^ (a - b - 1) * 2 ^ (b + 1) == 2 ^ a)%Q as E.
    { rewrite <- Qpower_plus by apply two_neq_0. now replace (a - b - 1 + (b + 1)) with a by lia. }
    apply Qlt_le_trans with (2 ^ (a - b - 1) * 2 ^ (b + 1))%Q.
    - apply Qmult_lt_l; [apply pow2_pos|].
      rewrite pow2_inject by lia. rewrite <- Zlt_Qlt. exact Hb2.
    - rewrite E, pow2_inject by lia. rewrite <- Zle_Qle. exact Ha1. }
  assert (n # d < 2 ^ (a - b + 1))%Q as Hhigh.
  { rewrite Hxq. apply Qlt_shift_div_r; [exact Hdq|].
    assert (2 ^ (a - b + 1) * 2 ^ b == 2 ^ (a + 1))%Q as E.
    { rewrite <- Qpower_plus by apply two_neq_0. now replace (a - b + 1 + b) with (a + 1) by lia. }
    apply Qlt_le_trans with (2 ^ (a + 1))%Q.
    - rewrite pow2_inject by lia. rewrite <- Zlt_Qlt. exact Ha2.
    - rewrite <- E. apply Qmult_le_l; [apply pow2_pos|].
      rewrite pow2_inject by lia. rewrite <- Zle_Qle. exact Hb1. }
  destruct (Qle_bool (2 ^ (a - b)) (n # d)) eqn:Hc.
  - apply Qle_bool_iff in Hc. split; assumption.
  - split.
    + apply Qlt_le_weak. exact Hlow.
    + replace (a - b - 1 + 1) with (a - b) by lia.
      apply Qnot_le_lt. intros Hle. apply Qle_bool_iff in Hle. congruence.
Qed.

Lemma ilog2_unique (x : Q) (l : Z) :
  (2 ^ l <= x)%Q -> (x < 2 ^ (l + 1))%Q -> ilog2 x = l.
Proof.
  intros H1 H2.
  assert (0 < x)%Q as Hx by (eapply Qlt_le_trans; [apply (pow2_pos l)|exact H1]).
  destruct (ilog2_spec x Hx) as [H3 H4].
  assert (ilog2 x < l + 1).
  { apply (Qpower_lt_compat_l_inv 2); [|reflexivity]. eapply Qle_lt_trans; eassumption. }
  assert (l < ilog2 x + 1).
  { apply (Qpower_lt_compat_l_inv 2); [|reflexivity]. eapply Qle_lt_trans; eassumption. }
  lia.
Qed.

Lemma ilog2_mono (x y : Q) : (0 < x)%Q -> (x <= y)%Q -> ilog2 x <= ilog2 y.
Proof.
  intros Hx Hxy.
  assert (0 < y)%Q as Hy by (eapply Qlt_le_trans; eassumption).
  destruct (ilog2_spec x Hx) as [H1 _]. destruct (ilog2_spec y Hy) as [_ H2].
  assert (ilog2 x < ilog2 y + 1); [|lia].
  apply (Qpower_lt_compat_l_inv 2); [|reflexivity].
  eapply Qle_lt_trans; [exact H1|]. eapply Qle_lt_trans; eassumption.
Qed.

Lemma ilog2_comp (x y : Q) : (0 < x)%Q -> (x == y)%Q -> ilog2 x = ilog2 y.
Proof.
  intros Hx Hxy. symmetry.
  destruct (ilog2_spec x Hx) as [H1 H2].
  apply ilog2_unique; rewrite <- Hxy; assumption.
Qed.

Lemma round_pos_comp (x y : Q) : (0 < x)%Q -> (x == y)%Q -> (round_pos x == round_pos y)%Q.
Proof.
  intros Hx Hxy. unfold round_pos, exponent.
  rewrite <- (ilog2_comp x y Hx Hxy).
  rewrite (nearest_even_comp (x / _) (y / 2 ^ Z.max (ilog2 x - 52) (-1074))); [reflexivity|].
  unfold Qdiv. apply Qmult_comp; [exact Hxy|reflexivity].
Qed.

Lemma scaled_below (x : Q) : (0 < x)%Q -> (x / 2 ^ exponent x < 2 ^ 53)%Q.
Proof.
  intros Hx. destruct (ilog2_spec x Hx) as [_ H].
  apply Qlt_shift_div_r; [apply pow2_pos|].
  rewrite <- Qpower_plus by apply two_neq_0.
  eapply Qlt_le_trans; [exact H|]. apply pow2_le. unfold exponent. lia.
Qed.

Lemma scaled_above (x : Q) :
  (0 < x)%Q -> -1074 < exponent x -> (2 ^ 52 <= x / 2 ^ exponent x)%Q.
Proof.
  intros Hx He. destruct (ilog2_spec x Hx) as [H _].
  apply Qle_shift_div_l; [apply pow2_pos|].
  rewrite <- Qpower_plus by apply two_neq_0.
  eapply Qle_trans; [|exact H]. apply pow2_le. unfold exponent in *. lia.
Qed.

Lemma round_pos_nonneg (x : Q) : (0 < x)%Q -> (0 <= round_pos x)%Q.
Proof.
  intros Hx. unfold round_pos.
  apply Qmult_le_0_compat; [|apply Qlt_le_weak, pow2_pos].
  change 0%Q with (inject_Z 0). rewrite <- Zle_Qle.
  rewrite <- (nearest_even_int 0). apply nearest_even_mono.
  change (inject_Z 0) with 0%Q.
  apply Qle_shift_div_l; [apply pow2_pos|]. lra.
Qed.

Lemma round_pos_mono (x y : Q) :
  (0 < x)%Q -> (x <= y)%Q -> (round_pos x <= round_pos y)%Q.
Proof.
  intros Hx Hxy.
  assert (0 < y)%Q as Hy by (eapply Qlt_le_trans; eassumption).
  assert (exponent x <= exponent y) as He.
  { unfold exponent. pose proof (ilog2_mono x y Hx Hxy). lia. }
  destruct (Z.eq_dec (exponent x) (exponent y)) as [Heq|Hne].
  - unfold round_pos. rewrite Heq.
    apply Qmult_le_compat_r; [|apply Qlt_le_weak, pow2_pos].
    rewrite <- Zle_Qle. apply nearest_even_mono.
    apply Qmult_le_compat_r; [exact Hxy|].
    apply Qlt_le_weak, Qinv_lt_0_compat, pow2_pos.
  - assert (-1074 < exponent y) as Hnorm by (unfold exponent in *; lia).
    apply Qle_trans with (2 ^ 53 * 2 ^ exponent x)%Q.
    + unfold round_pos.
      apply Qmult_le_compat_r; [|apply Qlt_le_weak, pow2_pos].
      rewrite (pow2_inject 53) by lia. rewrite <- Zle_Qle.
      rewrite <- (nearest_even_int (2 ^ 53)). apply nearest_even_mono.
      rewrite <- (pow2_inject 53) by lia.
      apply Qlt_le_weak, scaled_below, Hx.
    + apply Qle_trans with (2 ^ 52 * 2 ^ exponent y)%Q.
      * rewrite <- !Qpower_plus by apply two_neq_0. apply pow2_le. lia.
      * unfold round_pos.
        apply Qmult_le_compat_r; [|apply Qlt_le_weak, pow2_pos].
        rewrite (pow2_inject 52) by lia. rewrite <- Zle_Qle.
        rewrite <- (nearest_even_int (2 ^ 52)). apply nearest_even_mono.
        rewrite <- (pow2_inject 52) by lia.
        now apply scaled_above.
Qed.

Lemma Qnum_sign (x : Q) :
  match Qnum x with
  | Z0 => (x == 0)%Q
  | Zpos _ => (0 < x)%Q
  | Zneg _ => (x < 0)%Q
  end.
Proof. destruct x as [[|p|p] d]; reflexivity. Qed.

Lemma round_zero (x : Q) : (x == 0)%Q -> round x = 0%Q.
Proof.
  intros H. unfold round. pose proof (Qnum_sign x) as Hs.
  destruct (Qnum x); [reflexivity| |]; rewrite H in Hs; discriminate Hs.
Qed.

Lemma round_of_pos (x : Q) : (0 < x)%Q -> round x = round_pos x.
Proof.
  intros H. unfold round. pose proof (Qnum_sign x) as Hs.
  destruct (Qnum x); [rewrite Hs in H; discriminate H|reflexivity|].
  exfalso. apply (Qlt_irrefl 0). eapply Qlt_trans; eassumption.
Qed.

Lemma round_of_neg (x : Q) : (x < 0)%Q -> round x = (- round_pos (- x))%Q.
Proof.
  intros H. unfold round. pose proof (Qnum_sign x) as Hs.
  destruct (Qnum x); [rewrite Hs in H; discriminate H| |reflexivity].
  exfalso. apply (Qlt_irrefl 0). eapply Qlt_trans; eassumption.
Qed.

(** Rounding is monotone. *)
Lemma round_mono (x y : Q) : (x <= y)%Q -> (round x <= round y)%Q.
Proof.
  intros Hxy.
  destruct (Q_dec x 0) as [[Hx|Hx]|Hx], (Q_dec y 0) as [[Hy|Hy]|Hy].
  - rewrite (round_of_neg x Hx), (round_of_neg y Hy).
    apply Qopp_le_compat. apply round_pos_mono; lra.
  - rewrite (round_of_neg x Hx), (round_of_pos y Hy).
    pose proof (round_pos_nonneg y Hy). pose proof (round_pos_nonneg (- x)). lra.
  - rewrite (round_of_neg x Hx), (round_zero y Hy).
    pose proof (round_pos_nonneg (- x)). lra.
  - lra.
  - rewrite (round_of_pos x Hx), (round_of_pos y Hy). now apply round_pos_mono.
  - lra.
  - rewrite (round_zero x Hx), (round_of_neg y Hy). lra.
  - rewrite (round_zero x Hx), (round_of_pos y Hy). now apply round_pos_nonneg.
  - rewrite (round_zero x Hx), (round_zero y Hy). lra.
Qed.

Lemma round_comp (x y : Q) : (x == y)%Q -> (round x == round y)%Q.
Proof.
  intros H. apply Qle_antisym; apply round_mono; rewrite H; apply Qle_refl.
Qed.

(** Integers of up to 53 bits are doubles. *)
Lemma round_pos_int (n : Z) :
  0 < n <= 2 ^ 53 -> (round_pos (inject_Z n) == inject_Z n)%Q.
Proof.
  intros [Hn Hmax].
  assert (0 < inject_Z n)%Q as Hq by (change 0%Q with (inject_Z 0); now rewrite <- Zlt_Qlt).
  destruct (Z.log2_spec n Hn) as [Hl1 Hl2].
  assert (0 <= Z.log2 n) as Hl0 by apply Z.log2_nonneg.
  assert (ilog2 (inject_Z n) = Z.log2 n) as Hlog.
  { apply ilog2_unique; rewrite pow2_inject by lia.
    - now rewrite <- Zle_Qle.
    - now rewrite <- Zlt_Qlt. }
  assert (Z.log2 n <= 53) as Hl53.
  { destruct (Z_le_gt_dec (Z.log2 n) 53); [assumption|].
    assert (2 ^ 54 <= 2 ^ Z.log2 n) by (apply Z.pow_le_mono_r; lia). lia. }
  assert (exponent (inject_Z n) = Z.log2 n - 52) as He by (unfold exponent; lia).
  unfold round_pos. rewrite He.
  set (e := Z.log2 n - 52).
  assert (exists k, inject_Z n / 2 ^ e == inject_Z k)%Q as [k Hk].
  { destruct (Z_le_gt_dec e 0) as [Hneg|Hpos].
    - exists (n * 2 ^ (- e)).
      rewrite inject_Z_mult, <- pow2_inject by lia.
      rewrite Qpower_opp. reflexivity.
    - assert (Z.log2 n = 53) as H53 by lia.
      assert (n = 2 ^ 53) as -> by (rewrite H53 in Hl1; lia).
      exists (2 ^ 52). subst e. rewrite H53. reflexivity. }
  rewrite (nearest_even_comp _ _ Hk), nearest_even_int, <- Hk.
  field. apply Qpower_not_0, two_neq_0.
Qed.

Lemma round_int (n : Z) : Z.abs n <= 2 ^ 53 -> (round (inject_Z n) == inject_Z n)%Q.
Proof.
  intros Hn. destruct n as [|p|p].
  - reflexivity.
  - rewrite round_of_pos by reflexivity. apply round_pos_int. lia.
  - rewrite round_of_neg by reflexivity.
    change (- inject_Z (Z.neg p))%Q with (inject_Z (Z.pos p)).
    rewrite round_pos_int by lia. reflexivity.
Qed.

Lemma round_nonneg (x : Q) : (0 <= x)%Q -> (0 <= round x)%Q.
Proof. intros H. apply (round_mono 0 x H). Qed.

(** Rounding moves a positive number by at most half a unit in the
    last place. *)
Lemma round_pos_error (x : Q) :
  (0 < x)%Q ->
  (round_pos x - x <= 2 ^ exponent x / 2 /\ x - round_pos x <= 2 ^ exponent x / 2)%Q.
Proof.
  intros Hx. unfold round_pos.
  pose proof (pow2_pos (exponent x)) as Hp.
  destruct (nearest_even_near (x / 2 ^ exponent x)) as [H1 H2].
  set (k := inject_Z (nearest_even (x / 2 ^ exponent x))) in *.
  assert (x == x / 2 ^ exponent x * 2 ^ exponent x)%Q as Hxe.
  { field. intros H. rewrite H in Hp. discriminate Hp. }
  set (y := (x / 2 ^ exponent x)%Q) in *.
  set (u := (2 ^ exponent x)%Q) in *.
  assert ((k - y) * u <= (1 # 2) * u)%Q as Ha
    by (apply Qmult_le_compat_r; [lra|apply Qlt_le_weak, Hp]).
  assert ((y - k) * u <= (1 # 2) * u)%Q as Hb
    by (apply Qmult_le_compat_r; [lra|apply Qlt_le_weak, Hp]).
  assert (k * u - x == (k - y) * u)%Q as E1 by (rewrite Hxe at 1; ring).
  assert (x - k * u == (y - k) * u)%Q as E2 by (rewrite Hxe at 1; ring).
  assert ((1 # 2) * u == u / 2)%Q as E3 by field.
  split.
  - rewrite E1, <- E3. exact Ha.
  - rewrite E2, <- E3. exact Hb.
Qed.

Lemma exponent_below (x : Q) (l : Z) :
  (0 < x)%Q -> (x < 2 ^ (l + 1))%Q -> -1074 <= l - 52 -> exponent x <= l - 52.
Proof.
  intros Hx Hlt Hl. destruct (ilog2_spec x Hx) as [H1 _].
  assert (ilog2 x < l + 1).
  { apply (Qpower_lt_compat_l_inv 2); [|reflexivity]. eapply Qle_lt_trans; eassumption. }
  unfold exponent. lia.
Qed.

(** A number of [0, 2^(l+1)) is rounded with an error of at most
    [2^(l-53)]. *)
Lemma round_error (x : Q) (l : Z) :
  (0 <= x)%Q -> (x < 2 ^ (l + 1))%Q -> -1074 <= l - 52 ->
  (round x - x <= 2 ^ (l - 53) /\ x - round x <= 2 ^ (l - 53))%Q.
Proof.
  intros Hx Hlt Hl.
  pose proof (pow2_pos (l - 53)) as Hp.
  destruct (Qle_lt_or_eq _ _ Hx) as [Hpos|Hzero].
  - rewrite (round_of_pos x Hpos).
    destruct (round_pos_error x Hpos) as [H1 H2].
    pose proof (exponent_below x l Hpos Hlt Hl) as He.
    assert (2 ^ exponent x / 2 <= 2 ^ (l - 53))%Q as Hu.
    { apply Qle_shift_div_r; [reflexivity|].
      rewrite <- pow2_succ. apply pow2_le. lia. }
    split; lra.
  - rewrite (round_zero x) by (symmetry; exact Hzero). split; lra.
Qed.

End FloatFacts.

(** ** Cache keys *)

Section CacheKeysFacts.

Import CacheKeys.

(** The key of [articles_list] laid out: the fixed prefix, the segment
    of the chosen filter, then page and limit. *)
Lemma articles_list_shape page limit tag author favorited :
  articles_list page limit tag author favorited
  = "articles:list:" +:+ filter_segment (chosen_filter tag author favorited)
      +:+ ":page:" +:+ Py.str_int page +:+ ":limit:" +:+ Py.str_int limit.
Proof.
  unfold articles_list, chosen_filter.
  destruct (Py.truthy tag) as [t|];
    [|destruct (Py.truthy author) as [a|];
      [|destruct (Py.truthy favorited) as [f|]]];
    reflexivity.
Qed.

Lemma filter_segment_inj f g : filter_segment f = filter_segment g -> f = g.
Proof.
  destruct f as [v|v|v|], g as [u|u|u|]; cbn; intros H;
    try discriminate H; try reflexivity.
  - f_equal. now apply (append_inv_head "tag:").
  - f_equal. now apply (append_inv_head "author:").
  - f_equal. now apply (append_inv_head "favorited:").
Qed.

(** C5 (as the code has it): for every username the three profile key
    builders return [user:profile:{username}],
    [user:profile:{username}:follower_count] and
    [user:profile:{username}:following_count]; none of them ever returns
    the shorter [profile:...] form. *)
Theorem profile_keys_have_user_prefix (username : string) :
  CacheKeys.user_profile username = Py.join ":" ["user"; "profile"; username]
  /\ CacheKeys.user_follower_count username
     = Py.join ":" ["user"; "profile"; username; "follower_count"]
  /\ CacheKeys.user_following_count username
     = Py.join ":" ["user"; "profile"; username; "following_count"]
  /\ CacheKeys.user_profile username <> "profile:" +:+ username
  /\ CacheKeys.user_follower_count username <> "profile:" +:+ username +:+ ":follower_count"
  /\ CacheKeys.user_following_count username <> "profile:" +:+ username +:+ ":following_count".
Proof.
  unfold user_profile, user_follower_count, user_following_count.
  repeat split; try reflexivity; cbn; intros H; discriminate H.
Qed.

(** C5 as stated fails: for the username alice the builder does not
    return [profile:alice]. *)
Lemma profile_key_is_not_bare_profile :
  CacheKeys.user_profile "alice" = "user:profile:alice"
  /\ CacheKeys.user_profile "alice" <> "profile:alice"
  /\ CacheKeys.user_follower_count "alice" <> "profile:alice:follower_count"
  /\ CacheKeys.user_following_count "alice" <> "profile:alice:following_count".
Proof. repeat split; try reflexivity; intros H; discriminate H. Qed.

(** C8: the articles-list key is a function of its parameters (equal
    parameters give the same text), its filter segment is the one chosen
    by the precedence tag, author, favorited, none, and for the same page
    and limit two calls give the same key exactly when they choose the
    same filter: calls that choose different filters never collide. *)
Theorem articles_list_deterministic_and_collision_free
    (page limit : Z) (tag author favorited tag' author' favorited' : option string) :
  ((tag, author, favorited) = (tag', author', favorited') ->
     CacheKeys.articles_list page limit tag author favorited
     = CacheKeys.articles_list page limit tag' author' favorited')
  /\ CacheKeys.articles_list page limit tag author favorited
     = Py.join ":" [ "articles:list";
                     CacheKeys.filter_segment (CacheKeys.chosen_filter tag author favorited);
                     "page:" +:+ Py.str_int page;
                     "limit:" +:+ Py.str_int limit ]
  /\ (CacheKeys.articles_list page limit tag author favorited
      = CacheKeys.articles_list page limit tag' author' favorited'
      <-> CacheKeys.chosen_filter tag author favorited
          = CacheKeys.chosen_filter tag' author' favorited').
Proof.
  split; [|split].
  - intros [= -> -> ->]. reflexivity.
  - rewrite articles_list_shape. cbn. now rewrite !append_assoc.
  - rewrite !articles_list_shape. split.
    + intros H. apply append_inv_head in H.
      set (tail := ":page:" +:+ Py.str_int page +:+ ":limit:" +:+ Py.str_int limit) in H.
      apply append_inv_tail in H. now apply filter_segment_inj.
    + intros ->. reflexivity.
Qed.

End CacheKeysFacts.

(** ** Cache monitor *)

Section CacheMonitorFacts.

Import CacheMonitor.

Lemma fold_record_hits (events : list event) (cls : t) :
  hits (fold_left record events cls) = hits cls + count_hits events.
Proof.
  revert cls. induction events as [|e events IH]; intros cls.
  - cbn. unfold count_hits. cbn. lia.
  - cbn [fold_left]. rewrite IH. unfold count_hits.
    destruct e; cbn [record record_hit record_miss hits List.filter length]; lia.
Qed.

Lemma fold_record_misses (events : list event) (cls : t) :
  misses (fold_left record events cls) = misses cls + count_misses events.
Proof.
  revert cls. induction events as [|e events IH]; intros cls.
  - cbn. unfold count_misses. cbn. lia.
  - cbn [fold_left]. rewrite IH. unfold count_misses.
    destruct e; cbn [record record_hit record_miss misses List.filter length]; lia.
Qed.

Lemma count_hits_nonneg events : 0 <= count_hits events.
Proof. unfold count_hits. lia. Qed.

Lemma count_misses_nonneg events : 0 <= count_misses events.
Proof. unfold count_misses. lia. Qed.

(** Rounding moves a number by at most one half. *)
Lemma round_half_even_near (x : Q) :
  (inject_Z (round_half_even x) - (1 # 2) <= x
   /\ x <= inject_Z (round_half_even x) + (1 # 2))%Q.
Proof.
  unfold round_half_even.
  pose proof (Qfloor_le x) as Hlo.
  pose proof (Qlt_floor x) as Hhi.
  rewrite inject_Z_plus in Hhi.
  change (inject_Z 1) with 1%Q in Hhi.
  destruct (Qcompare ((x - inject_Z (Qfloor x)) * 2) 1) eqn:Hc.
  - apply Qeq_alt in Hc.
    destruct (Z.even (Qfloor x)); rewrite ?inject_Z_plus;
      change (inject_Z 1) with 1%Q; split; lra.
  - apply Qlt_alt in Hc. split; lra.
  - apply Qgt_alt in Hc. rewrite inject_Z_plus.
    change (inject_Z 1) with 1%Q. split; lra.
Qed.

(** The fractional part is always written with two digits. *)
Lemma two_digits_length (n : Z) :
  0 <= n < 100 -> String.length (two_digits n) = 2%nat.
Proof.
  intros Hn.
  assert (exists i : nat, n = Z.of_nat i /\ (i < 100)%nat) as (i & -> & Hi).
  { exists (Z.to_nat n). lia. }
  clear Hn.
  do 100 (destruct i as [|i]; [vm_compute; reflexivity|]).
  lia.
Qed.

(** What the monitor computes before it formats the rate: the float
    [hits / total], then its product by 100 as a float.  For counters
    that are not negative the product lies in [0, 100], and is the exact
    percentage up to [2^-46]. *)
Lemma percent_of_counts (h m : Z) :
  0 <= h -> 0 <= m -> 0 < h + m ->
  (0 <= Float.mul (Float.round (inject_Z h / inject_Z (h + m))) 100
   /\ Float.mul (Float.round (inject_Z h / inject_Z (h + m))) 100 <= 100
   /\ Float.mul (Float.round (inject_Z h / inject_Z (h + m))) 100
      - inject_Z h / inject_Z (h + m) * 100 <= 1 # 1000000000000
   /\ inject_Z h / inject_Z (h + m) * 100
      - Float.mul (Float.round (inject_Z h / inject_Z (h + m))) 100 <= 1 # 1000000000000)%Q.
Proof.
  intros Hh Hm Hpos.
  set (x := (inject_Z h / inject_Z (h + m))%Q).
  assert (0 <= x /\ x <= 1)%Q as [Hx0 Hx1].
  { subst x.
    assert (0 < inject_Z (h + m))%Q as Hq.
    { change 0%Q with (inject_Z 0). now rewrite <- Zlt_Qlt. }
    assert (0 <= inject_Z h)%Q as Hhq.
    { change 0%Q with (inject_Z 0). now rewrite <- Zle_Qle. }
    assert (inject_Z h <= inject_Z (h + m))%Q as Hle by (rewrite <- Zle_Qle; lia).
    split.
    - apply Qle_shift_div_l; [exact Hq|]. lra.
    - apply Qle_shift_div_r; [exact Hq|]. lra. }
  set (rate := Float.round x).
  assert (0 <= rate /\ rate <= 1)%Q as [Hr0 Hr1].
  { subst rate. split.
    - now apply round_nonneg.
    - rewrite <- (round_int 1) by (vm_compute; discriminate).
      now apply round_mono. }
  destruct (round_error x 0 Hx0) as [Hex1 Hex2]; [|lia|].
  { assert (2 ^ (0 + 1) == 2)%Q as -> by reflexivity. lra. }
  fold rate in Hex1, Hex2.
  assert (2 ^ (0 - 53) == 1 # 9007199254740992)%Q as E1 by reflexivity.
  rewrite E1 in Hex1, Hex2.
  unfold Float.mul.
  destruct (round_error (rate * 100) 6) as [Hey1 Hey2]; [lra| |lia|].
  { assert (2 ^ (6 + 1) == 128)%Q as -> by reflexivity. lra. }
  assert (2 ^ (6 - 53) == 1 # 140737488355328)%Q as E2 by reflexivity.
  rewrite E2 in Hey1, Hey2.
  split; [|split; [|split]].
  - apply round_nonneg. lra.
  - apply Qle_trans with (Float.round (inject_Z 100)).
    + apply round_mono. change (inject_Z 100) with 100%Q. lra.
    + rewrite round_int by (vm_compute; discriminate). apply Qle_refl.
  - lra.
  - lra.
Qed.

(** C4 (as the code has it): after any interleaving of recorded hits and
    misses since the class was loaded, the snapshot reports the number of
    hits, the number of misses and their sum; with no sample the hit rate
    is the text 0.00 followed by a percent sign, and otherwise it is the
    float [hits / total], multiplied by 100 as a float and written with
    the two fractional digits nearest to that double, which is the exact
    percentage up to [10^-12]. *)
Theorem monitor_snapshot_after_events (events : list CacheMonitor.event) :
  CacheMonitor.stat_hits (CacheMonitor.get_stats (CacheMonitor.after events))
  = CacheMonitor.count_hits events
  /\ CacheMonitor.stat_misses (CacheMonitor.get_stats (CacheMonitor.after events))
     = CacheMonitor.count_misses events
  /\ CacheMonitor.stat_total (CacheMonitor.get_stats (CacheMonitor.after events))
     = CacheMonitor.count_hits events + CacheMonitor.count_misses events
  /\ (if CacheMonitor.count_hits events + CacheMonitor.count_misses events =? 0
      then CacheMonitor.stat_hit_rate (CacheMonitor.get_stats (CacheMonitor.after events))
           = "0.00%"
      else exists (percent : Q) (k : Z),
          percent
          = Float.mul
              (Float.round
                 (inject_Z (CacheMonitor.count_hits events)
                  / inject_Z (CacheMonitor.count_hits events
                              + CacheMonitor.count_misses events)))
              100
          /\ k = CacheMonitor.round_half_even (percent * 100)
          /\ CacheMonitor.stat_hit_rate (CacheMonitor.get_stats (CacheMonitor.after events))
             = Py.str_int (k / 100) +:+ "." +:+ CacheMonitor.two_digits (k mod 100) +:+ "%"
          /\ String.length (CacheMonitor.two_digits (k mod 100)) = 2%nat
          /\ (inject_Z k - (1 # 2) <= percent * 100)%Q
          /\ (percent * 100 <= inject_Z k + (1 # 2))%Q
          /\ (percent
              - inject_Z (CacheMonitor.count_hits events)
                / inject_Z (CacheMonitor.count_hits events
                            + CacheMonitor.count_misses events) * 100
              <= 1 # 1000000000000)%Q
          /\ (inject_Z (CacheMonitor.count_hits events)
              / inject_Z (CacheMonitor.count_hits events
                          + CacheMonitor.count_misses events) * 100
              - percent
              <= 1 # 1000000000000)%Q).
Proof.
  unfold get_stats, after.
  cbn [stat_hits stat_misses stat_total stat_hit_rate].
  rewrite fold_record_hits, fold_record_misses. cbn [initial hits misses].
  rewrite !Z.add_0_l.
  pose proof (count_hits_nonneg events) as Hh.
  pose proof (count_misses_nonneg events) as Hm.
  repeat split.
  destruct (count_hits events + count_misses events =? 0) eqn:Hz.
  - apply Z.eqb_eq in Hz. rewrite Hz. reflexivity.
  - apply Z.eqb_neq in Hz.
    assert ((0 <? count_hits events + count_misses events) = true) as ->
      by (apply Z.ltb_lt; lia).
    destruct (percent_of_counts (count_hits events) (count_misses events))
      as (_ & _ & He1 & He2); [assumption|assumption|lia|].
    eexists _, _. split; [reflexivity|]. split; [reflexivity|].
    split; [reflexivity|]. split.
    + apply two_digits_length. apply Z.mod_pos_bound. lia.
    + split; [apply round_half_even_near|]. split; [apply round_half_even_near|].
      split; assumption.
Qed.

(** The rate of 23 hits in 160 samples, 14.375 percent, is written from
    the double below it. *)
Example hit_rate_of_23_in_160 :
  CacheMonitor.stat_hit_rate
    (CacheMonitor.get_stats {| CacheMonitor.hits := 23; CacheMonitor.misses := 137 |})
  = "14.37%".
Proof. vm_compute. reflexivity. Qed.

(** C4 as stated fails: with no sample the hit rate is not the text 0
    followed by a percent sign. *)
Lemma empty_monitor_hit_rate_has_two_decimals :
  CacheMonitor.stat_total (CacheMonitor.get_stats (CacheMonitor.after [])) = 0
  /\ CacheMonitor.stat_hit_rate (CacheMonitor.get_stats (CacheMonitor.after [])) = "0.00%"
  /\ CacheMonitor.stat_hit_rate (CacheMonitor.get_stats (CacheMonitor.after [])) <> "0%".
Proof.
  split; [reflexivity|]. split; [vm_compute; reflexivity|].
  vm_compute. intros H. discriminate H.
Qed.

End CacheMonitorFacts.

(** ** Numbers as text *)

Section NumberText.

Lemma rev_app_rev_app (s a b : string) :
  String.rev_app (String.rev_app s a) b = String.rev_app a (s +:+ b).
Proof.
  revert a b. induction s as [|c s IH]; intros a b; [reflexivity|].
  cbn [String.rev_app]. rewrite IH. reflexivity.
Qed.

Lemma rev_involutive (s : string) : String.rev (String.rev s) = s.
Proof.
  unfold String.rev. rewrite rev_app_rev_app.
  cbn [String.rev_app]. apply append_nil_r.
Qed.

(** Text made of digits only, as [read_digits] consumes it whole. *)
Lemma read_digits_all (s : string) (ds : list Z) :
  Py.read_digits s = (ds, "") ->
  forall c, Py.contains_char c s = true -> Py.digit_val c <> None.
Proof.
  revert ds. induction s as [|a s IH]; intros ds H c Hc; [discriminate Hc|].
  cbn [Py.read_digits] in H. cbn [Py.contains_char] in Hc.
  destruct (Py.digit_val a) as [d|] eqn:Hd; [|discriminate H].
  destruct (Py.read_digits s) as [ds' rest] eqn:Hs.
  injection H as _ ->.
  destruct (Ascii.eqb a c) eqn:Hac.
  - apply Ascii.eqb_eq in Hac as <-. congruence.
  - eapply IH; eauto.
Qed.

Lemma digit_not_space (c : ascii) : Py.digit_val c <> None -> Py.is_space c = false.
Proof.
  unfold Py.digit_val, Py.is_space.
  destruct ((48 <=? nat_of_ascii c)%nat && (nat_of_ascii c <=? 57)%nat) eqn:H;
    [|congruence].
  intros _. apply andb_true_iff in H as [H1 H2].
  apply Nat.leb_le in H1, H2.
  repeat match goal with
         | |- context [(?a <=? ?b)%nat] => destruct (Nat.leb_spec a b); try lia
         | |- context [(?a =? ?b)%nat] => destruct (Nat.eqb_spec a b); try lia
         end; reflexivity.
Qed.

(** [lstrip] leaves alone a reversed text with no white space in it. *)
Lemma lstrip_rev_app (s acc : string) :
  (forall c, Py.contains_char c s = true -> Py.is_space c = false) ->
  Py.lstrip acc = acc ->
  Py.lstrip (String.rev_app s acc) = String.rev_app s acc.
Proof.
  revert acc. induction s as [|a s IH]; intros acc Hs Hacc; [exact Hacc|].
  cbn [String.rev_app]. apply IH.
  - intros c Hc. apply Hs. cbn [Py.contains_char]. rewrite Hc.
    now destruct (Ascii.eqb a c).
  - cbn [Py.lstrip]. rewrite (Hs a); [reflexivity|].
    cbn [Py.contains_char]. now rewrite Ascii.eqb_refl.
Qed.

Lemma strip_no_space (s : string) :
  (forall c, Py.contains_char c s = true -> Py.is_space c = false) ->
  Py.strip s = s.
Proof.
  intros Hs. unfold Py.strip.
  assert (Py.lstrip s = s) as ->.
  { destruct s as [|a s]; [reflexivity|]. cbn [Py.lstrip].
    rewrite (Hs a); [reflexivity|]. cbn [Py.contains_char]. now rewrite Ascii.eqb_refl. }
  unfold String.rev at 2. rewrite lstrip_rev_app; [apply rev_involutive|exact Hs|reflexivity].
Qed.

(** What INCR accepts as an integer, [int(text)] reads as the same
    integer. *)
Lemma int_of_str_canonical (s : string) (n : Z) :
  Py.canonical_int s = Some n -> Py.int_of_str s = Ok n.
Proof.
  unfold Py.canonical_int, Py.int_of_str. intros H.
  assert (forall body ds, Py.read_digits body = (ds, "") ->
            Py.contains_char "_" body = false) as Hunder.
  { intros body ds Hb. destruct (Py.contains_char "_" body) eqn:Hc; [|reflexivity].
    destruct (read_digits_all body ds Hb _ Hc). reflexivity. }
  destruct s as [|c r].
  - discriminate H.
  - destruct (Ascii.eqb c "-") eqn:Hminus.
    + apply Ascii.eqb_eq in Hminus as ->.
      destruct (Py.read_digits r) as [[|d ds] [|x rest]] eqn:Hr; try discriminate H.
      assert (Py.strip (String "-" r) = String "-" r) as ->.
      { apply strip_no_space. intros c Hc. cbn [Py.contains_char] in Hc.
        destruct (Ascii.eqb "-" c) eqn:E.
        - apply Ascii.eqb_eq in E as <-. reflexivity.
        - apply digit_not_space. eapply read_digits_all; eauto. }
      cbn [Ascii.eqb Bool.eqb]. cbn match. rewrite (Hunder _ _ Hr), Hr.
      destruct ds as [|d' ds'].
      * injection H as <-. unfold Py.digits_value. cbn [fold_left]. f_equal; lia.
      * destruct (d =? 0); [discriminate H|]. now injection H as <-.
    + destruct (Py.read_digits (String c r)) as [[|d ds] [|x rest]] eqn:Hr;
        try discriminate H.
      assert (Py.strip (String c r) = String c r) as ->.
      { apply strip_no_space. intros c' Hc. apply digit_not_space.
        eapply read_digits_all; eauto. }
      rewrite Hminus.
      assert (Ascii.eqb c "+" = false) as ->.
      { destruct (Ascii.eqb c "+") eqn:E; [|reflexivity].
        apply Ascii.eqb_eq in E as ->. discriminate Hr. }
      rewrite (Hunder _ _ Hr), Hr.
      destruct ds as [|d' ds'].
      * injection H as <-. unfold Py.digits_value. cbn [fold_left]. f_equal; lia.
      * destruct (d =? 0); [discriminate H|]. now injection H as <-.
Qed.

End NumberText.

(** ** Rate limiter *)

Section RateLimiterFacts.

Import RateLimiter.

Lemma Qfloor_div_pos (x : Q) (w : Z) :
  0 < w -> Qfloor (x / inject_Z w) = Qfloor x / w.
Proof.
  intros Hw. destruct x as [a b]. destruct w as [|p|p]; try lia.
  unfold Qdiv, Qinv, inject_Z, Qmult, Qfloor. cbn [Qnum Qden].
  rewrite Z.mul_1_r. rewrite Pos2Z.inj_mul. rewrite Z.div_div; lia.
Qed.

Lemma int_of_float_nonneg (x : Q) : (0 <= x)%Q -> Py.int_of_float x = Qfloor x.
Proof.
  intros H. unfold Py.int_of_float.
  apply Qle_bool_iff in H. now rewrite H.
Qed.

Lemma Qfloor_nonneg (x : Q) : (0 <= x)%Q -> 0 <= Qfloor x.
Proof.
  intros H. change 0 with (Qfloor 0). now apply Qfloor_resp_le.
Qed.

Lemma num_lt_iff (x y : Q) : Py.num_lt x y = true <-> (x < y)%Q.
Proof.
  unfold Py.num_lt. rewrite negb_true_iff. split.
  - intros H. apply Qnot_le_lt. intros Hle. apply Qle_bool_iff in Hle. congruence.
  - intros H. destruct (Qle_bool y x) eqn:E; [|reflexivity].
    apply Qle_bool_iff in E. apply Qlt_not_le in H. contradiction.
Qed.

(** Reading a counter the store holds. *)
Lemma get_count_counter (identifier endpoint : string) (window c : Z) (w : World) :
  Redis.counter (_generate_key identifier endpoint window) (redis w) = Some c ->
  _get_count identifier endpoint window w = (Ok c, w).
Proof.
  unfold Redis.counter, _get_count, redis_get, Redis.get, lift.
  unfold mbind, M_bind, mret, M_ret.
  destruct (Redis.data (redis w) !! _generate_key identifier endpoint window) as [e|];
    cbn [fmap option_fmap option_map].
  - intros H. now rewrite (int_of_str_canonical _ _ H).
  - now intros [= <-].
Qed.

(** A counter that is missing reads as 0. *)
Lemma get_count_missing (identifier endpoint : string) (window : Z) (w : World) :
  Redis.get (_generate_key identifier endpoint window) (redis w) = None ->
  _get_count identifier endpoint window w = (Ok 0, w).
Proof.
  intros H. apply get_count_counter. unfold Redis.counter.
  unfold Redis.get in H.
  destruct (Redis.data (redis w) !! _generate_key identifier endpoint window);
    [discriminate H|reflexivity].
Qed.

(** Incrementing a counter the store holds succeeds, and touches
    nothing but the store. *)
Lemma increment_counter (identifier endpoint : string) (window expire c : Z) (w : World) :
  Redis.counter (_generate_key identifier endpoint window) (redis w) = Some c ->
  exists r, _increment identifier endpoint window expire w = (Ok tt, set_redis r w).
Proof.
  unfold Redis.counter, _increment, redis_incr, redis_expire, Redis.incr.
  unfold mbind, M_bind, mret, M_ret. intros H.
  destruct (Redis.data (redis w) !! _generate_key identifier endpoint window) as [e|].
  - rewrite H.
    match goal with
    | |- context [Redis.expire ?k ?s ?r] => destruct (Redis.expire k s r) as [b r'] eqn:E
    end.
    exists r'. reflexivity.
  - match goal with
    | |- context [Redis.expire ?k ?s ?r] => destruct (Redis.expire k s r) as [b r'] eqn:E
    end.
    exists r'. reflexivity.
Qed.

(** What one call of [check] returns when both counters are readable;
    [weighted] is the weighted count it computes from its second clock
    reading. *)
Lemma check_run (identifier endpoint : string) (limit window cur prev : Z) (w : World) :
  window <> 0 ->
  Redis.counter
    (_generate_key identifier endpoint
       (Py.int_of_float (clock w (ticks w)) / window * window)) (redis w) = Some cur ->
  Redis.counter
    (_generate_key identifier endpoint
       (Py.int_of_float (clock w (ticks w)) / window * window - window)) (redis w) = Some prev ->
  let weighted :=
    weighted_count cur prev
      (Float.div
         (Float.sub (clock w (S (ticks w)))
            (Float.of_int (Py.int_of_float (clock w (ticks w)) / window * window)))
         (Float.of_int window)) in
  exists w',
    check identifier endpoint limit window w
    = (Ok (Py.num_lt weighted (inject_Z limit),
           {| limit := limit;
              remaining :=
                Z.max 0
                  (limit - Py.int_of_float weighted
                   - (if Py.num_lt weighted (inject_Z limit) then 1 else 0));
              reset_time := Py.int_of_float (clock w (ticks w)) / window * window + window |}),
       w')
    /\ clock w' = clock w /\ ticks w' = S (S (ticks w)).
Proof.
  intros Hw Hcur Hprev weighted.
  set (cw := Py.int_of_float (clock w (ticks w)) / window * window) in *.
  unfold check.
  unfold mbind at 1, M_bind at 1. unfold time_time at 1.
  unfold mbind at 1, M_bind at 1. unfold floordiv.
  apply Z.eqb_neq in Hw. rewrite Hw. unfold mret at 1, M_ret at 1.
  fold cw.
  unfold mbind at 1, M_bind at 1.
  rewrite (get_count_counter _ _ _ cur) by exact Hcur.
  unfold mbind at 1, M_bind at 1.
  rewrite (get_count_counter _ _ _ prev) by exact Hprev.
  unfold mbind at 1, M_bind at 1. unfold time_time at 1.
  cbn [ticks set_ticks clock].
  unfold mbind at 1, M_bind at 1. unfold truediv. rewrite Hw.
  unfold mret at 1, M_ret at 1.
  fold weighted.
  unfold mbind at 1, M_bind at 1.
  destruct (Py.num_lt weighted (inject_Z limit)) eqn:Hallowed.
  - destruct (increment_counter identifier endpoint cw (window * 2) cur
                (set_ticks (S (S (ticks w))) (set_ticks (S (ticks w)) w)) Hcur) as [r Hr].
    rewrite Hr. unfold mret, M_ret. eexists. split; [reflexivity|]. split; reflexivity.
  - unfold mret, M_ret. eexists. split; [reflexivity|]. split; reflexivity.
Qed.

Lemma of_int_exact (n : Z) : Z.abs n <= 2 ^ 53 -> (Float.of_int n == inject_Z n)%Q.
Proof. apply round_int. Qed.

Lemma of_int_nonneg (n : Z) : 0 <= n -> (0 <= Float.of_int n)%Q.
Proof.
  intros H. apply round_nonneg. change 0%Q with (inject_Z 0). now rewrite <- Zle_Qle.
Qed.

(** The part of the window that has elapsed, as [check] computes it, is
    in [0, 1] when the second clock reading lies in the current window
    and the start and the length of the window are doubles. *)
Lemma elapsed_fraction_unit (t : Q) (cw window : Z) :
  0 < window ->
  Z.abs cw <= 2 ^ 53 ->
  window <= 2 ^ 53 ->
  (inject_Z cw <= t)%Q ->
  (t < inject_Z (cw + window))%Q ->
  (0 <= Float.div (Float.sub t (Float.of_int cw)) (Float.of_int window))%Q
  /\ (Float.div (Float.sub t (Float.of_int cw)) (Float.of_int window) <= 1)%Q.
Proof.
  intros Hw Hcw Hwin Hlo Hhi.
  assert (0 < inject_Z window)%Q as Hwq.
  { change 0%Q with (inject_Z 0). rewrite <- Zlt_Qlt. exact Hw. }
  rewrite inject_Z_plus in Hhi.
  pose proof (of_int_exact cw Hcw) as Ecw.
  pose proof (of_int_exact window) as Ewin.
  rewrite Z.abs_eq in Ewin by lia. specialize (Ewin Hwin).
  unfold Float.div, Float.sub.
  set (elapsed := Float.round (t - Float.of_int cw)).
  assert (0 <= elapsed)%Q as He0 by (apply round_nonneg; lra).
  assert (elapsed <= inject_Z window)%Q as He1.
  { apply Qle_trans with (Float.round (inject_Z window)).
    - apply round_mono. lra.
    - rewrite round_int by (rewrite Z.abs_eq; lia). apply Qle_refl. }
  assert (0 < Float.of_int window)%Q as Hfw by lra.
  split.
  - apply round_nonneg. apply Qle_shift_div_l; [exact Hfw|]. lra.
  - apply Qle_trans with (Float.round (inject_Z 1)).
    + apply round_mono. apply Qle_shift_div_r; [exact Hfw|].
      change (inject_Z 1) with 1%Q. lra.
    + rewrite round_int by (vm_compute; discriminate). apply Qle_refl.
Qed.

(** With a fraction of at most 1 the weighted count is at least the
    float of the current counter. *)
Lemma weighted_count_above (cur prev : Z) (fraction : Q) :
  0 <= prev -> (fraction <= 1)%Q ->
  (Float.round (Float.of_int cur) <= weighted_count cur prev fraction)%Q.
Proof.
  intros Hp H1. unfold weighted_count, Float.add, Float.mul, Float.sub.
  apply round_mono.
  assert (0 <= Float.round (Float.of_int 1 - fraction))%Q as Hq.
  { apply round_nonneg. rewrite of_int_exact by (vm_compute; discriminate).
    change (inject_Z 1) with 1%Q. lra. }
  assert (0 <= Float.round (Float.of_int prev * Float.round (Float.of_int 1 - fraction)))%Q.
  { apply round_nonneg. apply Qmult_le_0_compat; [now apply of_int_nonneg|exact Hq]. }
  lra.
Qed.


(** With nothing in the previous window the weighted count is the
    current counter. *)
Lemma weighted_count_no_previous (cur : Z) (fraction : Q) :
  Z.abs cur <= 2 ^ 53 -> (weighted_count cur 0 fraction == inject_Z cur)%Q.
Proof.
  intros Hc. unfold weighted_count, Float.add, Float.mul.
  assert (Float.round (Float.of_int 0 * Float.sub (Float.of_int 1) fraction) = 0%Q) as ->.
  { apply round_zero. change (Float.of_int 0) with 0%Q. ring. }
  rewrite (round_comp _ (inject_Z cur)).
  - now apply round_int.
  - rewrite of_int_exact by exact Hc. ring.
Qed.

End RateLimiterFacts.
Section RateLimiterClaims.

Import RateLimiter.

(** C1 (as the code has it): with [window > 0] the limiter works on
    [current_window = int(now) // window * window], which is
    [floor(now / window) * window] for a clock that is not negative,
    reads the counters of the current and the previous window (a counter
    that is missing reads as 0), reads the clock a second time and admits
    the request exactly when
    [current_count + previous_count * (1 - (now' - current_window) / window)],
    computed in floats with every operation rounded, is below [limit];
    with nothing in the previous window that is when [current_count] is
    below [limit].  In the scenario [window = 10], [limit = 5] with an
    empty store, the five requests at t = 0, 1, 2, 3, 4 are admitted and
    the sixth, at t = 4, is rejected: the middleware answers it with 429
    and [retry_after = 6]. *)
Theorem check_sliding_window_decision :
  (forall (w : World) (identifier endpoint : string)
          (limit window current_window current_count previous_count : Z),
      0 < window ->
      current_window = Py.int_of_float (clock w (ticks w)) / window * window ->
      Redis.counter (RateLimiter._generate_key identifier endpoint current_window) (redis w)
      = Some current_count ->
      Redis.counter (RateLimiter._generate_key identifier endpoint (current_window - window))
        (redis w) = Some previous_count ->
      exists (allowed : bool) (info : RateLimiter.RateLimitInfo) (w' : World),
        RateLimiter.check identifier endpoint limit window w = (Ok (allowed, info), w')
        /\ RateLimiter.reset_time info = current_window + window
        /\ ((0 <= clock w (ticks w))%Q ->
            current_window = Qfloor (clock w (ticks w) / inject_Z window) * window)
        /\ (allowed = true <->
            (Float.add (Float.of_int current_count)
               (Float.mul (Float.of_int previous_count)
                  (Float.sub (Float.of_int 1)
                     (Float.div
                        (Float.sub (clock w (S (ticks w))) (Float.of_int current_window))
                        (Float.of_int window))))
             < inject_Z limit)%Q)
        /\ (previous_count = 0 -> Z.abs current_count <= 2 ^ 53 ->
            (allowed = true <-> current_count < limit)))
  /\ (forall (w : World) (identifier endpoint : string) (window : Z),
         Redis.get (RateLimiter._generate_key identifier endpoint window) (redis w) = None ->
         RateLimiter._get_count identifier endpoint window w = (Ok 0, w))
  /\ (exists results,
         fst (Examples.checks 6 Examples.scenario_world) = Ok results
         /\ map fst results = [true; true; true; true; true; false])
  /\ (exists responses,
         fst (RateLimitMiddleware.serve Examples.scenario_middleware Examples.plain_next
                (replicate 6 Examples.scenario_request) Examples.scenario_world)
         = Ok responses
         /\ map RateLimitMiddleware.status_code responses = [200; 200; 200; 200; 200; 429]
         /\ map RateLimitMiddleware.content (drop 5 responses)
            = [ PDict [ ("error", PStr "rate_limit_exceeded");
                        ("message", PStr "Too many requests. Please try again later.");
                        ("retry_after", PInt 6) ] ]).
Proof.
  split; [|split; [|split]].
  - intros w identifier endpoint limit window cw cur prev Hw -> Hcur Hprev.
    pose proof (check_run identifier endpoint limit window cur prev w) as Hrun.
    cbv zeta in Hrun. destruct Hrun as (w' & Hrun & _); [lia|exact Hcur|exact Hprev|].
    eexists _, _, w'. split; [exact Hrun|]. split; [reflexivity|].
    split; [|split].
    + intros Hnow. rewrite Qfloor_div_pos by exact Hw.
      now rewrite int_of_float_nonneg.
    + apply num_lt_iff.
    + intros -> Hsmall. rewrite num_lt_iff.
      rewrite (weighted_count_no_previous _ _ Hsmall), <- Zlt_Qlt. reflexivity.
  - intros w identifier endpoint window. apply get_count_missing.
  - eexists. split; [vm_compute; reflexivity|reflexivity].
  - eexists. split; [vm_compute; reflexivity|]. split; reflexivity.
Qed.

(** C1 at the scenario's sixth request: the counter holds 5, the clock
    reads 4, and the request is not admitted. *)
Lemma check_sliding_window_decision_witness :
  exists (allowed : bool) (info : RateLimiter.RateLimitInfo) (w' : World),
    RateLimiter.check "ip:10.0.0.1" "/api/ping" 5 10 Examples.scenario_world_after_five
    = (Ok (allowed, info), w')
    /\ RateLimiter.reset_time info = 0 + 10
    /\ ((0 <= clock Examples.scenario_world_after_five
                (ticks Examples.scenario_world_after_five))%Q ->
        0 = Qfloor (clock Examples.scenario_world_after_five
                      (ticks Examples.scenario_world_after_five) / inject_Z 10) * 10)
    /\ (allowed = true <->
        (Float.add (Float.of_int 5)
           (Float.mul (Float.of_int 0)
              (Float.sub (Float.of_int 1)
                 (Float.div
                    (Float.sub (clock Examples.scenario_world_after_five
                                  (S (ticks Examples.scenario_world_after_five)))
                       (Float.of_int 0))
                    (Float.of_int 10))))
         < inject_Z 5)%Q)
    /\ (0 = 0 -> Z.abs 5 <= 2 ^ 53 -> (allowed = true <-> 5 < 5)).
Proof.
  apply (proj1 check_sliding_window_decision Examples.scenario_world_after_five
           "ip:10.0.0.1" "/api/ping" 5 10 0 5 0).
  - lia.
  - vm_compute. reflexivity.
  - vm_compute. reflexivity.
  - vm_compute. reflexivity.
Defined.

(** C1 as stated fails: at t = 18 with [window = 10], [limit = 5], 2
    requests in the current window and 15 in the previous one, the
    weighted count of the formula is exactly 5, which is not below the
    limit, and the request is admitted all the same: in floats
    [1 - 0.8] is a little less than 0.2. *)
Lemma check_admits_at_exact_limit :
  Py.int_of_float (clock Examples.rounding_world (ticks Examples.rounding_world)) / 10 * 10 = 10
  /\ Redis.counter (RateLimiter._generate_key "ip:10.0.0.1" "/api/ping" 10)
       (redis Examples.rounding_world) = Some 2
  /\ Redis.counter (RateLimiter._generate_key "ip:10.0.0.1" "/api/ping" (10 - 10))
       (redis Examples.rounding_world) = Some 15
  /\ (inject_Z 2 + inject_Z 15 * (1 - (18 - inject_Z 10) / inject_Z 10) == inject_Z 5)%Q
  /\ ~ (inject_Z 2 + inject_Z 15 * (1 - (18 - inject_Z 10) / inject_Z 10) < inject_Z 5)%Q
  /\ fst (RateLimiter.check "ip:10.0.0.1" "/api/ping" 5 10 Examples.rounding_world)
     = Ok (true, {| RateLimiter.limit := 5; RateLimiter.remaining := 0;
                    RateLimiter.reset_time := 20 |})
  /\ (RateLimiter.weighted_count 2 15
        (Float.div (Float.sub 18 (Float.of_int 10)) (Float.of_int 10))
      == 5629499534213119 # 1125899906842624)%Q.
Proof.
  split; [vm_compute; reflexivity|]. split; [vm_compute; reflexivity|].
  split; [vm_compute; reflexivity|]. split; [vm_compute; reflexivity|].
  split; [vm_compute; intros H; discriminate H|].
  split; vm_compute; reflexivity.
Qed.

End RateLimiterClaims.
Section RateLimiterBounds.

Import RateLimiter.




End RateLimiterBounds.
(** ** Rate limit middleware *)

Section DictFacts.

Context {V : Type}.

Lemma dict_get_set_eq (k : string) (v : V) (d : list (string * V)) :
  Py.dict_get k (Py.dict_set k v d) = Some v.
Proof.
  induction d as [|[k' v'] d IH]; cbn [Py.dict_set Py.dict_get].
  - now rewrite String.eqb_refl.
  - destruct (String.eqb k' k) eqn:E; cbn [Py.dict_get].
    + now rewrite String.eqb_refl.
    + now rewrite E.
Qed.

Lemma dict_get_set_ne (k k' : string) (v : V) (d : list (string * V)) :
  k <> k' -> Py.dict_get k (Py.dict_set k' v d) = Py.dict_get k d.
Proof.
  intros Hne. induction d as [|[k1 v1] d IH]; cbn [Py.dict_set Py.dict_get].
  - destruct (String.eqb_spec k' k); [congruence|reflexivity].
  - destruct (String.eqb_spec k1 k') as [->|Hk1]; cbn [Py.dict_get].
    + destruct (String.eqb_spec k' k); [congruence|reflexivity].
    + destruct (String.eqb_spec k1 k); [reflexivity|exact IH].
Qed.

(** Assigning to a key never makes a key occur twice. *)
Lemma dict_set_keys (k : string) (v : V) (d : list (string * V)) :
  NoDup (map fst d) ->
  NoDup (map fst (Py.dict_set k v d))
  /\ forall k', k' ∈ map fst (Py.dict_set k v d) -> k' = k \/ k' ∈ map fst d.
Proof.
  induction d as [|[k1 v1] d IH]; cbn [Py.dict_set map fst]; intros Hnd.
  - split.
    + apply NoDup_cons. split; [apply not_elem_of_nil|constructor].
    + intros k' Hk'. apply list_elem_of_singleton in Hk'. now left.
  - apply NoDup_cons in Hnd as [Hk1 Hnd].
    destruct (String.eqb_spec k1 k) as [->|Hne]; cbn [map fst].
    + split.
      * apply NoDup_cons. split; assumption.
      * intros k' Hk'. now right.
    + destruct (IH Hnd) as [IHnd IHin]. split.
      * apply NoDup_cons. split; [|exact IHnd].
        intros Hin. apply IHin in Hin as [->|Hin]; [congruence|contradiction].
      * intros k' Hk'. apply elem_of_cons in Hk' as [->|Hk'].
        -- right. apply elem_of_cons. now left.
        -- apply IHin in Hk' as [->|Hk']; [now left|].
           right. apply elem_of_cons. now right.
Qed.

Lemma fold_dict_set_keys (items d : list (string * V)) :
  NoDup (map fst d) ->
  NoDup (map fst (fold_left (fun d kv => Py.dict_set (fst kv) (snd kv) d) items d)).
Proof.
  revert d. induction items as [|[k v] items IH]; intros d Hd; [exact Hd|].
  cbn [fold_left]. apply IH. now apply dict_set_keys.
Qed.

(** A dict literal binds every key once. *)
Lemma dict_literal_keys (items : list (string * V)) :
  NoDup (map fst (Py.dict_literal items)).
Proof. apply fold_dict_set_keys. constructor. Qed.

Lemma fold_dict_set_get (k : string) (items d : list (string * V)) :
  Py.dict_get k (fold_left (fun d kv => Py.dict_set (fst kv) (snd kv) d) items d)
  = match Py.dict_get k (rev items) with
    | Some v => Some v
    | None => Py.dict_get k d
    end.
Proof.
  revert d. induction items as [|[k1 v1] items IH]; intros d; [reflexivity|].
  cbn [fold_left rev fst snd]. rewrite IH.
  assert (forall l : list (string * V),
             Py.dict_get k (l ++ [(k1, v1)])
             = match Py.dict_get k l with
               | Some v => Some v
               | None => if String.eqb k1 k then Some v1 else None
               end) as Happ.
  { induction l as [|[k2 v2] l IHl]; cbn [app Py.dict_get]; [reflexivity|].
    destruct (String.eqb k2 k); [reflexivity|exact IHl]. }
  rewrite Happ. destruct (Py.dict_get k (rev items)) as [v|]; [reflexivity|].
  destruct (String.eqb_spec k1 k) as [->|Hne].
  - apply dict_get_set_eq.
  - apply dict_get_set_ne. congruence.
Qed.

(** In a dict literal the last item written for a key is the one bound. *)
Lemma dict_literal_last_wins (k : string) (items : list (string * V)) :
  Py.dict_get k (Py.dict_literal items) = Py.dict_get k (rev items).
Proof.
  unfold Py.dict_literal. rewrite fold_dict_set_get.
  now destruct (Py.dict_get k (rev items)).
Qed.

End DictFacts.

Section MiddlewareFacts.

Import RateLimitMiddleware.

(** C6: in the table the middleware builds, the key [/api/articles] is
    bound once, to the later of its two registrations (100 per 60
    seconds, by ip), and a request for exactly that path resolves to this
    configuration, never to the earlier 10 per 3600 seconds by user. *)
Theorem articles_path_resolves_to_last_registration
    (request : RateLimitMiddleware.Request) :
  RateLimitMiddleware.path request = "/api/articles" ->
  RateLimitMiddleware._get_rate_limit_config RateLimitMiddleware.__init__ request
  = {| limit := 100; window := 60; dimension := "ip" |}
  /\ RateLimitMiddleware._get_rate_limit_config RateLimitMiddleware.__init__ request
     <> {| limit := 10; window := 3600; dimension := "user" |}
  /\ List.filter (fun kv => String.eqb (fst kv) "/api/articles")
       RateLimitMiddleware.limit_config_items
     = [ ("/api/articles", {| limit := 10; window := 3600; dimension := "user" |});
         ("/api/articles", {| limit := 100; window := 60; dimension := "ip" |}) ]
  /\ List.filter (fun kv => String.eqb (fst kv) "/api/articles")
       (RateLimitMiddleware.limit_configs RateLimitMiddleware.__init__)
     = [ ("/api/articles", {| limit := 100; window := 60; dimension := "ip" |}) ]
  /\ NoDup (map fst (RateLimitMiddleware.limit_configs RateLimitMiddleware.__init__)).
Proof.
  intros Hpath.
  assert (_get_rate_limit_config __init__ request
          = {| limit := 100; window := 60; dimension := "ip" |}) as Hconfig.
  { unfold _get_rate_limit_config. rewrite Hpath.
    unfold __init__, _load_limit_configs. cbn [limit_configs].
    rewrite dict_literal_last_wins. reflexivity. }
  split; [exact Hconfig|]. split; [rewrite Hconfig; discriminate|].
  split; [reflexivity|]. split; [reflexivity|].
  apply dict_literal_keys.
Qed.

(** C6 for a request to [/api/articles]. *)
Lemma articles_path_resolves_to_last_registration_witness :
  RateLimitMiddleware.path (Examples.request_to "/api/articles") = "/api/articles"
  /\ RateLimitMiddleware._get_rate_limit_config RateLimitMiddleware.__init__
       (Examples.request_to "/api/articles")
     = {| limit := 100; window := 60; dimension := "ip" |}.
Proof.
  split; [reflexivity|].
  exact (proj1 (articles_path_resolves_to_last_registration
                  (Examples.request_to "/api/articles") eq_refl)).
Defined.

End MiddlewareFacts.
Section DispatchFacts.

Import RateLimitMiddleware.

(** The three headers the middleware sets, as read back from a response. *)
Lemma rate_limit_headers_set (response : Response) (info : RateLimiter.RateLimitInfo) :
  let response' :=
    set_header "X-RateLimit-Reset" (Py.str_int (RateLimiter.reset_time info))
      (set_header "X-RateLimit-Remaining" (Py.str_int (RateLimiter.remaining info))
         (set_header "X-RateLimit-Limit" (Py.str_int (RateLimiter.limit info)) response)) in
  status_code response' = status_code response
  /\ content response' = content response
  /\ headers response' !! "X-RateLimit-Limit" = Some (Py.str_int (RateLimiter.limit info))
  /\ headers response' !! "X-RateLimit-Remaining"
     = Some (Py.str_int (RateLimiter.remaining info))
  /\ headers response' !! "X-RateLimit-Reset" = Some (Py.str_int (RateLimiter.reset_time info)).
Proof.
  cbn [set_header status_code content headers].
  repeat split.
  - rewrite lookup_insert_ne by discriminate.
    rewrite lookup_insert_ne by discriminate.
    apply lookup_insert_eq.
  - rewrite lookup_insert_ne by discriminate. apply lookup_insert_eq.
  - apply lookup_insert_eq.
Qed.

(** C7 (as the code has it): every response to a metered request (a path
    outside [/static] whose resolved quota is not 0) carries the headers
    X-RateLimit-Limit, X-RateLimit-Remaining and X-RateLimit-Reset with
    the values of the limiter's decision, and every request the limiter
    rejects is answered with status 429 and a JSON body holding error,
    message and retry_after, where retry_after is the float
    [reset_time - now] cut to an integer. *)
Theorem metered_responses_carry_headers_and_rejections_are_429 :
  (forall (self : RateLimitMiddleware.t) (request : RateLimitMiddleware.Request)
          (call_next : RateLimitMiddleware.Request -> M RateLimitMiddleware.Response)
          (w w' : World) (response : RateLimitMiddleware.Response),
      Py.startswith "/static" (RateLimitMiddleware.path request) = false ->
      RateLimitMiddleware.limit (RateLimitMiddleware._get_rate_limit_config self request) <> 0 ->
      RateLimitMiddleware.dispatch self request call_next w = (Ok response, w') ->
      exists (info : RateLimiter.RateLimitInfo),
        RateLimiter.limit info
        = RateLimitMiddleware.limit (RateLimitMiddleware._get_rate_limit_config self request)
        /\ RateLimitMiddleware.headers response !! "X-RateLimit-Limit"
           = Some (Py.str_int (RateLimiter.limit info))
        /\ RateLimitMiddleware.headers response !! "X-RateLimit-Remaining"
           = Some (Py.str_int (RateLimiter.remaining info))
        /\ RateLimitMiddleware.headers response !! "X-RateLimit-Reset"
           = Some (Py.str_int (RateLimiter.reset_time info)))
  /\ (forall (self : RateLimitMiddleware.t) (request : RateLimitMiddleware.Request)
             (call_next : RateLimitMiddleware.Request -> M RateLimitMiddleware.Response)
             (w w1 w2 : World) (identifier : string) (info : RateLimiter.RateLimitInfo),
         Py.startswith "/static" (RateLimitMiddleware.path request) = false ->
         RateLimitMiddleware.limit (RateLimitMiddleware._get_rate_limit_config self request) <> 0 ->
         RateLimitMiddleware._get_identifier request
           (RateLimitMiddleware._get_rate_limit_config self request) w = (Ok identifier, w1) ->
         RateLimiter.check identifier (RateLimitMiddleware.path request)
           (RateLimitMiddleware.limit (RateLimitMiddleware._get_rate_limit_config self request))
           (RateLimitMiddleware.window (RateLimitMiddleware._get_rate_limit_config self request))
           w1 = (Ok (false, info), w2) ->
         exists (response : RateLimitMiddleware.Response),
           RateLimitMiddleware.dispatch self request call_next w
           = (Ok response, set_ticks (S (ticks w2)) w2)
           /\ RateLimitMiddleware.status_code response = 429
           /\ RateLimitMiddleware.content response
              = PDict [ ("error", PStr "rate_limit_exceeded");
                        ("message", PStr "Too many requests. Please try again later.");
                        ("retry_after",
                         PInt (Py.int_of_float
                                 (Float.sub (Float.of_int (RateLimiter.reset_time info))
                                    (clock w2 (ticks w2))))) ]
           /\ RateLimitMiddleware.headers response !! "X-RateLimit-Limit"
              = Some (Py.str_int (RateLimiter.limit info))
           /\ RateLimitMiddleware.headers response !! "X-RateLimit-Remaining"
              = Some (Py.str_int (RateLimiter.remaining info))
           /\ RateLimitMiddleware.headers response !! "X-RateLimit-Reset"
              = Some (Py.str_int (RateLimiter.reset_time info))).
Proof.
  split.
  - intros self request call_next w w' response Hstatic Hlimit Hrun.
    unfold dispatch in Hrun. rewrite Hstatic in Hrun.
    apply Z.eqb_neq in Hlimit. rewrite Hlimit in Hrun.
    unfold mbind at 1, M_bind at 1 in Hrun.
    destruct (_get_identifier request (_get_rate_limit_config self request) w)
      as [[identifier|e|] w1]; try discriminate Hrun.
    unfold mbind at 1, M_bind at 1 in Hrun.
    destruct (RateLimiter.check identifier (path request)
                (limit (_get_rate_limit_config self request))
                (window (_get_rate_limit_config self request)) w1)
      as [[[allowed info]|e|] w2] eqn:Hcheck; try discriminate Hrun.
    assert (RateLimiter.limit info = limit (_get_rate_limit_config self request)) as Hinfo.
    { unfold RateLimiter.check in Hcheck.
      repeat match type of Hcheck with
             | (let (_, _) := ?m in _) = _ =>
                 destruct m as [[?|?|] ?]; try discriminate Hcheck
             | (mbind _ ?m ?w0) = _ =>
                 unfold mbind at 1, M_bind at 1 in Hcheck
             | (match ?m with _ => _ end) = _ =>
                 destruct m as [[?|?|] ?]; try discriminate Hcheck
             end.
      unfold mret, M_ret in Hcheck. injection Hcheck as _ <- _. reflexivity. }
    unfold mbind at 1, M_bind at 1 in Hrun.
    destruct allowed.
    + destruct (call_next request w2) as [[r|e|] w3]; try discriminate Hrun.
      unfold mret, M_ret in Hrun. injection Hrun as <- _.
      exists info. split; [exact Hinfo|]. apply rate_limit_headers_set.
    + unfold mbind at 1, M_bind at 1, time_time, mret, M_ret in Hrun.
      injection Hrun as <- _.
      exists info. split; [exact Hinfo|]. apply rate_limit_headers_set.
  - intros self request call_next w w1 w2 identifier info Hstatic Hlimit Hid Hcheck.
    unfold dispatch. rewrite Hstatic.
    apply Z.eqb_neq in Hlimit. rewrite Hlimit.
    unfold mbind at 1, M_bind at 1. rewrite Hid.
    unfold mbind at 1, M_bind at 1. rewrite Hcheck.
    unfold mbind, M_bind, time_time, mret, M_ret.
    eexists. split; [reflexivity|].
    split; [reflexivity|]. split; [reflexivity|].
    apply rate_limit_headers_set.
Qed.

End DispatchFacts.
Section DispatchExamples.

Import RateLimitMiddleware.

(** C7 at the scenario's sixth request, which the limiter rejects. *)
Lemma metered_responses_carry_headers_and_rejections_are_429_witness :
  exists (response : RateLimitMiddleware.Response),
    RateLimitMiddleware.dispatch Examples.scenario_middleware Examples.scenario_request
      Examples.plain_next Examples.scenario_world_after_five
    = (Ok response,
       set_ticks (S (ticks Examples.scenario_world_after_sixth_check))
         Examples.scenario_world_after_sixth_check)
    /\ RateLimitMiddleware.status_code response = 429
    /\ RateLimitMiddleware.content response
       = PDict [ ("error", PStr "rate_limit_exceeded");
                 ("message", PStr "Too many requests. Please try again later.");
                 ("retry_after",
                  PInt (Py.int_of_float
                          (Float.sub (Float.of_int (RateLimiter.reset_time Examples.sixth_info))
                             (clock Examples.scenario_world_after_sixth_check
                                (ticks Examples.scenario_world_after_sixth_check))))) ]
    /\ RateLimitMiddleware.headers response !! "X-RateLimit-Limit"
       = Some (Py.str_int (RateLimiter.limit Examples.sixth_info))
    /\ RateLimitMiddleware.headers response !! "X-RateLimit-Remaining"
       = Some (Py.str_int (RateLimiter.remaining Examples.sixth_info))
    /\ RateLimitMiddleware.headers response !! "X-RateLimit-Reset"
       = Some (Py.str_int (RateLimiter.reset_time Examples.sixth_info)).
Proof.
  apply (proj2 metered_responses_carry_headers_and_rejections_are_429
           Examples.scenario_middleware Examples.scenario_request Examples.plain_next
           Examples.scenario_world_after_five Examples.scenario_world_after_five
           Examples.scenario_world_after_sixth_check "ip:10.0.0.1" Examples.sixth_info).
  - reflexivity.
  - vm_compute. discriminate.
  - reflexivity.
  - vm_compute. reflexivity.
Defined.

(** C7 as stated fails: a request to a path with no quota, and a request
    under [/static], are answered without any rate-limit header. *)
Lemma unmetered_response_has_no_rate_limit_header :
  exists (response static_response : RateLimitMiddleware.Response),
    fst (RateLimitMiddleware.dispatch RateLimitMiddleware.__init__
           (Examples.request_to "/api/tags") Examples.plain_next
           (Examples.fresh_world Examples.still_clock)) = Ok response
    /\ RateLimitMiddleware.headers response !! "X-RateLimit-Limit" = None
    /\ RateLimitMiddleware.headers response !! "X-RateLimit-Remaining" = None
    /\ RateLimitMiddleware.headers response !! "X-RateLimit-Reset" = None
    /\ fst (RateLimitMiddleware.dispatch RateLimitMiddleware.__init__
              (Examples.request_to "/static/app.css") Examples.plain_next
              (Examples.fresh_world Examples.still_clock)) = Ok static_response
    /\ RateLimitMiddleware.headers static_response !! "X-RateLimit-Limit" = None.
Proof.
  eexists _, _.
  split; [vm_compute; reflexivity|].
  repeat split; reflexivity.
Qed.

End DispatchExamples.
(** ** Cache decorator *)

Section DecoratorFacts.

Import Decorators.

(** A hit: the monitor records it and the payload is decoded; the store
    and the list of calls are as they were. *)
Lemma wrapper_hit (key_pattern : string) (ttl : option Z) (func : pyfunc)
    (args : list value) (kwargs : list (string * value)) (w : World)
    (cache_key cached_data : string) :
  cache_enabled (settings w) = true ->
  format key_pattern kwargs = Ok cache_key ->
  Redis.get cache_key (redis w) = Some cached_data ->
  cached_data <> "" ->
  wrapper key_pattern ttl func args kwargs w
  = (decode (returns func) cached_data,
     set_monitor (CacheMonitor.record_hit (monitor w)) w).
Proof.
  intros Hon Hkey Hget Hne.
  unfold wrapper, get_app_settings.
  unfold mbind at 1, M_bind at 1. rewrite Hon. cbn [negb].
  unfold mbind at 1, M_bind at 1. unfold lift at 1. rewrite Hkey.
  unfold mbind at 1, M_bind at 1. unfold redis_get. rewrite Hget.
  destruct cached_data as [|c s]; [congruence|].
  cbn [Py.truthy Py.truthy_str].
  unfold mbind, M_bind, record_hit, lift. reflexivity.
Qed.

(** A miss whose result is [None]: nothing is stored. *)
Lemma wrapper_miss_none (key_pattern : string) (ttl : option Z) (func : pyfunc)
    (args : list value) (kwargs : list (string * value)) (w : World) (cache_key : string) :
  cache_enabled (settings w) = true ->
  format key_pattern kwargs = Ok cache_key ->
  Py.truthy (Redis.get cache_key (redis w)) = None ->
  body func args kwargs = Ok PNone ->
  wrapper key_pattern ttl func args kwargs w = (Ok PNone, missed args kwargs w).
Proof.
  intros Hon Hkey Hget Hbody.
  unfold wrapper, get_app_settings.
  unfold mbind at 1, M_bind at 1. rewrite Hon. cbn [negb].
  unfold mbind at 1, M_bind at 1. unfold lift at 1. rewrite Hkey.
  unfold mbind at 1, M_bind at 1. unfold redis_get. rewrite Hget.
  unfold mbind, M_bind, record_miss, call. cbn [calls set_monitor].
  rewrite Hbody. reflexivity.
Qed.

(** A miss whose result is not [None]: the result is encoded and stored
    under the key with the chosen time-to-live. *)
Lemma wrapper_miss_store (key_pattern : string) (ttl : option Z) (func : pyfunc)
    (args : list value) (kwargs : list (string * value)) (w : World)
    (cache_key : string) (result : value) (serialized_data : string) :
  cache_enabled (settings w) = true ->
  format key_pattern kwargs = Ok cache_key ->
  Py.truthy (Redis.get cache_key (redis w)) = None ->
  body func args kwargs = Ok result ->
  result <> PNone ->
  encode result = Ok serialized_data ->
  0 < ttl_or ttl (cache_default_ttl (settings w)) ->
  wrapper key_pattern ttl func args kwargs w
  = (Ok result,
     set_redis
       {| Redis.data :=
            <[cache_key := {| Redis.payload := serialized_data;
                              Redis.ttl := Some (ttl_or ttl (cache_default_ttl (settings w))) |}]>
              (Redis.data (redis w));
          Redis.layout := Redis.place cache_key (Redis.layout (redis w)) |}
       (missed args kwargs w)).
Proof.
  intros Hon Hkey Hget Hbody Hnone Henc Httl.
  unfold wrapper, get_app_settings.
  unfold mbind at 1, M_bind at 1. rewrite Hon. cbn [negb].
  unfold mbind at 1, M_bind at 1. unfold lift at 1. rewrite Hkey.
  unfold mbind at 1, M_bind at 1. unfold redis_get. rewrite Hget.
  unfold mbind at 1, M_bind at 1. unfold record_miss at 1.
  unfold mbind at 1, M_bind at 1. unfold call at 1. cbn [calls set_monitor].
  rewrite Hbody.
  assert ((ttl_or ttl (cache_default_ttl (settings w)) <=? 0) = false) as Hpos
    by (apply Z.leb_gt; exact Httl).
  destruct result; try congruence;
    unfold mbind, M_bind, lift, redis_setex, Redis.setex, mret, M_ret;
    rewrite Henc; cbn [redis set_calls set_monitor]; rewrite Hpos; reflexivity.
Qed.

(** When caching is switched off the call goes straight through. *)
Lemma wrapper_disabled (key_pattern : string) (ttl : option Z) (func : pyfunc)
    (args : list value) (kwargs : list (string * value)) (w : World) :
  cache_enabled (settings w) = false ->
  wrapper key_pattern ttl func args kwargs w = call func args kwargs w.
Proof.
  intros Hoff. unfold wrapper, get_app_settings.
  unfold mbind at 1, M_bind at 1. rewrite Hoff. reflexivity.
Qed.

Lemma each_model_json (models : list value) :
  forallb is_model models = true ->
  each Json.model_json models = Ok (map (Json.render Json.compact_style) models).
Proof.
  induction models as [|m models IH]; intros H; [reflexivity|].
  cbn [forallb] in H. apply andb_true_iff in H as [Hm Hrest].
  cbn [each map]. destruct m; try discriminate Hm.
  cbn [Json.model_json]. unfold mbind, outcome_bind. rewrite (IH Hrest). reflexivity.
Qed.

Lemma plain_strings (texts : list string) :
  forallb Json.plain (map PStr texts) = true.
Proof. induction texts as [|t texts IH]; [reflexivity|exact IH]. Qed.

(** What is stored for a list of model instances: a JSON array whose
    items are JSON strings, each the JSON text of one instance. *)
Lemma encode_model_list (models : list value) :
  models <> [] ->
  forallb is_model models = true ->
  encode (PList models)
  = Ok (Json.render Json.python_style
          (PList (map (fun m => PStr (Json.render Json.compact_style m)) models))).
Proof.
  intros Hne Hall. destruct models as [|m rest]; [congruence|].
  pose proof Hall as Hall'. cbn [forallb] in Hall'.
  apply andb_true_iff in Hall' as [Hm _].
  destruct m; try discriminate Hm.
  unfold encode. rewrite (each_model_json _ Hall).
  unfold mbind, outcome_bind, Json.dumps.
  cbn [Json.plain]. rewrite plain_strings.
  rewrite map_map. reflexivity.
Qed.

End DecoratorFacts.
Section EncodedText.

Import Decorators.

Lemma append_cons_nonempty (a : ascii) (s t : string) : String a s +:+ t <> "".
Proof. rewrite append_cons. discriminate. Qed.

Lemma pretty_N_go_nonempty (x : N) (s : string) : s <> "" -> pretty_N_go x s <> "".
Proof.
  revert s. induction (N.lt_wf_0 x) as [x _ IH]; intros s Hs.
  destruct (N.eq_dec x 0%N) as [->|Hx].
  - now rewrite pretty_N_go_0.
  - rewrite pretty_N_go_step by lia. apply IH.
    + apply N.div_lt; lia.
    + discriminate.
Qed.

Lemma str_int_nonempty (n : Z) : Py.str_int n <> "".
Proof.
  unfold Py.str_int, pretty, pretty_Z.
  destruct n as [|p|p].
  - discriminate.
  - unfold pretty, pretty_positive, pretty, pretty_N.
    destruct (decide (N.pos p = 0%N)); [discriminate|].
    rewrite pretty_N_go_step by lia. apply pretty_N_go_nonempty. discriminate.
  - apply append_cons_nonempty.
Qed.

Lemma render_nonempty (st : Json.style) (v : value) : Json.render st v <> "".
Proof.
  destruct v as [|[]|n|s|items|members|cls fields]; cbn [Json.render];
    try discriminate; try apply append_cons_nonempty.
  apply str_int_nonempty.
Qed.

(** What the wrapper stores is never the empty text, so a later read of
    the key is a hit. *)
Lemma encode_nonempty (result : value) (serialized_data : string) :
  encode result = Ok serialized_data -> serialized_data <> "".
Proof.
  assert (forall v s, Json.dumps v = Ok s -> s <> "") as Hdumps.
  { intros v s. unfold Json.dumps. destruct (Json.plain v); [|discriminate].
    intros [= <-]. apply render_nonempty. }
  destruct result as [|b|n|s|items|members|cls fields]; unfold encode;
    try apply Hdumps.
  - destruct items as [|[] rest]; try apply Hdumps.
    unfold mbind, outcome_bind.
    destruct (each Json.model_json (PModel cls fields :: rest)); try discriminate.
    apply Hdumps.
  - cbn [Json.model_json]. intros [= <-].
    apply (render_nonempty Json.compact_style (PModel cls fields)).
Qed.

End EncodedText.

Section DecoratorClaims.

Import Decorators.

(** C2 (as the code has it): with caching enabled, a key that holds a
    non-empty text is a hit: the monitor records it and the text is read
    back according to the declared return annotation, the function is
    not invoked and nothing is stored; a key that holds nothing is a
    miss: the monitor records it, the function is invoked once, and a
    result other than [None] is stored under the key with time-to-live
    [ttl or default], then returned.  A single model instance is stored
    as the JSON object of its fields; a list of model instances is stored
    as a JSON array of JSON strings, each string the JSON text of one
    instance. *)
Theorem cache_wrapper_hit_and_miss :
  (forall (key_pattern : string) (ttl : option Z) (func : Decorators.pyfunc)
          (args : list value) (kwargs : list (string * value)) (w : World)
          (cache_key cached_data : string),
      cache_enabled (settings w) = true ->
      Decorators.format key_pattern kwargs = Ok cache_key ->
      Redis.get cache_key (redis w) = Some cached_data ->
      cached_data <> "" ->
      Decorators.wrapper key_pattern ttl func args kwargs w
      = (Decorators.decode (Decorators.returns func) cached_data,
         set_monitor (CacheMonitor.record_hit (monitor w)) w))
  /\ (forall (cls : Decorators.model_class) (cached_data : string),
         Decorators.decode (Decorators.AModel cls) cached_data
         = Decorators.parse_raw cls cached_data
         /\ Decorators.decode (Decorators.AList (Decorators.ItemModel cls)) cached_data
            = (loaded ← Json.loads cached_data;
               items ← Decorators.iterate loaded;
               models ← Decorators.each (Decorators.parse_raw_item cls) items;
               Ok (PList models)))
  /\ (forall (key_pattern : string) (ttl : option Z) (func : Decorators.pyfunc)
             (args : list value) (kwargs : list (string * value)) (w : World)
             (cache_key : string),
         cache_enabled (settings w) = true ->
         Decorators.format key_pattern kwargs = Ok cache_key ->
         Redis.get cache_key (redis w) = None ->
         Decorators.body func args kwargs = Ok PNone ->
         Decorators.wrapper key_pattern ttl func args kwargs w
         = (Ok PNone, Decorators.missed args kwargs w))
  /\ (forall (key_pattern : string) (ttl : option Z) (func : Decorators.pyfunc)
             (args : list value) (kwargs : list (string * value)) (w : World)
             (cache_key : string) (result : value) (serialized_data : string),
         cache_enabled (settings w) = true ->
         Decorators.format key_pattern kwargs = Ok cache_key ->
         Redis.get cache_key (redis w) = None ->
         Decorators.body func args kwargs = Ok result ->
         result <> PNone ->
         Decorators.encode result = Ok serialized_data ->
         0 < Decorators.ttl_or ttl (cache_default_ttl (settings w)) ->
         exists (w' : World),
           Decorators.wrapper key_pattern ttl func args kwargs w = (Ok result, w')
           /\ Redis.data (redis w') !! cache_key
              = Some {| Redis.payload := serialized_data;
                        Redis.ttl :=
                          Some (Decorators.ttl_or ttl (cache_default_ttl (settings w))) |}
           /\ monitor w' = CacheMonitor.record_miss (monitor w)
           /\ calls w' = calls w ++ [(args, kwargs)])
  /\ (forall (cls : string) (fields : list (string * value)),
         Decorators.encode (PModel cls fields)
         = Ok (Json.render Json.compact_style (PDict fields)))
  /\ (forall (models : list value),
         models <> [] ->
         forallb Decorators.is_model models = true ->
         Decorators.encode (PList models)
         = Ok (Json.render Json.python_style
                 (PList (map (fun m => PStr (Json.render Json.compact_style m)) models))))
  /\ (forall (t default_ttl : Z),
         Decorators.ttl_or None default_ttl = default_ttl
         /\ Decorators.ttl_or (Some 0) default_ttl = default_ttl
         /\ (t <> 0 -> Decorators.ttl_or (Some t) default_ttl = t)).
Proof.
  split; [exact wrapper_hit|].
  split; [intros cls cached_data; split; reflexivity|].
  split.
  { intros key_pattern ttl func args kwargs w cache_key Hon Hkey Hget Hbody.
    eapply wrapper_miss_none; eauto. now rewrite Hget. }
  split.
  { intros key_pattern ttl func args kwargs w cache_key result serialized_data
      Hon Hkey Hget Hbody Hnone Henc Httl.
    eexists. split.
    - eapply wrapper_miss_store; eauto. now rewrite Hget.
    - cbn [redis set_redis Redis.data monitor calls missed set_calls set_monitor].
      split; [apply lookup_insert_eq|]. split; reflexivity. }
  split; [intros cls fields; reflexivity|].
  split; [exact encode_model_list|].
  intros t default_ttl. split; [reflexivity|]. split; [reflexivity|].
  intros Ht. unfold ttl_or. apply Z.eqb_neq in Ht. now rewrite Ht.
Qed.

(** C2 on a first call of a function that returns a list with one model
    instance, on an empty store. *)
Lemma cache_wrapper_hit_and_miss_witness :
  exists (w' : World),
    Decorators.wrapper "tags:popular" None Examples.popular_tags [] []
      (Examples.fresh_world Examples.still_clock)
    = (Ok (PList [Examples.tag (PStr "rocq")]), w')
    /\ Redis.data (redis w') !! "tags:popular"
       = Some {| Redis.payload :=
                   Json.render Json.python_style
                     (PList [PStr (Json.render Json.compact_style
                                     (Examples.tag (PStr "rocq")))]);
                 Redis.ttl := Some (Decorators.ttl_or None 300) |}
    /\ monitor w' = CacheMonitor.record_miss CacheMonitor.initial
    /\ calls w' = [] ++ [([], [])].
Proof.
  apply (proj1 (proj2 (proj2 (proj2 cache_wrapper_hit_and_miss)))
           "tags:popular" None Examples.popular_tags [] []
           (Examples.fresh_world Examples.still_clock) "tags:popular"
           (PList [Examples.tag (PStr "rocq")])).
  - reflexivity.
  - reflexivity.
  - reflexivity.
  - reflexivity.
  - discriminate.
  - vm_compute. reflexivity.
  - vm_compute. reflexivity.
Defined.

(** C2 as stated fails: what is stored for a list of model instances is
    a JSON array whose item is a JSON string, not a JSON object. *)
Lemma cached_model_list_is_array_of_strings :
  exists (cached_data : string),
    Redis.get "tags:popular"
      (redis (snd (Decorators.wrapper "tags:popular" None Examples.popular_tags [] []
                     (Examples.fresh_world Examples.still_clock))))
    = Some cached_data
    /\ Json.loads cached_data
       = Ok (PList [PStr (Json.render Json.compact_style (Examples.tag (PStr "rocq")))])
    /\ ~ (exists objects : list (list (string * value)),
             Json.loads cached_data = Ok (PList (map PDict objects))).
Proof.
  eexists. split; [vm_compute; reflexivity|].
  split; [vm_compute; reflexivity|].
  intros [objects H]. vm_compute in H.
  destruct objects as [|o objects]; discriminate H.
Qed.

End DecoratorClaims.
Section KeyIgnoresPositionalArguments.

Import Decorators.

(** C9: the key is rendered from the keyword arguments alone.  So when a
    first call misses and stores its result, a second call with the same
    keyword arguments and any other positional arguments finds that
    entry: it is answered with the payload stored for the first call,
    decoded, and the function is not invoked for the second call. *)
Theorem cached_result_is_shared_across_positional_arguments
    (key_pattern : string) (ttl : option Z) (func : Decorators.pyfunc)
    (args1 args2 : list value) (kwargs : list (string * value)) (w : World)
    (cache_key : string) (result : value) (serialized_data : string) :
  cache_enabled (settings w) = true ->
  Decorators.format key_pattern kwargs = Ok cache_key ->
  Redis.get cache_key (redis w) = None ->
  Decorators.body func args1 kwargs = Ok result ->
  result <> PNone ->
  Decorators.encode result = Ok serialized_data ->
  0 < Decorators.ttl_or ttl (cache_default_ttl (settings w)) ->
  exists (w1 : World),
    Decorators.wrapper key_pattern ttl func args1 kwargs w = (Ok result, w1)
    /\ Redis.get cache_key (redis w1) = Some serialized_data
    /\ Decorators.wrapper key_pattern ttl func args2 kwargs w1
       = (Decorators.decode (Decorators.returns func) serialized_data,
          set_monitor (CacheMonitor.record_hit (monitor w1)) w1)
    /\ calls (snd (Decorators.wrapper key_pattern ttl func args2 kwargs w1))
       = calls w ++ [(args1, kwargs)].
Proof.
  intros Hon Hkey Hget Hbody Hnone Henc Httl.
  eexists. split.
  - eapply wrapper_miss_store; eauto. now rewrite Hget.
  - assert (Redis.get cache_key
              (redis (set_redis
                 {| Redis.data :=
                      <[cache_key := {| Redis.payload := serialized_data;
                                        Redis.ttl := Some (ttl_or ttl (cache_default_ttl (settings w))) |}]>
                        (Redis.data (redis w));
                    Redis.layout := Redis.place cache_key (Redis.layout (redis w)) |}
                 (missed args1 kwargs w)))
            = Some serialized_data) as Hstored.
    { unfold Redis.get. cbn [redis set_redis Redis.data].
      now rewrite lookup_insert_eq. }
    split; [exact Hstored|].
    pose proof (encode_nonempty _ _ Henc) as Hne.
    rewrite (wrapper_hit key_pattern ttl func args2 kwargs _ cache_key serialized_data);
      [split; reflexivity|exact Hon|exact Hkey|exact Hstored|exact Hne].
Qed.

(** C9 on a function whose result depends on its positional argument:
    called with x and then, under the same keyword arguments, with y, the
    second call returns the tag made for x. *)
Lemma cached_result_is_shared_across_positional_arguments_witness :
  exists (w1 : World),
    Decorators.wrapper "tag:{slug}" (Some 60) Examples.tag_of [PStr "x"] [("slug", PInt 7)]
      (Examples.fresh_world Examples.still_clock)
    = (Ok (Examples.tag (PStr "x")), w1)
    /\ Redis.get "tag:7" (redis w1)
       = Some (Json.render Json.compact_style (Examples.tag (PStr "x")))
    /\ Decorators.wrapper "tag:{slug}" (Some 60) Examples.tag_of [PStr "y"] [("slug", PInt 7)] w1
       = (Decorators.decode (Decorators.returns Examples.tag_of)
            (Json.render Json.compact_style (Examples.tag (PStr "x"))),
          set_monitor (CacheMonitor.record_hit (monitor w1)) w1)
    /\ calls (snd (Decorators.wrapper "tag:{slug}" (Some 60) Examples.tag_of [PStr "y"]
                     [("slug", PInt 7)] w1))
       = calls (Examples.fresh_world Examples.still_clock)
         ++ [([PStr "x"], [("slug", PInt 7)])].
Proof.
  apply (cached_result_is_shared_across_positional_arguments
           "tag:{slug}" (Some 60) Examples.tag_of [PStr "x"] [PStr "y"] [("slug", PInt 7)]
           (Examples.fresh_world Examples.still_clock) "tag:7" (Examples.tag (PStr "x"))).
  - reflexivity.
  - vm_compute. reflexivity.
  - reflexivity.
  - reflexivity.
  - discriminate.
  - reflexivity.
  - vm_compute. reflexivity.
Defined.

End KeyIgnoresPositionalArguments.
(** ** Store invariant *)

Section StoreFacts.

Lemma place_covers (k : string) (slots : list string) :
  k ∈ Redis.place k slots /\ forall j, j ∈ slots -> j ∈ Redis.place k slots.
Proof.
  unfold Redis.place. case_bool_decide as Hin.
  - split; [exact Hin|auto].
  - split; [apply elem_of_app; right; apply list_elem_of_singleton; reflexivity|].
    intros j Hj. apply elem_of_app. now left.
Qed.

Lemma empty_well_formed : Redis.well_formed Redis.empty.
Proof. intros k [e He]. cbn in He. now rewrite lookup_empty in He. Qed.

(** SETEX keeps every key in a slot. *)
Lemma setex_well_formed (k v : string) (seconds : Z) (r r' : Redis.t) :
  Redis.well_formed r -> Redis.setex k seconds v r = Ok r' -> Redis.well_formed r'.
Proof.
  unfold Redis.setex. intros Hwf H.
  destruct (seconds <=? 0); [discriminate H|]. injection H as <-.
  intros j Hj. cbn [Redis.data Redis.layout] in *.
  destruct (decide (k = j)) as [->|Hne].
  - exact (proj1 (place_covers j (Redis.layout r))).
  - rewrite lookup_insert_ne in Hj by exact Hne.
    apply (proj2 (place_covers k (Redis.layout r))). now apply Hwf.
Qed.

Lemma filled_from_well_formed (keys : list string) (r : Redis.t) :
  Redis.well_formed r ->
  Redis.well_formed
    (fold_left
       (fun r k => match Redis.setex k 60 "cached" r with
                   | Ok r' => r'
                   | _ => r
                   end) keys r).
Proof.
  revert r. induction keys as [|k keys IH]; intros r Hwf; [exact Hwf|].
  cbn [fold_left]. apply IH.
  destruct (Redis.setex k 60 "cached" r) as [r'| |] eqn:E; try exact Hwf.
  eapply setex_well_formed; eauto.
Qed.

Lemma filled_well_formed (keys : list string) : Redis.well_formed (Examples.filled keys).
Proof. apply filled_from_well_formed, empty_well_formed. Qed.

(** DEL removes exactly the keys it is given, and returns by how much
    the store shrank. *)
Lemma del_spec (keys : list string) (r : Redis.t) :
  exists (n : Z) (r' : Redis.t),
    Redis.del keys r = (n, r')
    /\ Redis.layout r' = Redis.layout r
    /\ (forall j, Redis.data r' !! j
                  = if bool_decide (j ∈ keys) then None else Redis.data r !! j)
    /\ n = Z.of_nat (size (Redis.data r)) - Z.of_nat (size (Redis.data r')).
Proof.
  revert r. induction keys as [|k keys IH]; intros r.
  - exists 0, r. cbn [Redis.del]. split; [reflexivity|]. split; [reflexivity|].
    split; [|lia].
    intros j. now rewrite bool_decide_eq_false_2 by apply not_elem_of_nil.
  - cbn [Redis.del]. destruct (Redis.data r !! k) as [e|] eqn:Hk.
    + destruct (IH {| Redis.data := delete k (Redis.data r); Redis.layout := Redis.layout r |})
        as (n & r' & Hdel & Hlay & Hlook & Hn).
      rewrite Hdel. exists (1 + n), r'. cbn [Redis.data Redis.layout] in *.
      split; [reflexivity|]. split; [exact Hlay|]. split.
      * intros j. rewrite Hlook. destruct (decide (j = k)) as [->|Hne].
        -- rewrite lookup_delete_eq. rewrite (bool_decide_eq_true_2 (k ∈ k :: keys))
             by (apply elem_of_cons; now left).
           now destruct (bool_decide (k ∈ keys)).
        -- rewrite lookup_delete_ne by congruence.
           assert (bool_decide (j ∈ k :: keys) = bool_decide (j ∈ keys)) as ->; [|reflexivity].
           apply bool_decide_ext. rewrite elem_of_cons. tauto.
      * rewrite map_size_delete_Some in Hn by (rewrite Hk; eauto).
        assert (size (Redis.data r) <> 0%nat).
        { apply map_size_ne_0_lookup_2 with k. rewrite Hk; eauto. }
        lia.
    + destruct (IH r) as (n & r' & Hdel & Hlay & Hlook & Hn).
      exists n, r'. split; [exact Hdel|]. split; [exact Hlay|]. split; [|exact Hn].
      intros j. rewrite Hlook. destruct (decide (j = k)) as [->|Hne].
      * rewrite Hk. now destruct (bool_decide (k ∈ keys)), (bool_decide (k ∈ k :: keys)).
      * assert (bool_decide (j ∈ k :: keys) = bool_decide (j ∈ keys)) as ->; [|reflexivity].
        apply bool_decide_ext. rewrite elem_of_cons. tauto.
Qed.

(** The keys one SCAN call returns. *)
Lemma scan_keys (cursor count : nat) (pattern : string) (r : Redis.t) (j : string) :
  j ∈ snd (Redis.scan cursor pattern count r)
  <-> j ∈ take count (drop cursor (Redis.layout r))
      /\ is_Some (Redis.data r !! j) /\ Redis.glob pattern j = true.
Proof.
  unfold Redis.scan. cbn [snd].
  rewrite list_elem_of_In, filter_In, <- list_elem_of_In.
  rewrite andb_true_iff, bool_decide_eq_true. tauto.
Qed.

End StoreFacts.
(** ** Cache invalidation *)

Section InvalidationFacts.

Import Invalidation.

(** One pattern: from cursor [c] on, with enough rounds left the loop
    ends, having deleted the matching keys of the slots not yet visited,
    and having counted them. *)
Lemma scan_loop_spec (pattern : string) (s : Settings) (m : CacheMonitor.t)
    (cl : nat -> Q) (t : nat) (cs : list (list value * list (string * value))) :
  forall (fuel c : nat) (acc : Z) (r : Redis.t),
    (length (Redis.layout r) - c < fuel * 100)%nat ->
    exists (r' : Redis.t),
      scan_loop fuel pattern c acc
        {| redis := r; settings := s; monitor := m; clock := cl; ticks := t; calls := cs |}
      = (Ok (acc + (Z.of_nat (size (Redis.data r)) - Z.of_nat (size (Redis.data r')))),
         {| redis := r'; settings := s; monitor := m; clock := cl; ticks := t; calls := cs |})
      /\ Redis.layout r' = Redis.layout r
      /\ (forall j, Redis.data r' !! j
                    = if bool_decide (j ∈ drop c (Redis.layout r)) && Redis.glob pattern j
                      then None else Redis.data r !! j).
Proof.
  induction fuel as [|fuel IH]; intros c acc r Hfuel; [lia|].
  cbn [scan_loop]. unfold mbind at 1, M_bind at 1. unfold redis_scan. cbn [redis].
  pose proof (scan_keys c 100 pattern r) as Hkeys.
  unfold Redis.scan in *. cbn [snd] in Hkeys.
  set (keys := List.filter
                 (fun k => bool_decide (is_Some (Redis.data r !! k)) && Redis.glob pattern k)
                 (take 100 (drop c (Redis.layout r)))) in *.
  destruct (del_spec keys r) as (n & r1 & Hdel & Hlay1 & Hlook1 & Hn).
  assert (forall j, Redis.data r1 !! j
                    = if bool_decide (j ∈ take 100 (drop c (Redis.layout r)))
                         && Redis.glob pattern j
                      then None else Redis.data r !! j) as Hlook1'.
  { intros j. rewrite Hlook1. case_bool_decide as Hj.
    - apply Hkeys in Hj as (Hin & _ & Hglob).
      now rewrite (bool_decide_eq_true_2 _ Hin), Hglob.
    - destruct (bool_decide (j ∈ take 100 (drop c (Redis.layout r)))) eqn:Hin;
        [|reflexivity].
      destruct (Redis.glob pattern j) eqn:Hglob; [|reflexivity]. cbn [andb].
      destruct (Redis.data r !! j) as [e|] eqn:Hj'; [|reflexivity].
      exfalso. apply Hj, Hkeys. apply bool_decide_eq_true in Hin. eauto. }
  assert ((match keys with
           | _ :: _ => n0 ← redis_delete keys; mret (acc + n0)
           | [] => mret acc
           end)
            {| redis := r; settings := s; monitor := m; clock := cl; ticks := t; calls := cs |}
          = (Ok (acc + n),
             {| redis := r1; settings := s; monitor := m; clock := cl; ticks := t;
                calls := cs |})) as Hbody.
  { destruct keys as [|k keys'] eqn:Ek.
    - cbn [Redis.del] in Hdel. injection Hdel as <- <-.
      unfold mret, M_ret. repeat f_equal. lia.
    - unfold mbind, M_bind, redis_delete. cbn [redis]. rewrite Hdel. reflexivity. }
  unfold mbind at 1, M_bind at 1. rewrite Hbody.
  destruct (Nat.ltb_spec (c + 100) (length (Redis.layout r))) as [Hmore|Hlast].
  - assert (((c + 100)%nat =? 0)%nat = false) as -> by (apply Nat.eqb_neq; lia).
    destruct (IH (c + 100)%nat (acc + n) r1) as (r' & Hrun & Hlay & Hlook).
    { rewrite Hlay1. lia. }
    exists r'. rewrite Hrun. split; [f_equal; f_equal; lia|].
    split; [congruence|].
    intros j. rewrite Hlook, Hlook1', Hlay1.
    assert (bool_decide (j ∈ drop c (Redis.layout r))
            = bool_decide (j ∈ take 100 (drop c (Redis.layout r)))
              || bool_decide (j ∈ drop (c + 100) (Redis.layout r))) as ->.
    { rewrite <- bool_decide_or. apply bool_decide_ext.
      replace (drop (c + 100) (Redis.layout r)) with (drop 100 (drop c (Redis.layout r)))
        by (rewrite drop_drop; f_equal; lia).
      rewrite <- elem_of_app. now rewrite take_drop. }
    destruct (bool_decide (j ∈ drop (c + 100) (Redis.layout r))),
             (bool_decide (j ∈ take 100 (drop c (Redis.layout r)))),
             (Redis.glob pattern j); reflexivity.
  - cbn [Nat.eqb]. unfold mret, M_ret.
    exists r1. split; [f_equal; f_equal; lia|]. split; [exact Hlay1|].
    intros j. rewrite Hlook1'.
    rewrite take_ge; [reflexivity|]. rewrite length_drop. lia.
Qed.

(** All patterns, one after the other. *)
Lemma each_pattern_spec (fuel : nat) (s : Settings) (m : CacheMonitor.t)
    (cl : nat -> Q) (t : nat) (cs : list (list value * list (string * value))) :
  forall (patterns : list string) (acc : Z) (r : Redis.t),
    (length (Redis.layout r) < fuel * 100)%nat ->
    exists (r' : Redis.t),
      each_pattern fuel patterns acc
        {| redis := r; settings := s; monitor := m; clock := cl; ticks := t; calls := cs |}
      = (Ok (acc + (Z.of_nat (size (Redis.data r)) - Z.of_nat (size (Redis.data r')))),
         {| redis := r'; settings := s; monitor := m; clock := cl; ticks := t; calls := cs |})
      /\ Redis.layout r' = Redis.layout r
      /\ (forall j, Redis.data r' !! j
                    = if bool_decide (j ∈ Redis.layout r) && matches_any patterns j
                      then None else Redis.data r !! j).
Proof.
  induction patterns as [|pattern rest IH]; intros acc r Hfuel.
  - exists r. cbn [each_pattern]. unfold mret, M_ret.
    split; [f_equal; f_equal; lia|]. split; [reflexivity|].
    intros j. cbn [matches_any existsb]. now rewrite andb_false_r.
  - cbn [each_pattern]. unfold mbind at 1, M_bind at 1.
    destruct (scan_loop_spec pattern s m cl t cs fuel 0%nat acc r)
      as (r1 & Hrun1 & Hlay1 & Hlook1); [lia|].
    rewrite Hrun1.
    destruct (IH (acc + (Z.of_nat (size (Redis.data r)) - Z.of_nat (size (Redis.data r1)))) r1)
      as (r' & Hrun & Hlay & Hlook); [rewrite Hlay1; exact Hfuel|].
    exists r'. rewrite Hrun. split; [f_equal; f_equal; lia|].
    split; [congruence|].
    intros j. rewrite Hlook, Hlook1, Hlay1, drop_0. cbn [matches_any existsb].
    fold (matches_any rest j).
    destruct (bool_decide (j ∈ Redis.layout r)), (Redis.glob pattern j),
             (matches_any rest j); reflexivity.
Qed.

End InvalidationFacts.
Section InvalidationClaims.

Import Invalidation.

(** C3: on a store whose keys all have a slot, [invalidate_cache] ends
    for every list of patterns as soon as the loop of each pattern may
    run for more rounds than the slots fill batches of 100 (each loop
    stops when SCAN hands back cursor 0): every key that matches one of
    the patterns is deleted, however many batches the matching keys
    span, every other key is kept, and the number returned is the number
    of keys deleted.  When no key matches, nothing is deleted and the
    number is 0. *)
Theorem invalidate_cache_deletes_every_match
    (patterns : list string) (w : World) (fuel : nat) :
  Redis.well_formed (redis w) ->
  (length (Redis.layout (redis w)) < fuel * 100)%nat ->
  exists (count : Z) (w' : World),
    Invalidation.invalidate_cache fuel patterns w = (Ok count, w')
    /\ (forall k, Redis.data (redis w') !! k
                  = if Invalidation.matches_any patterns k then None
                    else Redis.data (redis w) !! k)
    /\ count
       = Z.of_nat (size (filter (fun kv : string * Redis.entry =>
                                   Invalidation.matches_any patterns kv.1 = true)
                           (Redis.data (redis w))))
    /\ count = Z.of_nat (size (Redis.data (redis w)))
               - Z.of_nat (size (Redis.data (redis w')))
    /\ ((forall k, is_Some (Redis.data (redis w) !! k) ->
                   Invalidation.matches_any patterns k = false) ->
        count = 0 /\ Redis.data (redis w') = Redis.data (redis w)).
Proof.
  destruct w as [r s m cl t cs]. cbn [redis]. intros Hwf Hfuel.
  destruct (each_pattern_spec fuel s m cl t cs patterns 0 r Hfuel)
    as (r' & Hrun & Hlay & Hlook).
  unfold invalidate_cache. rewrite Hrun. eexists _, _. split; [reflexivity|].
  cbn [redis].
  assert (forall k, Redis.data r' !! k
                    = if matches_any patterns k then None else Redis.data r !! k) as Hafter.
  { intros k. rewrite Hlook. case_bool_decide as Hin; [reflexivity|].
    cbn [andb]. destruct (Redis.data r !! k) as [e|] eqn:Hk.
    - exfalso. apply Hin, Hwf. rewrite Hk. eauto.
    - now destruct (matches_any patterns k). }
  assert (Redis.data r'
          = filter (fun kv : string * Redis.entry => ~ matches_any patterns kv.1 = true)
              (Redis.data r)) as Hfilter.
  { apply map_eq. intros k. apply option_eq. intros e.
    rewrite map_lookup_filter_Some, Hafter. cbn [fst].
    destruct (matches_any patterns k); split;
      [discriminate|intros [_ H]; now contradiction H|intros H; now split|now intros [H _]]. }
  assert (size (Redis.data r)
          = (size (filter (fun kv : string * Redis.entry => matches_any patterns kv.1 = true)
                     (Redis.data r))
             + size (Redis.data r'))%nat) as Hsize.
  { rewrite Hfilter.
    rewrite <- map_size_disj_union by apply map_disjoint_filter_complement.
    now rewrite map_filter_union_complement. }
  split; [exact Hafter|]. split; [lia|]. split; [lia|].
  intros Hnone.
  assert (Redis.data r' = Redis.data r) as Hsame.
  { apply map_eq. intros k. rewrite Hafter.
    destruct (Redis.data r !! k) as [e|] eqn:Hk.
    - rewrite Hnone; [reflexivity|]. rewrite Hk. eauto.
    - now destruct (matches_any patterns k). }
  split; [rewrite Hsame; lia|exact Hsame].
Qed.

(** C3 on a store of 252 keys, 250 of which match the pattern and fill
    more than two batches of 100: three rounds per pattern are enough. *)
Lemma invalidate_cache_deletes_every_match_witness :
  exists (count : Z) (w' : World),
    Invalidation.invalidate_cache 3 ["article:*"; "nothing:*"] Examples.crowded_world
    = (Ok count, w')
    /\ (forall k, Redis.data (redis w') !! k
                  = if Invalidation.matches_any ["article:*"; "nothing:*"] k then None
                    else Redis.data (redis Examples.crowded_world) !! k)
    /\ count
       = Z.of_nat (size (filter (fun kv : string * Redis.entry =>
                                   Invalidation.matches_any ["article:*"; "nothing:*"] kv.1
                                   = true)
                           (Redis.data (redis Examples.crowded_world))))
    /\ count = Z.of_nat (size (Redis.data (redis Examples.crowded_world)))
               - Z.of_nat (size (Redis.data (redis w')))
    /\ ((forall k, is_Some (Redis.data (redis Examples.crowded_world) !! k) ->
                   Invalidation.matches_any ["article:*"; "nothing:*"] k = false) ->
        count = 0 /\ Redis.data (redis w') = Redis.data (redis Examples.crowded_world)).
Proof.
  apply (invalidate_cache_deletes_every_match
           ["article:*"; "nothing:*"] Examples.crowded_world 3).
  - apply filled_well_formed.
  - vm_compute. lia.
Defined.

(** The same run, computed: 250 keys are deleted over three batches,
    the two keys of other kinds stay, and a pattern that matches nothing
    deletes nothing. *)
Example invalidate_crowded_store :
  fst (Invalidation.invalidate_cache 3 ["article:*"; "nothing:*"] Examples.crowded_world)
  = Ok 250
  /\ size (Redis.data (redis (snd (Invalidation.invalidate_cache 3 ["article:*"; "nothing:*"]
                                      Examples.crowded_world)))) = 2%nat
  /\ fst (Invalidation.invalidate_cache 3 ["nothing:*"] Examples.crowded_world) = Ok 0
  /\ fst (Invalidation.invalidate_cache 2 ["article:*"] Examples.crowded_world) = OutOfFuel.
Proof. repeat split; vm_compute; reflexivity. Qed.

End InvalidationClaims.

(** * Further properties of the sources *)

(** ** Cache keys: which parameters a key determines *)

Section KeyText.

Lemma contains_char_append (c : ascii) (s t : string) :
  Py.contains_char c (s +:+ t) = Py.contains_char c s || Py.contains_char c t.
Proof.
  induction s as [|a s IH]; [reflexivity|].
  rewrite append_cons. cbn [Py.contains_char]. rewrite IH.
  now destruct (Ascii.eqb a c).
Qed.

Lemma pretty_N_go_no_colon (x : N) (s : string) :
  Py.contains_char ":" s = false -> Py.contains_char ":" (pretty_N_go x s) = false.
Proof.
  revert s. induction (N.lt_wf_0 x) as [x _ IH]; intros s Hs.
  destruct (N.eq_dec x 0%N) as [->|Hx].
  - now rewrite pretty_N_go_0.
  - rewrite pretty_N_go_step by lia. apply IH; [apply N.div_lt; lia|].
    cbn [Py.contains_char]. rewrite Hs.
    unfold pretty_N_char. now repeat case_match.
Qed.

(** The decimal text of an integer holds no colon. *)
Lemma str_int_no_colon (n : Z) : Py.contains_char ":" (Py.str_int n) = false.
Proof.
  assert (forall p : positive, Py.contains_char ":" (pretty p) = false) as Hpos.
  { intros p. unfold pretty, pretty_positive, pretty, pretty_N.
    destruct (decide (N.pos p = 0%N)); [reflexivity|].
    now apply pretty_N_go_no_colon. }
  unfold Py.str_int, pretty, pretty_Z. destruct n as [|p|p].
  - reflexivity.
  - apply Hpos.
  - rewrite contains_char_append, Hpos. reflexivity.
Qed.

Lemma str_int_inj (m n : Z) : Py.str_int m = Py.str_int n -> m = n.
Proof. apply pretty_Z_inj. Qed.

(** A text is cut in one way only at its last colon. *)
Lemma split_at_last_colon (x x' t t' : string) :
  Py.contains_char ":" t = false ->
  Py.contains_char ":" t' = false ->
  x +:+ String ":" t = x' +:+ String ":" t' ->
  x = x' /\ t = t'.
Proof.
  intros Ht Ht'. revert x'. induction x as [|a x IH]; intros [|b x'] H.
  - split; [reflexivity|]. now injection H.
  - exfalso. change (String ":" t = String b (x' +:+ String ":" t')) in H.
    injection H as _ H.
    rewrite H, contains_char_append in Ht. cbn [Py.contains_char] in Ht.
    rewrite Ascii.eqb_refl in Ht. now rewrite orb_true_r in Ht.
  - exfalso. change (String a (x +:+ String ":" t) = String ":" t') in H.
    injection H as _ H.
    rewrite <- H, contains_char_append in Ht'. cbn [Py.contains_char] in Ht'.
    rewrite Ascii.eqb_refl in Ht'. now rewrite orb_true_r in Ht'.
  - rewrite !append_cons in H. injection H as -> H.
    destruct (IH _ H) as [-> ->]. now split.
Qed.

(** The page and limit suffix of a key determines what precedes it, the
    page and the limit. *)
Lemma paged_suffix_inj (a a' : string) (page page' limit limit' : Z) :
  a +:+ ":page:" +:+ Py.str_int page +:+ ":limit:" +:+ Py.str_int limit
  = a' +:+ ":page:" +:+ Py.str_int page' +:+ ":limit:" +:+ Py.str_int limit' ->
  a = a' /\ page = page' /\ limit = limit'.
Proof.
  intros H.
  assert (forall (b : string) (p l : Z),
             b +:+ ":page:" +:+ Py.str_int p +:+ ":limit:" +:+ Py.str_int l
             = (b +:+ ":page:" +:+ Py.str_int p +:+ ":limit") +:+ String ":" (Py.str_int l))
    as E1.
  { intros b p l. now rewrite !append_assoc. }
  rewrite !E1 in H.
  apply split_at_last_colon in H as [H Hl]; try apply str_int_no_colon.
  assert (forall (b : string) (p : Z),
             b +:+ ":page:" +:+ Py.str_int p +:+ ":limit"
             = ((b +:+ ":page") +:+ String ":" (Py.str_int p)) +:+ ":limit") as E2.
  { intros b p. now rewrite !append_assoc. }
  rewrite !E2 in H. apply append_inv_tail in H.
  apply split_at_last_colon in H as [H Hp]; try apply str_int_no_colon.
  apply append_inv_tail in H.
  repeat split; [exact H|now apply str_int_inj..].
Qed.

End KeyText.

Section KeyInjectivity.

Import CacheKeys.

(** X1: two calls of [articles_list] give the same key exactly when
    they have the same page, the same limit and choose the same filter,
    whatever text the filter values hold. *)
Theorem articles_list_key_determines_page_limit_filter
    (page limit page' limit' : Z) (tag author favorited tag' author' favorited' : option string) :
  CacheKeys.articles_list page limit tag author favorited
  = CacheKeys.articles_list page' limit' tag' author' favorited'
  <-> page = page' /\ limit = limit'
      /\ CacheKeys.chosen_filter tag author favorited
         = CacheKeys.chosen_filter tag' author' favorited'.
Proof.
  rewrite !articles_list_shape. split.
  - intros H.
    assert (forall (seg : string) (p l : Z),
               "articles:list:" +:+ seg +:+ ":page:" +:+ Py.str_int p
                 +:+ ":limit:" +:+ Py.str_int l
               = ("articles:list:" +:+ seg) +:+ ":page:" +:+ Py.str_int p
                   +:+ ":limit:" +:+ Py.str_int l) as E.
    { intros seg p l. now rewrite !append_assoc. }
    rewrite !E in H. apply paged_suffix_inj in H as (H & -> & ->).
    apply append_inv_head in H. apply filter_segment_inj in H. auto.
  - intros (-> & -> & ->). reflexivity.
Qed.

(** X2: the feed key and the comments key determine all their
    parameters: the username or slug, the page and the limit. *)
Theorem feed_and_comments_keys_are_injective
    (name name' : string) (page limit page' limit' : Z) :
  (CacheKeys.articles_feed name page limit = CacheKeys.articles_feed name' page' limit'
   <-> name = name' /\ page = page' /\ limit = limit')
  /\ (CacheKeys.comments_list name page limit = CacheKeys.comments_list name' page' limit'
      <-> name = name' /\ page = page' /\ limit = limit').
Proof.
  unfold articles_feed, comments_list. split; split.
  - intros H.
    assert (forall (u : string) (p l : Z),
               "articles:list:feed:" +:+ u +:+ ":page:" +:+ Py.str_int p
                 +:+ ":limit:" +:+ Py.str_int l
               = ("articles:list:feed:" +:+ u) +:+ ":page:" +:+ Py.str_int p
                   +:+ ":limit:" +:+ Py.str_int l) as E.
    { intros u p l. now rewrite !append_assoc. }
    rewrite !E in H. apply paged_suffix_inj in H as (H & -> & ->).
    apply append_inv_head in H. auto.
  - intros (-> & -> & ->). reflexivity.
  - intros H.
    assert (forall (u : string) (p l : Z),
               "comments:article:" +:+ u +:+ ":page:" +:+ Py.str_int p
                 +:+ ":limit:" +:+ Py.str_int l
               = ("comments:article:" +:+ u) +:+ ":page:" +:+ Py.str_int p
                   +:+ ":limit:" +:+ Py.str_int l) as E.
    { intros u p l. now rewrite !append_assoc. }
    rewrite !E in H. apply paged_suffix_inj in H as (H & -> & ->).
    apply append_inv_head in H. auto.
  - intros (-> & -> & ->). reflexivity.
Qed.

(** X3: a feed key is never the key of an articles list, for any
    parameters of the two. *)
Theorem feed_key_is_never_a_list_key
    (username : string) (page limit page' limit' : Z) (tag author favorited : option string) :
  CacheKeys.articles_feed username page limit
  <> CacheKeys.articles_list page' limit' tag author favorited.
Proof.
  rewrite articles_list_shape. unfold articles_feed. intros H.
  apply (append_inv_head "articles:list:") in H.
  destruct (chosen_filter tag author favorited); cbn [filter_segment] in H;
    rewrite ?append_cons in H; discriminate H.
Qed.

(** X4: the key of an article's detail does not tell the slug from
    the username: the key without a username of a slug that holds the
    text :user: is the key with a username of a shorter slug.  Without a
    username (or with an empty one) the key determines the slug. *)
Theorem article_detail_key_is_ambiguous
    (slug slug' : string) (c : ascii) (username : string) :
  CacheKeys.article_detail (slug +:+ ":user:" +:+ String c username) None
  = CacheKeys.article_detail slug (Some (String c username))
  /\ CacheKeys.article_detail slug (Some "") = CacheKeys.article_detail slug None
  /\ (CacheKeys.article_detail slug None = CacheKeys.article_detail slug' None
      <-> slug = slug').
Proof.
  unfold article_detail. cbn [Py.truthy Py.truthy_str].
  split; [reflexivity|]. split; [reflexivity|]. split.
  - apply append_inv_head.
  - now intros ->.
Qed.

End KeyInjectivity.

(** ** Invalidation: what a pattern reaches *)

Section PatternFacts.

(** A lone star matches every key, and the pattern of the list keys
    every key that starts as they do. *)
Lemma glob_star (s : string) : Redis.glob "*" s = true.
Proof. reflexivity. Qed.

Lemma glob_list_prefix (rest : string) :
  Redis.glob "articles:list:*" ("articles:list:" +:+ rest) = true.
Proof. destruct rest; reflexivity. Qed.

(** What [invalidate_cache] leaves in a store whose keys all have a
    slot. *)
Lemma invalidate_cache_effect (patterns : list string) (fuel : nat) (w : World) :
  Redis.well_formed (redis w) ->
  (length (Redis.layout (redis w)) < fuel * 100)%nat ->
  exists (count : Z) (w' : World),
    Invalidation.invalidate_cache fuel patterns w = (Ok count, w')
    /\ (forall k, Redis.data (redis w') !! k
                  = if Invalidation.matches_any patterns k then None
                    else Redis.data (redis w) !! k)
    /\ Redis.layout (redis w') = Redis.layout (redis w)
    /\ settings w' = settings w /\ monitor w' = monitor w /\ calls w' = calls w
    /\ clock w' = clock w /\ ticks w' = ticks w.
Proof.
  destruct w as [r s m cl t cs]. cbn [redis]. intros Hwf Hfuel.
  destruct (each_pattern_spec fuel s m cl t cs patterns 0 r Hfuel)
    as (r' & Hrun & Hlay & Hlook).
  unfold Invalidation.invalidate_cache. rewrite Hrun.
  eexists _, _. split; [reflexivity|]. cbn.
  split; [|repeat split; exact Hlay].
  intros k. rewrite Hlook. case_bool_decide as Hin; [reflexivity|].
  cbn [andb]. destruct (Redis.data r !! k) as [e|] eqn:Hk.
  - exfalso. apply Hin, Hwf. rewrite Hk. eauto.
  - now destruct (Invalidation.matches_any patterns k).
Qed.

End PatternFacts.

Section InvalidationReach.

Import CacheKeys.

(** X5: invalidating the pattern [articles:list:*] removes every
    articles-list key and every feed key, for all their parameters, and
    leaves the keys of article details, comments, profiles and tags as
    they were. *)
Theorem list_pattern_clears_lists_and_feeds_only (w : World) (fuel : nat) :
  Redis.well_formed (redis w) ->
  (length (Redis.layout (redis w)) < fuel * 100)%nat ->
  exists (count : Z) (w' : World),
    Invalidation.invalidate_cache fuel ["articles:list:*"] w = (Ok count, w')
    /\ (forall page limit tag author favorited,
           Redis.get (CacheKeys.articles_list page limit tag author favorited) (redis w')
           = None)
    /\ (forall username page limit,
           Redis.get (CacheKeys.articles_feed username page limit) (redis w') = None)
    /\ (forall slug username,
           Redis.get (CacheKeys.article_detail slug username) (redis w')
           = Redis.get (CacheKeys.article_detail slug username) (redis w))
    /\ (forall slug page limit,
           Redis.get (CacheKeys.comments_list slug page limit) (redis w')
           = Redis.get (CacheKeys.comments_list slug page limit) (redis w))
    /\ (forall username,
           Redis.get (CacheKeys.user_profile username) (redis w')
           = Redis.get (CacheKeys.user_profile username) (redis w))
    /\ Redis.get CacheKeys.tags_all (redis w') = Redis.get CacheKeys.tags_all (redis w).
Proof.
  intros Hwf Hfuel.
  destruct (invalidate_cache_effect ["articles:list:*"] fuel w Hwf Hfuel)
    as (count & w' & Hrun & Hlook & _).
  exists count, w'. split; [exact Hrun|].
  assert (forall k, Redis.glob "articles:list:*" k = true ->
                    Redis.get k (redis w') = None) as Hgone.
  { intros k Hk. unfold Redis.get. rewrite Hlook.
    cbn [Invalidation.matches_any existsb]. now rewrite Hk. }
  assert (forall k, Redis.glob "articles:list:*" k = false ->
                    Redis.get k (redis w') = Redis.get k (redis w)) as Hkept.
  { intros k Hk. unfold Redis.get. rewrite Hlook.
    cbn [Invalidation.matches_any existsb]. now rewrite Hk. }
  split; [|split; [|split; [|split; [|split]]]].
  - intros page limit tag author favorited. apply Hgone.
    rewrite articles_list_shape.
    apply glob_list_prefix.
  - intros username page limit. apply Hgone. unfold articles_feed.
    match goal with
    | |- Redis.glob _ ("articles:list:feed:" +:+ ?rest) = true =>
        apply (glob_list_prefix ("feed:" +:+ rest))
    end.
  - intros slug username. apply Hkept. unfold article_detail.
    destruct (Py.truthy username); reflexivity.
  - intros slug page limit. apply Hkept. reflexivity.
  - intros username. apply Hkept. reflexivity.
  - apply Hkept. reflexivity.
Qed.

(** X5 on a store that holds a list key, a feed key, a detail key and
    the tags key. *)
Lemma list_pattern_clears_lists_and_feeds_only_witness :
  exists (count : Z) (w' : World),
    Invalidation.invalidate_cache 1 ["articles:list:*"] Examples.listing_world = (Ok count, w')
    /\ (forall page limit tag author favorited,
           Redis.get (CacheKeys.articles_list page limit tag author favorited) (redis w')
           = None)
    /\ (forall username page limit,
           Redis.get (CacheKeys.articles_feed username page limit) (redis w') = None)
    /\ (forall slug username,
           Redis.get (CacheKeys.article_detail slug username) (redis w')
           = Redis.get (CacheKeys.article_detail slug username) (redis Examples.listing_world))
    /\ (forall slug page limit,
           Redis.get (CacheKeys.comments_list slug page limit) (redis w')
           = Redis.get (CacheKeys.comments_list slug page limit) (redis Examples.listing_world))
    /\ (forall username,
           Redis.get (CacheKeys.user_profile username) (redis w')
           = Redis.get (CacheKeys.user_profile username) (redis Examples.listing_world))
    /\ Redis.get CacheKeys.tags_all (redis w')
       = Redis.get CacheKeys.tags_all (redis Examples.listing_world).
Proof.
  apply (list_pattern_clears_lists_and_feeds_only Examples.listing_world 1).
  - apply filled_well_formed.
  - vm_compute. lia.
Defined.

End InvalidationReach.

Section InvalidationAgain.

Import Invalidation.

(** X6: invalidation is idempotent: run again with the same patterns
    right after, it deletes nothing, returns 0 and leaves the world as
    the first run left it. *)
Theorem invalidate_cache_twice_deletes_nothing_more
    (patterns : list string) (w : World) (fuel : nat) :
  (length (Redis.layout (redis w)) < fuel * 100)%nat ->
  exists (count : Z) (w' : World),
    Invalidation.invalidate_cache fuel patterns w = (Ok count, w')
    /\ Invalidation.invalidate_cache fuel patterns w' = (Ok 0, w').
Proof.
  destruct w as [r s m cl t cs]. cbn [redis]. intros Hfuel.
  destruct (each_pattern_spec fuel s m cl t cs patterns 0 r Hfuel)
    as (r1 & Hrun1 & Hlay1 & Hlook1).
  destruct (each_pattern_spec fuel s m cl t cs patterns 0 r1)
    as (r2 & Hrun2 & Hlay2 & Hlook2); [now rewrite Hlay1|].
  unfold invalidate_cache. rewrite Hrun1. eexists _, _. split; [reflexivity|].
  rewrite Hrun2.
  assert (r2 = r1) as ->.
  { destruct r1 as [d1 l1], r2 as [d2 l2]. cbn [Redis.data Redis.layout] in *.
    f_equal; [|congruence].
    apply map_eq. intros j. rewrite Hlook2, Hlook1, Hlay1.
    now destruct (bool_decide (j ∈ Redis.layout r) && matches_any patterns j). }
  f_equal. f_equal. lia.
Qed.

(** X6 on the store of 252 keys. *)
Lemma invalidate_cache_twice_deletes_nothing_more_witness :
  exists (count : Z) (w' : World),
    Invalidation.invalidate_cache 3 ["article:*"] Examples.crowded_world = (Ok count, w')
    /\ Invalidation.invalidate_cache 3 ["article:*"] w' = (Ok 0, w').
Proof.
  apply (invalidate_cache_twice_deletes_nothing_more ["article:*"] Examples.crowded_world 3).
  vm_compute. lia.
Defined.

End InvalidationAgain.

(** ** Integers written and read back *)

Section IntegerRoundTrip.

Lemma digit_val_pretty_N_char (m : N) :
  (m < 10)%N -> Py.digit_val (pretty_N_char m) = Some (Z.of_N m).
Proof.
  intros Hm.
  assert (m = 0 \/ m = 1 \/ m = 2 \/ m = 3 \/ m = 4 \/ m = 5 \/ m = 6 \/ m = 7
          \/ m = 8 \/ m = 9)%N as H by lia.
  repeat (destruct H as [->|H]; [reflexivity|]). now subst.
Qed.

(** The digits [pretty_N_go] writes in front of a text are read back in
    front of the digits of that text, with their value and no leading
    zero. *)
Lemma read_digits_pretty_N_go (x : N) :
  forall (s : string) (ds : list Z) (rest : string),
    Py.read_digits s = (ds, rest) ->
    exists dx : list Z,
      Py.read_digits (pretty_N_go x s) = (dx ++ ds, rest)
      /\ (forall acc, fold_left (fun acc d => 10 * acc + d) dx acc
                      = acc * 10 ^ Z.of_nat (length dx) + Z.of_N x)
      /\ match dx with
         | [] => x = 0%N
         | d :: _ => d <> 0
         end.
Proof.
  induction (N.lt_wf_0 x) as [x _ IH]; intros s ds rest Hs.
  destruct (N.eq_dec x 0%N) as [->|Hx].
  - exists []. rewrite pretty_N_go_0. split; [exact Hs|]. split; [|reflexivity].
    intros acc. cbn. lia.
  - rewrite pretty_N_go_step by lia.
    assert (x `mod` 10 < 10)%N as Hm by (apply N.mod_lt; lia).
    assert (Py.read_digits (String (pretty_N_char (x `mod` 10)) s)
            = (Z.of_N (x `mod` 10) :: ds, rest)) as Hs'.
    { cbn [Py.read_digits]. rewrite (digit_val_pretty_N_char _ Hm). now rewrite Hs. }
    assert (x `div` 10 < x)%N as Hlt by (apply N.div_lt; lia).
    destruct (IH (x `div` 10)%N Hlt _ _ _ Hs') as (dx & Hread & Hval & Hlead).
    exists (dx ++ [Z.of_N (x `mod` 10)]). split; [|split].
    + rewrite Hread. now rewrite <- app_assoc.
    + intros acc. rewrite fold_left_app. cbn [fold_left]. rewrite Hval.
      rewrite length_app. cbn [length]. rewrite Nat2Z.inj_add, Z.pow_add_r by lia.
      pose proof (N.div_mod x 10) as Hdm.
      assert (Z.of_N x = 10 * Z.of_N (x `div` 10) + Z.of_N (x `mod` 10)) as -> by lia.
      change (10 ^ Z.of_nat 1) with 10. ring.
    + destruct dx as [|d dx]; [|exact Hlead].
      cbn [app]. pose proof (N.div_mod x 10) as Hdm. lia.
Qed.

(** [int(str(n))] is [n], and the decimal text of an integer is
    what the store accepts as an integer with the same value. *)
Theorem int_of_str_of_str_int (n : Z) :
  Py.int_of_str (Py.str_int n) = Ok n /\ Py.canonical_int (Py.str_int n) = Some n.
Proof.
  assert (Py.canonical_int (Py.str_int n) = Some n) as H;
    [|split; [now apply int_of_str_canonical|exact H]].
  assert (forall p : positive,
             exists d ds,
               Py.read_digits (pretty p) = (d :: ds, "")
               /\ d <> 0
               /\ Py.digits_value (d :: ds) = Z.pos p) as Hpos.
  { intros p. unfold pretty, pretty_positive, pretty, pretty_N.
    destruct (decide (N.pos p = 0%N)); [discriminate|].
    destruct (read_digits_pretty_N_go (N.pos p) "" [] "" eq_refl) as (dx & Hread & Hval & Hlead).
    rewrite app_nil_r in Hread.
    destruct dx as [|d dx]; [discriminate Hlead|].
    exists d, dx. split; [exact Hread|]. split; [exact Hlead|].
    unfold Py.digits_value. rewrite Hval. lia. }
  assert (forall (text : string) (d : Z) (ds : list Z) (v : Z) (neg : bool),
             Py.read_digits text = (d :: ds, "") -> d <> 0 ->
             Py.digits_value (d :: ds) = v ->
             match Py.read_digits text with
             | (d :: ds, EmptyString) =>
                 match ds with
                 | _ :: _ => if d =? 0 then None
                             else Some (if neg then - Py.digits_value (d :: ds)
                                        else Py.digits_value (d :: ds))
                 | [] => Some (if neg then - d else d)
                 end
             | _ => None
             end = Some (if neg then - v else v)) as Hbody.
  { intros text d ds v neg Hread Hd Hv. rewrite Hread.
    destruct ds as [|d' ds].
    - unfold Py.digits_value in Hv. cbn [fold_left] in Hv. subst v.
      destruct neg; f_equal; lia.
    - apply Z.eqb_neq in Hd. rewrite Hd. now rewrite Hv. }
  unfold Py.str_int, pretty, pretty_Z. destruct n as [|p|p].
  - reflexivity.
  - destruct (Hpos p) as (d & ds & Hread & Hd & Hv).
    unfold Py.canonical_int.
    destruct (pretty p) as [|c r] eqn:Htext; [discriminate Hread|].
    assert (Ascii.eqb c "-" = false) as ->.
    { destruct (Ascii.eqb c "-") eqn:E; [|reflexivity].
      apply Ascii.eqb_eq in E as ->. discriminate Hread. }
    apply (Hbody _ d ds (Z.pos p) false Hread Hd Hv).
  - destruct (Hpos p) as (d & ds & Hread & Hd & Hv).
    unfold Py.canonical_int.
    change ("-" +:+ pretty p) with (String "-" (pretty p)).
    cbn [Ascii.eqb Bool.eqb]. cbn match.
    apply (Hbody _ d ds (Z.pos p) true Hread Hd Hv).
Qed.

End IntegerRoundTrip.

(** ** Rate limiter: what a check writes, and how many it admits *)

Section LimiterStore.

Import RateLimiter.

Lemma generate_key_inj (identifier endpoint : string) (w1 w2 : Z) :
  _generate_key identifier endpoint w1 = _generate_key identifier endpoint w2 -> w1 = w2.
Proof.
  unfold _generate_key. intros H.
  repeat apply append_inv_head in H. now apply str_int_inj.
Qed.

(** What [_increment] writes: the counter one higher, with the
    time-to-live given. *)
Lemma increment_effect (identifier endpoint : string) (window expire c : Z) (w : World) :
  0 < expire ->
  Redis.counter (_generate_key identifier endpoint window) (redis w) = Some c ->
  exists r,
    _increment identifier endpoint window expire w = (Ok tt, set_redis r w)
    /\ Redis.data r
       = <[_generate_key identifier endpoint window
            := {| Redis.payload := Py.str_int (c + 1); Redis.ttl := Some expire |}]>
           (Redis.data (redis w)).
Proof.
  intros Hexp. unfold Redis.counter, _increment, redis_incr, redis_expire, Redis.incr.
  unfold mbind, M_bind, mret, M_ret. intros H.
  assert ((expire <=? 0) = false) as Hle by (apply Z.leb_gt; exact Hexp).
  destruct (Redis.data (redis w) !! _generate_key identifier endpoint window) as [e|].
  - rewrite H. unfold Redis.expire. cbn [redis set_redis Redis.data Redis.layout Redis.payload].
    rewrite lookup_insert_eq, Hle. eexists. split; [reflexivity|].
    cbn [Redis.data Redis.payload]. now rewrite insert_insert_eq.
  - injection H as <-.
    unfold Redis.expire. cbn [redis set_redis Redis.data Redis.layout Redis.payload].
    rewrite lookup_insert_eq, Hle. eexists. split; [reflexivity|].
    cbn [Redis.data Redis.payload]. now rewrite insert_insert_eq.
Qed.

(** One call of [check], with what it leaves in the store. *)
Lemma check_step (identifier endpoint : string) (limit window cur prev : Z) (w : World) :
  0 < window ->
  Redis.counter
    (_generate_key identifier endpoint
       (Py.int_of_float (clock w (ticks w)) / window * window)) (redis w) = Some cur ->
  Redis.counter
    (_generate_key identifier endpoint
       (Py.int_of_float (clock w (ticks w)) / window * window - window)) (redis w) = Some prev ->
  let allowed :=
    Py.num_lt
      (weighted_count cur prev
         (Float.div
            (Float.sub (clock w (S (ticks w)))
               (Float.of_int (Py.int_of_float (clock w (ticks w)) / window * window)))
            (Float.of_int window)))
      (inject_Z limit) in
  exists (info : RateLimitInfo) (w' : World),
    check identifier endpoint limit window w = (Ok (allowed, info), w')
    /\ clock w' = clock w /\ ticks w' = S (S (ticks w))
    /\ settings w' = settings w /\ monitor w' = monitor w /\ calls w' = calls w
    /\ Redis.data (redis w')
       = (if allowed
          then <[_generate_key identifier endpoint
                   (Py.int_of_float (clock w (ticks w)) / window * window)
                  := {| Redis.payload := Py.str_int (cur + 1);
                        Redis.ttl := Some (window * 2) |}]>
                 (Redis.data (redis w))
          else Redis.data (redis w)).
Proof.
  intros Hw Hcur Hprev allowed.
  set (cw := Py.int_of_float (clock w (ticks w)) / window * window) in *.
  assert ((window =? 0) = false) as Hw0 by (apply Z.eqb_neq; lia).
  unfold check.
  unfold mbind at 1, M_bind at 1. unfold time_time at 1.
  unfold mbind at 1, M_bind at 1. unfold floordiv.
  rewrite Hw0. unfold mret at 1, M_ret at 1.
  fold cw.
  unfold mbind at 1, M_bind at 1.
  rewrite (get_count_counter _ _ _ cur) by exact Hcur.
  unfold mbind at 1, M_bind at 1.
  rewrite (get_count_counter _ _ _ prev) by exact Hprev.
  unfold mbind at 1, M_bind at 1. unfold time_time at 1.
  cbn [ticks set_ticks clock].
  unfold mbind at 1, M_bind at 1. unfold truediv. rewrite Hw0.
  unfold mret at 1, M_ret at 1.
  fold allowed.
  unfold mbind at 1, M_bind at 1.
  destruct allowed eqn:Hallowed.
  - destruct (increment_effect identifier endpoint cw (window * 2) cur
                (set_ticks (S (S (ticks w))) (set_ticks (S (ticks w)) w)))
      as (r & Hr & Hdata); [lia|exact Hcur|].
    rewrite Hr. unfold mret, M_ret. eexists _, _. split; [reflexivity|].
    cbn [clock ticks settings monitor calls redis set_redis set_ticks].
    repeat split. exact Hdata.
  - unfold mret, M_ret. eexists _, _. split; [reflexivity|].
    cbn [clock ticks settings monitor calls redis set_redis set_ticks].
    repeat split.
Qed.

(** A reading inside a window that starts at a multiple of its length
    is put in that window. *)
Lemma window_of_reading (t : Q) (window m : Z) :
  0 < window -> 0 <= m ->
  (inject_Z (m * window) <= t)%Q -> (t < inject_Z (m * window + window))%Q ->
  Py.int_of_float t / window * window = m * window.
Proof.
  intros Hw Hm Hlo Hhi.
  assert (0 <= t)%Q as Ht.
  { eapply Qle_trans; [|exact Hlo]. change 0%Q with (inject_Z 0).
    rewrite <- Zle_Qle. nia. }
  rewrite (int_of_float_nonneg _ Ht).
  assert (m * window <= Qfloor t) as Hfl.
  { rewrite <- (Qfloor_Z (m * window)). now apply Qfloor_resp_le. }
  assert (Qfloor t < m * window + window) as Hfu.
  { rewrite Zlt_Qlt. eapply Qle_lt_trans; [apply Qfloor_le|exact Hhi]. }
  f_equal. symmetry. apply (Z.div_unique _ _ m (Qfloor t - m * window)); lia.
Qed.

End LimiterStore.

Section LimiterEffects.

Import RateLimiter.

Lemma counter_insert_eq (k : string) (n : Z) (seconds : option Z) (d : gmap string Redis.entry)
    (slots : list string) :
  Redis.counter k
    {| Redis.data := <[k := {| Redis.payload := Py.str_int n; Redis.ttl := seconds |}]> d;
       Redis.layout := slots |} = Some n.
Proof.
  unfold Redis.counter. cbn [Redis.data]. rewrite lookup_insert_eq. cbn [Redis.payload].
  apply int_of_str_of_str_int.
Qed.

(** X7: a check that admits adds one to the counter of the current
    window and sets its time-to-live to twice the window; a check that
    rejects writes nothing.  No other key is touched, and the counter is
    read back by [_get_count] with its new value. *)
Theorem check_counts_what_it_admits
    (w : World) (identifier endpoint : string)
    (limit window current_window current_count previous_count : Z) :
  0 < window ->
  current_window = Py.int_of_float (clock w (ticks w)) / window * window ->
  Redis.counter (RateLimiter._generate_key identifier endpoint current_window) (redis w)
  = Some current_count ->
  Redis.counter (RateLimiter._generate_key identifier endpoint (current_window - window))
    (redis w) = Some previous_count ->
  exists (allowed : bool) (info : RateLimiter.RateLimitInfo) (w' : World),
    RateLimiter.check identifier endpoint limit window w = (Ok (allowed, info), w')
    /\ fst (RateLimiter._get_count identifier endpoint current_window w')
       = Ok (if allowed then current_count + 1 else current_count)
    /\ (if allowed
        then Redis.data (redis w')
               !! RateLimiter._generate_key identifier endpoint current_window
             = Some {| Redis.payload := Py.str_int (current_count + 1);
                       Redis.ttl := Some (window * 2) |}
        else Redis.data (redis w') = Redis.data (redis w))
    /\ (forall k, k <> RateLimiter._generate_key identifier endpoint current_window ->
                  Redis.data (redis w') !! k = Redis.data (redis w) !! k).
Proof.
  intros Hw -> Hcur Hprev.
  destruct (check_step identifier endpoint limit window current_count previous_count w
              Hw Hcur Hprev)
    as (info & w' & Hrun & _ & _ & _ & _ & _ & Hdata).
  eexists _, info, w'. split; [exact Hrun|].
  destruct (Py.num_lt _ _).
  - split; [|split].
    + rewrite (get_count_counter _ _ _ (current_count + 1)); [reflexivity|].
      unfold Redis.counter. rewrite Hdata, lookup_insert_eq. cbn [Redis.payload].
      apply int_of_str_of_str_int.
    + rewrite Hdata. apply lookup_insert_eq.
    + intros k Hk. rewrite Hdata. now apply lookup_insert_ne.
  - split; [|split].
    + rewrite (get_count_counter _ _ _ current_count); [reflexivity|].
      unfold Redis.counter in *. now rewrite Hdata.
    + exact Hdata.
    + intros k _. now rewrite Hdata.
Qed.

(** X7 on a store that holds 3 requests of the current window, with
    [limit = 5]: the check admits and the counter reads 4. *)
Lemma check_counts_what_it_admits_witness :
  exists (allowed : bool) (info : RateLimiter.RateLimitInfo) (w' : World),
    RateLimiter.check "ip:10.0.0.1" "/api/ping" 5 10 Examples.busy_world
    = (Ok (allowed, info), w')
    /\ fst (RateLimiter._get_count "ip:10.0.0.1" "/api/ping" 10 w')
       = Ok (if allowed then 3 + 1 else 3)
    /\ (if allowed
        then Redis.data (redis w') !! RateLimiter._generate_key "ip:10.0.0.1" "/api/ping" 10
             = Some {| Redis.payload := Py.str_int (3 + 1); Redis.ttl := Some (10 * 2) |}
        else Redis.data (redis w') = Redis.data (redis Examples.busy_world))
    /\ (forall k, k <> RateLimiter._generate_key "ip:10.0.0.1" "/api/ping" 10 ->
                  Redis.data (redis w') !! k = Redis.data (redis Examples.busy_world) !! k).
Proof.
  apply (check_counts_what_it_admits Examples.busy_world "ip:10.0.0.1" "/api/ping"
           5 10 10 3 0).
  - lia.
  - vm_compute. reflexivity.
  - vm_compute. reflexivity.
  - vm_compute. reflexivity.
Defined.

Lemma admitted_cons (b : bool) (decisions : list bool) :
  admitted (b :: decisions) = (if b then 1 else 0) + admitted decisions.
Proof. unfold admitted. destruct b; cbn [List.filter length]; lia. Qed.

(** X8: checks made one after the other inside one window never admit
    more than the quota still allows: starting from a counter at most
    [limit], after any number of checks the counter has grown by the
    number of admitted requests and is still at most [limit].  With no
    traffic in the previous window exactly the first [limit - counter]
    checks are admitted.  The end of the window and the limit are at
    most 2^53, so that they, the start of the window and the counters
    are doubles. *)
Theorem checks_in_one_window_stay_within_limit
    (n : nat) (w : World) (identifier endpoint : string)
    (limit window m current_count previous_count : Z) :
  0 < window ->
  0 <= m ->
  m * window + window <= 2 ^ 53 ->
  limit <= 2 ^ 53 ->
  (forall k, (ticks w <= k)%nat ->
             (inject_Z (m * window) <= clock w k)%Q
             /\ (clock w k < inject_Z (m * window + window))%Q) ->
  Redis.counter (RateLimiter._generate_key identifier endpoint (m * window)) (redis w)
  = Some current_count ->
  0 <= current_count ->
  current_count <= limit ->
  Redis.counter (RateLimiter._generate_key identifier endpoint (m * window - window)) (redis w)
  = Some previous_count ->
  0 <= previous_count ->
  exists (decisions : list bool) (w' : World),
    RateLimiter.check_times n identifier endpoint limit window w = (Ok decisions, w')
    /\ length decisions = n
    /\ Redis.counter (RateLimiter._generate_key identifier endpoint (m * window)) (redis w')
       = Some (current_count + RateLimiter.admitted decisions)
    /\ current_count + RateLimiter.admitted decisions <= limit
    /\ (previous_count = 0 ->
        RateLimiter.admitted decisions = Z.min (Z.of_nat n) (limit - current_count)).
Proof.
  intros Hw Hm Hend Hmax. revert w current_count.
  assert (0 <= m * window) as Hstart by nia.
  induction n as [|n IH]; intros w cur Hclock Hcur Hcur0 Hlimit Hprev Hprev0.
  - exists [], w. cbn [check_times]. unfold mret, M_ret.
    split; [reflexivity|]. split; [reflexivity|].
    unfold admitted. cbn [List.filter length]. rewrite Z.add_0_r.
    split; [exact Hcur|]. split; [exact Hlimit|]. intros _. lia.
  - destruct (Hclock (ticks w) (le_n _)) as [Hlo0 Hhi0].
    destruct (Hclock (S (ticks w)) (le_S _ _ (le_n _))) as [Hlo1 Hhi1].
    pose proof (window_of_reading _ _ _ Hw Hm Hlo0 Hhi0) as Hcw.
    pose proof (check_step identifier endpoint limit window cur previous_count w Hw)
      as Hstep.
    rewrite Hcw in Hstep. cbv zeta in Hstep.
    destruct (Hstep Hcur Hprev)
      as (info & w1 & Hrun & Hclock1 & Hticks1 & _ & _ & _ & Hdata).
    clear Hstep.
    destruct (elapsed_fraction_unit (clock w (S (ticks w))) (m * window) window)
      as [Hf0 Hf1]; [exact Hw|rewrite Z.abs_eq; lia|lia|exact Hlo1|exact Hhi1|].
    set (fraction := Float.div
                       (Float.sub (clock w (S (ticks w))) (Float.of_int (m * window)))
                       (Float.of_int window)) in *.
    set (allowed := Py.num_lt (weighted_count cur previous_count fraction)
                      (inject_Z limit)) in *.
    assert (Z.abs cur <= 2 ^ 53) as Hsmall by (rewrite Z.abs_eq; lia).
    assert (inject_Z cur <= weighted_count cur previous_count fraction)%Q as Habove.
    { eapply Qle_trans; [|apply (weighted_count_above cur previous_count fraction Hprev0 Hf1)].
      rewrite (round_comp _ (inject_Z cur)) by now apply of_int_exact.
      rewrite round_int by exact Hsmall. apply Qle_refl. }
    assert (allowed = true -> cur < limit) as Hbelow.
    { intros Ha. apply num_lt_iff in Ha. rewrite Zlt_Qlt. lra. }
    assert (previous_count = 0 -> allowed = (cur <? limit)) as Hexact.
    { intros ->. subst allowed. destruct (Z.ltb_spec cur limit) as [Hlt|Hge].
      - apply num_lt_iff. rewrite (weighted_count_no_previous _ _ Hsmall).
        now rewrite <- Zlt_Qlt.
      - destruct (Py.num_lt _ _) eqn:Ha; [|reflexivity].
        apply num_lt_iff in Ha. rewrite (weighted_count_no_previous _ _ Hsmall) in Ha.
        rewrite <- Zlt_Qlt in Ha. lia. }
    assert (Redis.counter (_generate_key identifier endpoint (m * window)) (redis w1)
            = Some (cur + (if allowed then 1 else 0))) as Hcur1.
    { unfold Redis.counter. rewrite Hdata. destruct allowed.
      - rewrite lookup_insert_eq. cbn [Redis.payload]. apply int_of_str_of_str_int.
      - rewrite Z.add_0_r. exact Hcur. }
    assert (Redis.counter (_generate_key identifier endpoint (m * window - window)) (redis w1)
            = Some previous_count) as Hprev1.
    { unfold Redis.counter. rewrite Hdata. destruct allowed; [|exact Hprev].
      rewrite lookup_insert_ne; [exact Hprev|].
      intros Heq. apply generate_key_inj in Heq. lia. }
    destruct (IH w1 (cur + (if allowed then 1 else 0)))
      as (rest & w' & Hrest & Hlen & Hcounter & Hbound & Hmin);
      try assumption.
    { intros k Hk. rewrite Hclock1. apply Hclock. lia. }
    { destruct allowed; lia. }
    { destruct allowed; [pose proof (Hbelow eq_refl)|]; lia. }
    exists (allowed :: rest), w'.
    cbn [check_times]. unfold mbind at 1, M_bind at 1. rewrite Hrun.
    unfold mbind at 1, M_bind at 1. rewrite Hrest. unfold mret, M_ret.
    rewrite admitted_cons.
    split; [reflexivity|]. split; [cbn [length]; now rewrite Hlen|].
    split; [rewrite Hcounter; f_equal; lia|]. split; [lia|].
    intros Hzero. rewrite (Hmin Hzero). rewrite (Hexact Hzero).
    destruct (Z.ltb_spec cur limit); lia.
Qed.

(** X8 on the store that holds 3 requests of the current window, with
    [limit = 5] and four checks at t = 12.5. *)
Lemma checks_in_one_window_stay_within_limit_witness :
  exists (decisions : list bool) (w' : World),
    RateLimiter.check_times 4 "ip:10.0.0.1" "/api/ping" 5 10 Examples.busy_world
    = (Ok decisions, w')
    /\ length decisions = 4%nat
    /\ Redis.counter (RateLimiter._generate_key "ip:10.0.0.1" "/api/ping" (1 * 10)) (redis w')
       = Some (3 + RateLimiter.admitted decisions)
    /\ 3 + RateLimiter.admitted decisions <= 5
    /\ (0 = 0 -> RateLimiter.admitted decisions = Z.min (Z.of_nat 4) (5 - 3)).
Proof.
  apply (checks_in_one_window_stay_within_limit 4 Examples.busy_world
           "ip:10.0.0.1" "/api/ping" 5 10 1 3 0).
  - lia.
  - lia.
  - vm_compute. discriminate.
  - vm_compute. discriminate.
  - intros k _. split; vm_compute; [discriminate|reflexivity].
  - vm_compute. reflexivity.
  - lia.
  - lia.
  - vm_compute. reflexivity.
  - lia.
Defined.

End LimiterEffects.

(** ** Middleware: which quota a path gets *)

Section PathResolution.

Import RateLimitMiddleware.

Lemma split_no_separator (c : ascii) (s : string) :
  Py.contains_char c s = false -> Py.split c s = [s].
Proof.
  induction s as [|a s IH]; [reflexivity|].
  cbn [Py.contains_char Py.split].
  destruct (Ascii.eqb a c); [discriminate|]. intros H. now rewrite (IH H).
Qed.

Lemma split_at_separator (c : ascii) (s t : string) :
  Py.contains_char c s = false ->
  Py.split c (s +:+ String c t) = s :: Py.split c t.
Proof.
  induction s as [|a s IH].
  - intros _. change ("" +:+ String c t) with (String c t).
    cbn [Py.split]. now rewrite Ascii.eqb_refl.
  - cbn [Py.contains_char]. rewrite append_cons. cbn [Py.split].
    destruct (Ascii.eqb a c); [discriminate|]. intros H. now rewrite (IH H).
Qed.

Lemma dict_get_Some_In {V} (k : string) (v : V) (d : list (string * V)) :
  Py.dict_get k d = Some v -> In (k, v) d.
Proof.
  induction d as [|[k' v'] d IH]; cbn [Py.dict_get]; [discriminate|].
  destruct (String.eqb_spec k' k) as [->|Hne].
  - intros [= ->]. now left.
  - intros H. right. now apply IH.
Qed.

(** The table of the middleware, as evaluated. *)
Lemma limit_configs_evaluated :
  limit_configs __init__
  = [ ("/api/users/login", {| limit := 5; window := 60; dimension := "ip" |});
      ("/api/users", {| limit := 3; window := 3600; dimension := "ip" |});
      ("/api/articles", {| limit := 100; window := 60; dimension := "ip" |});
      ("/api/articles/{slug}/comments", {| limit := 20; window := 3600; dimension := "user" |});
      ("/api/articles/{slug}/favorite", {| limit := 30; window := 60; dimension := "user" |});
      ("/api/articles/{slug}", {| limit := 60; window := 60; dimension := "ip" |});
      ("/api/profiles/{username}", {| limit := 60; window := 60; dimension := "ip" |}) ].
Proof. reflexivity. Qed.

(** Resolution of a path whose pieces are known: an exact key can only
    be a key with the same pieces. *)
Lemma resolve_by_parts (request : Request) (parts : list string) (config : RateLimitConfig) :
  Py.split "/" (path request) = parts ->
  (forall k v, In (k, v) (limit_configs __init__) -> Py.split "/" k = parts -> v = config) ->
  (forall p, Py.split "/" p = parts -> match_patterns p (limit_configs __init__) = Some config) ->
  _get_rate_limit_config __init__ request = config.
Proof.
  intros Hparts Hexact Hpattern. unfold _get_rate_limit_config.
  destruct (Py.dict_get (path request) (limit_configs __init__)) as [v|] eqn:E.
  - apply dict_get_Some_In in E. now apply (Hexact _ _ E).
  - now rewrite (Hpattern _ Hparts).
Qed.

(** X9: every path [/api/articles/{slug}], for a slug with no slash
    in it, is metered at 60 per 60 seconds by ip; the paths of its
    comments and of its favorite at 20 per 3600 seconds and 30 per 60
    seconds by user. *)
Theorem article_paths_resolve_to_their_patterns
    (slug : string) (article comments favorite : RateLimitMiddleware.Request) :
  Py.contains_char "/" slug = false ->
  RateLimitMiddleware.path article = "/api/articles/" +:+ slug ->
  RateLimitMiddleware.path comments = "/api/articles/" +:+ slug +:+ "/comments" ->
  RateLimitMiddleware.path favorite = "/api/articles/" +:+ slug +:+ "/favorite" ->
  RateLimitMiddleware._get_rate_limit_config RateLimitMiddleware.__init__ article
  = {| limit := 60; window := 60; dimension := "ip" |}
  /\ RateLimitMiddleware._get_rate_limit_config RateLimitMiddleware.__init__ comments
     = {| limit := 20; window := 3600; dimension := "user" |}
  /\ RateLimitMiddleware._get_rate_limit_config RateLimitMiddleware.__init__ favorite
     = {| limit := 30; window := 60; dimension := "user" |}.
Proof.
  intros Hslug Harticle Hcomments Hfavorite.
  assert (Py.split "/" ("/api/articles/" +:+ slug) = [""; "api"; "articles"; slug]) as Hparts1.
  { change ("/api/articles/" +:+ slug) with ("" +:+ String "/" ("api" +:+ String "/"
      ("articles" +:+ String "/" slug))).
    rewrite !split_at_separator by reflexivity. now rewrite split_no_separator. }
  assert (forall tail, Py.contains_char "/" tail = false ->
            Py.split "/" ("/api/articles/" +:+ slug +:+ String "/" tail)
            = [""; "api"; "articles"; slug; tail]) as Hparts2.
  { intros tail Htail.
    change ("/api/articles/" +:+ slug +:+ String "/" tail)
      with ("" +:+ String "/" ("api" +:+ String "/"
              ("articles" +:+ String "/" (slug +:+ String "/" tail)))).
    rewrite !split_at_separator by (reflexivity || exact Hslug).
    now rewrite split_no_separator. }
  split; [|split].
  - apply (resolve_by_parts article [""; "api"; "articles"; slug]).
    + now rewrite Harticle.
    + intros k v Hin Hk. rewrite limit_configs_evaluated in Hin.
      cbn [In] in Hin.
      repeat (destruct Hin as [[= <- <-]|Hin]; [try discriminate Hk; try reflexivity|]).
      contradiction.
    + intros p Hp. rewrite limit_configs_evaluated. cbn [match_patterns].
      rewrite Hp. reflexivity.
  - apply (resolve_by_parts comments [""; "api"; "articles"; slug; "comments"]).
    + rewrite Hcomments. now apply (Hparts2 "comments").
    + intros k v Hin Hk. rewrite limit_configs_evaluated in Hin.
      cbn [In] in Hin.
      repeat (destruct Hin as [[= <- <-]|Hin]; [try discriminate Hk; try reflexivity|]).
      contradiction.
    + intros p Hp. rewrite limit_configs_evaluated. cbn [match_patterns].
      rewrite Hp. reflexivity.
  - apply (resolve_by_parts favorite [""; "api"; "articles"; slug; "favorite"]).
    + rewrite Hfavorite. now apply (Hparts2 "favorite").
    + intros k v Hin Hk. rewrite limit_configs_evaluated in Hin.
      cbn [In] in Hin.
      repeat (destruct Hin as [[= <- <-]|Hin]; [try discriminate Hk; try reflexivity|]).
      contradiction.
    + intros p Hp. rewrite limit_configs_evaluated. cbn [match_patterns].
      rewrite Hp. reflexivity.
Qed.

(** X9 for the slug intro. *)
Lemma article_paths_resolve_to_their_patterns_witness :
  RateLimitMiddleware._get_rate_limit_config RateLimitMiddleware.__init__
    (Examples.request_to "/api/articles/intro")
  = {| limit := 60; window := 60; dimension := "ip" |}
  /\ RateLimitMiddleware._get_rate_limit_config RateLimitMiddleware.__init__
       (Examples.request_to "/api/articles/intro/comments")
     = {| limit := 20; window := 3600; dimension := "user" |}
  /\ RateLimitMiddleware._get_rate_limit_config RateLimitMiddleware.__init__
       (Examples.request_to "/api/articles/intro/favorite")
     = {| limit := 30; window := 60; dimension := "user" |}.
Proof.
  apply (article_paths_resolve_to_their_patterns "intro"); reflexivity.
Defined.

End PathResolution.

(** ** Cache decorator: keys that cannot be rendered, results that are
    not kept, and reads after an invalidation *)

Section KeyRendering.

Import Decorators.

(** Text without braces is copied as it is. *)
Lemma format_from_literal (lit rest : string) (kwargs : list (string * value)) :
  Py.contains_char "{" lit = false ->
  Py.contains_char "}" lit = false ->
  format_from (lit +:+ rest) None kwargs
  = (out ← format_from rest None kwargs; Ok (lit +:+ out)).
Proof.
  induction lit as [|c lit IH]; intros Hopen Hclose.
  - change ("" +:+ rest) with rest. now destruct (format_from rest None kwargs).
  - cbn [Py.contains_char] in Hopen, Hclose. rewrite append_cons.
    cbn [format_from].
    destruct (Ascii.eqb c "{") eqn:E1; [discriminate|].
    destruct (Ascii.eqb c "}") eqn:E2; [discriminate|].
    rewrite (IH Hopen Hclose).
    now destruct (format_from rest None kwargs).
Qed.

(** Inside braces the name is read up to the closing brace, then looked
    up. *)
Lemma format_from_field (name seen rest : string) (kwargs : list (string * value)) :
  Py.contains_char "{" name = false ->
  Py.contains_char "}" name = false ->
  Py.contains_char "." name = false ->
  Py.contains_char "[" name = false ->
  Py.contains_char "!" name = false ->
  Py.contains_char ":" name = false ->
  format_from (name +:+ String "}" rest) (Some seen) kwargs
  = (text ← lookup_field (seen +:+ name) kwargs;
     out ← format_from rest None kwargs;
     Ok (text +:+ out)).
Proof.
  revert seen. induction name as [|c name IH]; intros seen H1 H2 H3 H4 H5 H6.
  - change ("" +:+ String "}" rest) with (String "}" rest).
    rewrite append_nil_r. reflexivity.
  - cbn [Py.contains_char] in H1, H2, H3, H4, H5, H6. rewrite append_cons.
    cbn [format_from].
    destruct (Ascii.eqb c "{") eqn:E1; [discriminate|].
    destruct (Ascii.eqb c "}") eqn:E2; [discriminate|].
    destruct (Ascii.eqb c ".") eqn:E3; [discriminate|].
    destruct (Ascii.eqb c "[") eqn:E4; [discriminate|].
    destruct (Ascii.eqb c "!") eqn:E5; [discriminate|].
    destruct (Ascii.eqb c ":") eqn:E6; [discriminate|].
    cbn [orb]. rewrite (IH _ H1 H2 H3 H4 H5 H6).
    now rewrite append_assoc.
Qed.

(** A template that starts with text and one placeholder. *)
Lemma format_placeholder (lit name rest : string) (kwargs : list (string * value)) :
  Py.contains_char "{" lit = false ->
  Py.contains_char "}" lit = false ->
  Py.contains_char "{" name = false ->
  Py.contains_char "}" name = false ->
  Py.contains_char "." name = false ->
  Py.contains_char "[" name = false ->
  Py.contains_char "!" name = false ->
  Py.contains_char ":" name = false ->
  format (lit +:+ String "{" (name +:+ String "}" rest)) kwargs
  = (text ← lookup_field name kwargs;
     out ← format rest kwargs;
     Ok (lit +:+ text +:+ out)).
Proof.
  intros L1 L2 H1 H2 H3 H4 H5 H6. unfold format.
  rewrite (format_from_literal _ _ _ L1 L2).
  assert (format_from (String "{" (name +:+ String "}" rest)) None kwargs
          = format_from (name +:+ String "}" rest) (Some "") kwargs) as ->.
  { cbn [format_from]. cbn [Ascii.eqb Bool.eqb]. cbn match.
    destruct name as [|c name].
    - reflexivity.
    - rewrite append_cons. cbn [Py.contains_char] in H1.
      destruct (Ascii.eqb c "{") eqn:E; [discriminate|]. reflexivity. }
  rewrite (format_from_field _ _ _ _ H1 H2 H3 H4 H5 H6).
  change ("" +:+ name) with name.
  destruct (lookup_field name kwargs) as [text| |]; try reflexivity.
  cbn [mbind outcome_bind].
  destruct (format_from rest None kwargs) as [out| |]; reflexivity.
Qed.

(** X10: a placeholder whose name is not among the keyword arguments
    (as when the parameter is passed positionally) makes the wrapped call
    raise [KeyError] with that name, before the store is read, a hit or
    miss is recorded, or the function is invoked. *)
Theorem wrapper_raises_key_error_for_missing_keyword
    (lit name rest : string) (ttl : option Z) (func : Decorators.pyfunc)
    (args : list value) (kwargs : list (string * value)) (w : World) :
  cache_enabled (settings w) = true ->
  Py.contains_char "{" lit = false ->
  Py.contains_char "}" lit = false ->
  Py.contains_char "{" name = false ->
  Py.contains_char "}" name = false ->
  Py.contains_char "." name = false ->
  Py.contains_char "[" name = false ->
  Py.contains_char "!" name = false ->
  Py.contains_char ":" name = false ->
  Decorators.all_digits name = false ->
  Py.dict_get name kwargs = None ->
  Decorators.wrapper (lit +:+ String "{" (name +:+ String "}" rest)) ttl func args kwargs w
  = (Raise (KeyError name), w).
Proof.
  intros Hon L1 L2 H1 H2 H3 H4 H5 H6 Hdigits Hmissing.
  unfold wrapper, get_app_settings.
  unfold mbind at 1, M_bind at 1. rewrite Hon. cbn [negb].
  unfold mbind at 1, M_bind at 1. unfold lift at 1.
  rewrite (format_placeholder _ _ _ _ L1 L2 H1 H2 H3 H4 H5 H6).
  unfold lookup_field. rewrite Hdigits, Hmissing. reflexivity.
Qed.

(** X10 for a key pattern on the slug, called with the slug as a
    positional argument. *)
Lemma wrapper_raises_key_error_for_missing_keyword_witness :
  Decorators.wrapper ("article:detail:" +:+ String "{" ("slug" +:+ String "}" ""))
    None Examples.tag_of [PStr "intro"] [] (Examples.fresh_world Examples.still_clock)
  = (Raise (KeyError "slug"), Examples.fresh_world Examples.still_clock).
Proof.
  apply (wrapper_raises_key_error_for_missing_keyword "article:detail:" "slug" ""
           None Examples.tag_of [PStr "intro"] [] (Examples.fresh_world Examples.still_clock));
    reflexivity.
Defined.

End KeyRendering.

Section ResultsNotKept.

Import Decorators.

(** X11: a result that is [None] is not cached: the same call made
    again is a miss again and invokes the function again, and the store
    is as it was. *)
Theorem none_result_is_computed_again
    (key_pattern : string) (ttl : option Z) (func : Decorators.pyfunc)
    (args : list value) (kwargs : list (string * value)) (w : World) (cache_key : string) :
  cache_enabled (settings w) = true ->
  Decorators.format key_pattern kwargs = Ok cache_key ->
  Redis.get cache_key (redis w) = None ->
  Decorators.body func args kwargs = Ok PNone ->
  exists (w1 w2 : World),
    Decorators.wrapper key_pattern ttl func args kwargs w = (Ok PNone, w1)
    /\ Decorators.wrapper key_pattern ttl func args kwargs w1 = (Ok PNone, w2)
    /\ calls w2 = calls w ++ [(args, kwargs); (args, kwargs)]
    /\ redis w2 = redis w
    /\ CacheMonitor.misses (monitor w2) = CacheMonitor.misses (monitor w) + 2
    /\ CacheMonitor.hits (monitor w2) = CacheMonitor.hits (monitor w).
Proof.
  intros Hon Hkey Hget Hbody.
  eexists _, _. split.
  - apply (wrapper_miss_none _ _ _ _ _ _ cache_key); try assumption. now rewrite Hget.
  - split.
    + apply (wrapper_miss_none _ _ _ _ _ _ cache_key); try assumption.
      cbn [missed redis set_calls set_monitor]. now rewrite Hget.
    + cbn [missed calls redis monitor set_calls set_monitor
           CacheMonitor.record_miss CacheMonitor.misses CacheMonitor.hits].
      split; [now rewrite <- app_assoc|]. split; [reflexivity|]. split; [lia|reflexivity].
Qed.

(** A function of no argument that finds nothing. *)
Lemma none_result_is_computed_again_witness :
  exists (w1 w2 : World),
    Decorators.wrapper "tags:all" None
      {| returns := NoAnnotation; body := fun _ _ => Ok PNone |} [] []
      (Examples.fresh_world Examples.still_clock) = (Ok PNone, w1)
    /\ Decorators.wrapper "tags:all" None
         {| returns := NoAnnotation; body := fun _ _ => Ok PNone |} [] [] w1 = (Ok PNone, w2)
    /\ calls w2 = calls (Examples.fresh_world Examples.still_clock) ++ [([], []); ([], [])]
    /\ redis w2 = redis (Examples.fresh_world Examples.still_clock)
    /\ CacheMonitor.misses (monitor w2)
       = CacheMonitor.misses (monitor (Examples.fresh_world Examples.still_clock)) + 2
    /\ CacheMonitor.hits (monitor w2)
       = CacheMonitor.hits (monitor (Examples.fresh_world Examples.still_clock)).
Proof.
  apply (none_result_is_computed_again "tags:all" None
           {| returns := NoAnnotation; body := fun _ _ => Ok PNone |} [] []
           (Examples.fresh_world Examples.still_clock) "tags:all"); reflexivity.
Defined.

(** X12: a key that a matching pattern has invalidated is read as a
    miss: whatever the key held, the next wrapped call invokes the
    function, returns its result and caches it anew. *)
Theorem read_after_invalidation_recomputes
    (key_pattern pattern : string) (ttl : option Z) (func : Decorators.pyfunc)
    (args : list value) (kwargs : list (string * value)) (w : World) (fuel : nat)
    (cache_key : string) (result : value) (serialized_data : string) :
  cache_enabled (settings w) = true ->
  Redis.well_formed (redis w) ->
  (length (Redis.layout (redis w)) < fuel * 100)%nat ->
  Decorators.format key_pattern kwargs = Ok cache_key ->
  Redis.glob pattern cache_key = true ->
  Decorators.body func args kwargs = Ok result ->
  result <> PNone ->
  Decorators.encode result = Ok serialized_data ->
  0 < Decorators.ttl_or ttl (cache_default_ttl (settings w)) ->
  exists (count : Z) (w1 w2 : World),
    Invalidation.invalidate_cache fuel [pattern] w = (Ok count, w1)
    /\ Redis.get cache_key (redis w1) = None
    /\ Decorators.wrapper key_pattern ttl func args kwargs w1 = (Ok result, w2)
    /\ calls w2 = calls w ++ [(args, kwargs)]
    /\ monitor w2 = CacheMonitor.record_miss (monitor w)
    /\ Redis.get cache_key (redis w2) = Some serialized_data.
Proof.
  intros Hon Hwf Hfuel Hkey Hglob Hbody Hnone Henc Httl.
  destruct (invalidate_cache_effect [pattern] fuel w Hwf Hfuel)
    as (count & w1 & Hrun & Hlook & _ & Hset & Hmon & Hcalls & _).
  assert (Redis.get cache_key (redis w1) = None) as Hgone.
  { unfold Redis.get. rewrite Hlook. cbn [Invalidation.matches_any existsb].
    now rewrite Hglob. }
  exists count, w1. eexists. split; [exact Hrun|]. split; [exact Hgone|]. split.
  - apply (wrapper_miss_store _ _ _ _ _ _ cache_key _ serialized_data); try assumption.
    + now rewrite Hset.
    + now rewrite Hgone.
    + now rewrite Hset.
  - cbn [missed calls monitor redis set_redis set_calls set_monitor].
    rewrite Hcalls, Hmon. split; [reflexivity|]. split; [reflexivity|].
    unfold Redis.get. cbn [Redis.data]. now rewrite lookup_insert_eq.
Qed.

End ResultsNotKept.

Section ReadAfterInvalidation.

(** X12 on a store that holds a stale entry under the key of slug 7. *)
Lemma read_after_invalidation_recomputes_witness :
  exists (count : Z) (w1 w2 : World),
    Invalidation.invalidate_cache 1 ["tag:*"] Examples.stale_world = (Ok count, w1)
    /\ Redis.get "tag:7" (redis w1) = None
    /\ Decorators.wrapper "tag:{slug}" (Some 60) Examples.tag_of [PStr "y"] [("slug", PInt 7)] w1
       = (Ok (Examples.tag (PStr "y")), w2)
    /\ calls w2 = calls Examples.stale_world ++ [([PStr "y"], [("slug", PInt 7)])]
    /\ monitor w2 = CacheMonitor.record_miss (monitor Examples.stale_world)
    /\ Redis.get "tag:7" (redis w2)
       = Some (Json.render Json.compact_style (Examples.tag (PStr "y"))).
Proof.
  apply (read_after_invalidation_recomputes "tag:{slug}" "tag:*" (Some 60) Examples.tag_of
           [PStr "y"] [("slug", PInt 7)] Examples.stale_world 1 "tag:7"
           (Examples.tag (PStr "y"))).
  - reflexivity.
  - apply filled_well_formed.
  - vm_compute. lia.
  - vm_compute. reflexivity.
  - reflexivity.
  - reflexivity.
  - discriminate.
  - reflexivity.
  - vm_compute. reflexivity.
Defined.

End ReadAfterInvalidation.

(** ** JSON text written and read back *)

Section JsonText.

Import Json.

Lemma read_value_unfold (fuel : nat) (s : string) :
  read_value (S fuel) s
  = match skip_ws s with
    | EmptyString => Raise JSONDecodeError
    | String c r =>
        if Ascii.eqb c dquote then
          '(t, rest) ← read_chars r; Ok (PStr t, rest)
        else if Ascii.eqb c "[" then
          match skip_ws r with
          | String c1 r1 =>
              if Ascii.eqb c1 "]" then Ok (PList [], r1)
              else read_items (read_value fuel) fuel r []
          | EmptyString => Raise JSONDecodeError
          end
        else if Ascii.eqb c "{" then
          match skip_ws r with
          | String c1 r1 =>
              if Ascii.eqb c1 "}" then Ok (PDict [], r1)
              else read_members (read_value fuel) fuel r []
          | EmptyString => Raise JSONDecodeError
          end
        else if Ascii.eqb c "n" then expect "null" PNone (String c r)
        else if Ascii.eqb c "t" then expect "true" (PBool true) (String c r)
        else if Ascii.eqb c "f" then expect "false" (PBool false) (String c r)
        else if Ascii.eqb c "N" || Ascii.eqb c "I" then Raise NotModelled
        else if Ascii.eqb c "-" then
          if Py.startswith "I" r then Raise NotModelled
          else '(n, rest) ← read_nat r; Ok (PInt (- n), rest)
        else
          '(n, rest) ← read_nat (String c r); Ok (PInt n, rest)
    end.
Proof. reflexivity. Qed.

(** Reading a value looks at the text only after its leading white
    space. *)
Lemma read_value_skip (fuel : nat) (s s' : string) :
  skip_ws s = skip_ws s' -> read_value fuel s = read_value fuel s'.
Proof.
  intros H. destruct fuel as [|fuel]; [reflexivity|].
  rewrite !read_value_unfold. now rewrite H.
Qed.

Lemma skip_ws_blank (w s : string) : blank w = true -> skip_ws (w +:+ s) = skip_ws s.
Proof.
  induction w as [|c w IH]; [reflexivity|].
  cbn [blank]. intros H. apply andb_true_iff in H as [Hc Hw].
  rewrite append_cons. cbn [skip_ws]. rewrite Hc. now apply IH.
Qed.

(** One character of a string literal is read back as it was written,
    escaped or not. *)
Lemma read_chars_escape_char (ensure : bool) (c : ascii) (tail : string) :
  read_chars (escape_char ensure c +:+ tail)
  = ('(t, rest) ← read_chars tail; Ok (String c t, rest)).
Proof.
  destruct ensure;
    destruct c as [[] [] [] [] [] [] [] []]; reflexivity.
Qed.

Lemma read_chars_escape (ensure : bool) (s rest : string) :
  read_chars (escape ensure s +:+ String dquote rest) = Ok (s, rest).
Proof.
  induction s as [|c s IH].
  - change (escape ensure "" +:+ String dquote rest) with (String dquote rest).
    cbn [read_chars]. change (Ascii.eqb dquote dquote) with true. reflexivity.
  - cbn [escape]. rewrite append_assoc, read_chars_escape_char, IH. reflexivity.
Qed.

(** A quoted string, read after its opening quote. *)
Lemma read_chars_quote (st : style) (s rest : string) :
  exists tail,
    quote st s +:+ rest = String dquote tail /\ read_chars tail = Ok (s, rest).
Proof.
  unfold quote. exists (escape (ensure_ascii st) s +:+ String dquote rest). split.
  - rewrite !append_cons, append_assoc. reflexivity.
  - apply read_chars_escape.
Qed.

End JsonText.

Section JsonNumbers.

Import Json.

Lemma pretty_N_go_app (x : N) (s t : string) :
  pretty_N_go x s +:+ t = pretty_N_go x (s +:+ t).
Proof.
  revert s. induction (N.lt_wf_0 x) as [x _ IH]; intros s.
  destruct (N.eq_dec x 0%N) as [->|Hx].
  - now rewrite !pretty_N_go_0.
  - rewrite (pretty_N_go_step x s), (pretty_N_go_step x (s +:+ t)) by lia.
    rewrite IH by (apply N.div_lt; lia).
    reflexivity.
Qed.

Lemma read_digits_ends (rest : string) :
  ends_number rest = true ->
  Py.read_digits rest = ([], rest) /\ starts_fraction rest = false.
Proof.
  destruct rest as [|c r]; [split; reflexivity|].
  unfold ends_number. cbn [Py.read_digits]. destruct (Py.digit_val c); [discriminate|].
  intros H. split; [reflexivity|]. now apply negb_true_iff in H.
Qed.

(** The decimal text of a positive number, read as the magnitude of a
    JSON integer. *)
Lemma read_nat_pretty (p : positive) (rest : string) :
  ends_number rest = true ->
  read_nat (pretty p +:+ rest) = Ok (Z.pos p, rest)
  /\ exists c tail, pretty p +:+ rest = String c tail /\ Py.digit_val c <> None.
Proof.
  intros Hrest. destruct (read_digits_ends rest Hrest) as [Hdig Hfrac].
  unfold pretty, pretty_positive, pretty, pretty_N.
  destruct (decide (N.pos p = 0%N)); [discriminate|].
  rewrite pretty_N_go_app. change ("" +:+ rest) with rest.
  destruct (read_digits_pretty_N_go (N.pos p) rest [] rest Hdig)
    as (dx & Hread & Hval & Hlead).
  rewrite app_nil_r in Hread.
  destruct dx as [|d dx]; [discriminate Hlead|].
  split.
  - unfold read_nat. rewrite Hread. destruct dx as [|d' dx].
    + rewrite Hfrac. specialize (Hval 0). cbn in Hval. do 2 f_equal; lia.
    + apply Z.eqb_neq in Hlead. rewrite Hlead, Hfrac.
      unfold Py.digits_value. rewrite Hval. do 2 f_equal; lia.
  - destruct (pretty_N_go (N.pos p) rest) as [|c tail]; [discriminate Hread|].
    exists c, tail. split; [reflexivity|]. cbn [Py.read_digits] in Hread.
    destruct (Py.digit_val c); [discriminate|discriminate Hread].
Qed.

Lemma digit_char_plain (c : ascii) :
  Py.digit_val c <> None ->
  is_ws c = false /\ Ascii.eqb c "]" = false /\ Ascii.eqb "I" c = false.
Proof.
  intros H.
  destruct c as [[] [] [] [] [] [] [] []];
    try (exfalso; apply H; reflexivity); repeat split; reflexivity.
Qed.

Lemma read_value_digit (fuel : nat) (c : ascii) (r : string) :
  Py.digit_val c <> None ->
  read_value (S fuel) (String c r)
  = ('(n, rest) ← read_nat (String c r); Ok (PInt n, rest)).
Proof.
  intros H. rewrite read_value_unfold.
  destruct c as [[] [] [] [] [] [] [] []];
    try (exfalso; apply H; reflexivity); reflexivity.
Qed.

Lemma read_value_minus (fuel : nat) (r : string) :
  read_value (S fuel) (String "-" r)
  = (if Py.startswith "I" r then Raise NotModelled
     else '(n, rest) ← read_nat r; Ok (PInt (- n), rest)).
Proof. reflexivity. Qed.

(** An integer is read back from its decimal text. *)
Lemma read_value_int (fuel : nat) (n : Z) (rest : string) :
  ends_number rest = true ->
  read_value (S fuel) (Py.str_int n +:+ rest) = Ok (PInt n, rest).
Proof.
  intros Hrest. destruct n as [|p|p].
  - destruct (read_digits_ends rest Hrest) as [Hdig Hfrac].
    change (Py.str_int 0 +:+ rest) with (String "0" rest).
    rewrite read_value_digit by discriminate.
    unfold read_nat. cbn [Py.read_digits].
    change (Py.digit_val "0") with (Some 0). rewrite Hdig, Hfrac. reflexivity.
  - destruct (read_nat_pretty p rest Hrest) as (Hnat & c & tail & Htext & Hc).
    change (Py.str_int (Z.pos p)) with (pretty p).
    rewrite Htext, read_value_digit by exact Hc. rewrite <- Htext, Hnat. reflexivity.
  - destruct (read_nat_pretty p rest Hrest) as (Hnat & c & tail & Htext & Hc).
    change (Py.str_int (Z.neg p) +:+ rest) with (String "-" (pretty p +:+ rest)).
    rewrite read_value_minus. rewrite Htext at 1.
    cbn [Py.startswith].
    destruct (digit_char_plain c Hc) as (_ & _ & ->).
    rewrite Hnat. reflexivity.
Qed.

(** The text of a value starts with a character that is neither white
    space nor a closing bracket. *)
Lemma render_head (st : style) (v : value) (rest : string) :
  exists c tail,
    render st v +:+ rest = String c tail
    /\ is_ws c = false /\ Ascii.eqb c "]" = false.
Proof.
  destruct v as [|[]|n|s|items|members|cls fields]; cbn [render];
    try (eexists _, _; split;
         [unfold quote; rewrite ?append_cons; reflexivity|split; reflexivity]).
  destruct n as [|p|p].
  - exists "0"%char, rest. repeat split.
  - destruct (read_nat_pretty p "" eq_refl) as (_ & c & tail & Htext & Hc).
    rewrite append_nil_r in Htext.
    change (Py.str_int (Z.pos p)) with (pretty p). rewrite Htext, append_cons.
    destruct (digit_char_plain c Hc) as (Hws & Hbr & _). eauto.
  - exists "-"%char, (pretty p +:+ rest). repeat split.
Qed.

End JsonNumbers.

Section JsonRoundTrip.

Import Json.

Variable st : style.
Variables w1 w2 : string.
Hypothesis Hitem : item_sep st = String "," w1.
Hypothesis Hw1 : blank w1 = true.
Hypothesis Hkey : key_sep st = String ":" w2.
Hypothesis Hw2 : blank w2 = true.

Lemma join_cons_cons (sep p q : string) (ps : list string) :
  Py.join sep (p :: q :: ps) = p +:+ sep +:+ Py.join sep (q :: ps).
Proof. reflexivity. Qed.

Lemma join_length_in (sep : string) (parts : list string) (p : string) :
  In p parts -> (String.length p <= String.length (Py.join sep parts))%nat.
Proof.
  induction parts as [|q [|q' qs] IH]; intros Hin; [destruct Hin| |].
  - destruct Hin as [->|[]]. cbn [Py.join]. lia.
  - rewrite join_cons_cons, !append_length.
    destruct Hin as [->|Hin]; [lia|]. specialize (IH Hin). lia.
Qed.

Lemma join_length_count (sep : string) (parts : list string) :
  (forall p, In p parts -> p <> "") ->
  (length parts <= String.length (Py.join sep parts))%nat.
Proof.
  induction parts as [|q [|q' qs] IH]; intros Hne; [cbn; lia| |].
  - assert (q <> "") as Hq by (apply Hne; now left).
    destruct q; [congruence|]. cbn. lia.
  - assert (q <> "") as Hq by (apply Hne; now left).
    rewrite join_cons_cons, !append_length.
    assert (length (q' :: qs) <= String.length (Py.join sep (q' :: qs)))%nat as IH'
      by (apply IH; intros p Hp; apply Hne; now right).
    destruct q; [congruence|]. cbn [length String.length] in *. lia.
Qed.

Lemma read_items_step (rv : string -> outcome (value * string)) (n : nat)
    (s : string) (acc : list value) :
  read_items rv (S n) s acc
  = ('(v, rest) ← rv s;
     match skip_ws rest with
     | String d rest' =>
         if Ascii.eqb d "," then read_items rv n rest' (acc ++ [v])
         else if Ascii.eqb d "]" then Ok (PList (acc ++ [v]), rest')
         else Raise JSONDecodeError
     | EmptyString => Raise JSONDecodeError
     end).
Proof. reflexivity. Qed.

(** The array loop reads back the items written between the brackets. *)
Lemma read_items_rendered (rv : string -> outcome (value * string)) (rest : string) :
  forall (items : list value) (w : string) (acc : list value) (n : nat),
    items <> [] -> (length items <= n)%nat -> blank w = true ->
    (forall x, In x items ->
       forall w' rest', blank w' = true -> ends_number rest' = true ->
         rv (w' +:+ render st x +:+ rest') = Ok (x, rest')) ->
    read_items rv n
      (w +:+ Py.join (item_sep st) (map (render st) items) +:+ String "]" rest) acc
    = Ok (PList (acc ++ items), rest).
Proof.
  induction items as [|x items IH]; intros w acc n Hne Hn Hw Hrv; [congruence|].
  destruct n as [|n]; [cbn in Hn; lia|].
  destruct items as [|y ys].
  - cbn [map Py.join]. rewrite read_items_step.
    rewrite (Hrv x (or_introl eq_refl) w (String "]" rest) Hw eq_refl).
    reflexivity.
  - cbn [map]. rewrite join_cons_cons.
    set (J := Py.join (item_sep st) (render st y :: map (render st) ys)).
    assert (w +:+ (render st x +:+ item_sep st +:+ J) +:+ String "]" rest
            = w +:+ render st x +:+ String "," (w1 +:+ J +:+ String "]" rest)) as ->.
    { rewrite Hitem, !append_assoc, append_cons. reflexivity. }
    rewrite read_items_step.
    rewrite (Hrv x (or_introl eq_refl) w (String "," (w1 +:+ J +:+ String "]" rest))
               Hw eq_refl).
    change (read_items rv n (w1 +:+ J +:+ String "]" rest) (acc ++ [x])
            = Ok (PList (acc ++ x :: y :: ys), rest)).
    subst J. change (render st y :: map (render st) ys) with (map (render st) (y :: ys)).
    rewrite IH.
    + now rewrite <- app_assoc.
    + discriminate.
    + cbn [length] in *. lia.
    + exact Hw1.
    + intros x' Hx'. apply Hrv. now right.
Qed.

Lemma read_members_step (rv : string -> outcome (value * string)) (n : nat)
    (s : string) (acc : list (string * value)) :
  read_members rv (S n) s acc
  = match skip_ws s with
    | String q s1 =>
        if Ascii.eqb q dquote then
          '(k, s2) ← read_chars s1;
          match skip_ws s2 with
          | String colon s3 =>
              if Ascii.eqb colon ":" then
                '(v, rest) ← rv s3;
                match skip_ws rest with
                | String d rest' =>
                    if Ascii.eqb d "," then read_members rv n rest' (Py.dict_set k v acc)
                    else if Ascii.eqb d "}" then Ok (PDict (Py.dict_set k v acc), rest')
                    else Raise JSONDecodeError
                | EmptyString => Raise JSONDecodeError
                end
              else Raise JSONDecodeError
          | EmptyString => Raise JSONDecodeError
          end
        else Raise JSONDecodeError
    | EmptyString => Raise JSONDecodeError
    end.
Proof. reflexivity. Qed.

(** One member of an object, read by the object loop. *)
Lemma read_members_member (rv : string -> outcome (value * string)) (n : nat)
    (w k : string) (v : value) (after : string) (acc : list (string * value)) :
  blank w = true ->
  rv (w2 +:+ render st v +:+ after) = Ok (v, after) ->
  read_members rv (S n)
    (w +:+ (quote st k +:+ key_sep st +:+ render st v) +:+ after) acc
  = match skip_ws after with
    | String d rest' =>
        if Ascii.eqb d "," then read_members rv n rest' (Py.dict_set k v acc)
        else if Ascii.eqb d "}" then Ok (PDict (Py.dict_set k v acc), rest')
        else Raise JSONDecodeError
    | EmptyString => Raise JSONDecodeError
    end.
Proof.
  intros Hw Hrv.
  destruct (read_chars_quote st k (String ":" (w2 +:+ render st v +:+ after)))
    as (tail & Htext & Hread).
  assert (w +:+ (quote st k +:+ key_sep st +:+ render st v) +:+ after
          = w +:+ String dquote tail) as ->.
  { rewrite <- Htext, Hkey, !append_assoc, append_cons. reflexivity. }
  rewrite read_members_step, skip_ws_blank by exact Hw.
  change (skip_ws (String dquote tail)) with (String dquote tail).
  cbv iota beta. change (Ascii.eqb dquote dquote) with true. cbv iota.
  rewrite Hread. unfold mbind at 1, outcome_bind at 1. cbv iota beta.
  change (skip_ws (String ":" (w2 +:+ render st v +:+ after)))
    with (String ":" (w2 +:+ render st v +:+ after)).
  cbv iota beta. change (Ascii.eqb ":" ":") with true. cbv iota.
  rewrite Hrv. reflexivity.
Qed.

Lemma dict_set_fresh (k : string) (v : value) (acc : list (string * value)) :
  ~ In k (map fst acc) -> Py.dict_set k v acc = acc ++ [(k, v)].
Proof.
  induction acc as [|[k' v'] acc IH]; intros Hk; [reflexivity|].
  cbn [Py.dict_set app]. cbn [map fst In] in Hk.
  destruct (String.eqb_spec k' k) as [->|Hne]; [tauto|].
  rewrite IH; [reflexivity|tauto].
Qed.

(** The object loop reads back the members written between the braces,
    when no key occurs twice. *)
Lemma read_members_rendered (rv : string -> outcome (value * string)) (rest : string) :
  forall (members : list (string * value)) (w : string)
         (acc : list (string * value)) (n : nat),
    members <> [] -> (length members <= n)%nat -> blank w = true ->
    List.NoDup (map fst (acc ++ members)) ->
    (forall kx, In kx members ->
       forall w' rest', blank w' = true -> ends_number rest' = true ->
         rv (w' +:+ render st (snd kx) +:+ rest') = Ok (snd kx, rest')) ->
    read_members rv n
      (w +:+ Py.join (item_sep st)
               (map (fun kx => quote st (fst kx) +:+ key_sep st +:+ render st (snd kx))
                    members)
         +:+ String "}" rest) acc
    = Ok (PDict (acc ++ members), rest).
Proof.
  induction members as [|[k v] members IH]; intros w acc n Hne Hn Hw Hdup Hrv;
    [congruence|].
  destruct n as [|n]; [cbn in Hn; lia|].
  assert (Py.dict_set k v acc = acc ++ [(k, v)]) as Hset.
  { apply dict_set_fresh. rewrite map_app in Hdup. cbn [map fst] in Hdup.
    apply List.NoDup_remove_2 in Hdup. intros Hin. apply Hdup.
    apply in_or_app. now left. }
  destruct members as [|kx kxs].
  - cbn [map Py.join fst snd].
    rewrite (read_members_member rv n w k v (String "}" rest) acc Hw).
    + rewrite Hset. reflexivity.
    + apply (Hrv (k, v)); [now left|exact Hw2|reflexivity].
  - cbn [map]. rewrite join_cons_cons. cbn [fst snd].
    set (J := Py.join (item_sep st) _).
    assert (w +:+ ((quote st k +:+ key_sep st +:+ render st v) +:+ item_sep st +:+ J)
              +:+ String "}" rest
            = w +:+ (quote st k +:+ key_sep st +:+ render st v)
                +:+ String "," (w1 +:+ J +:+ String "}" rest)) as ->.
    { rewrite Hitem, !append_assoc, append_cons. reflexivity. }
    rewrite (read_members_member rv n w k v _ acc Hw).
    + change (read_members rv n (w1 +:+ J +:+ String "}" rest) (Py.dict_set k v acc)
              = Ok (PDict (acc ++ (k, v) :: kx :: kxs), rest)).
      rewrite Hset. subst J.
      change (?f kx :: map ?f kxs) with (map f (kx :: kxs)).
      rewrite IH.
      * now rewrite <- app_assoc.
      * discriminate.
      * cbn [length] in *. lia.
      * exact Hw1.
      * now rewrite <- app_assoc.
      * intros kx' Hkx'. apply Hrv. now right.
    + apply (Hrv (k, v)); [now left|exact Hw2|reflexivity].
Qed.

Lemma read_value_string (fuel : nat) (tail : string) :
  read_value (S fuel) (String dquote tail)
  = ('(t, rest) ← read_chars tail; Ok (PStr t, rest)).
Proof. reflexivity. Qed.

Lemma read_value_array (fuel : nat) (r : string) :
  read_value (S fuel) (String "[" r)
  = match skip_ws r with
    | String c1 r1 =>
        if Ascii.eqb c1 "]" then Ok (PList [], r1)
        else read_items (read_value fuel) fuel r []
    | EmptyString => Raise JSONDecodeError
    end.
Proof. reflexivity. Qed.

Lemma read_value_object (fuel : nat) (r : string) :
  read_value (S fuel) (String "{" r)
  = match skip_ws r with
    | String c1 r1 =>
        if Ascii.eqb c1 "}" then Ok (PDict [], r1)
        else read_members (read_value fuel) fuel r []
    | EmptyString => Raise JSONDecodeError
    end.
Proof. reflexivity. Qed.

Lemma join_head (sep p : string) (ps : list string) (after : string) :
  exists after', Py.join sep (p :: ps) +:+ after = p +:+ after'.
Proof.
  destruct ps as [|q qs].
  - now exists after.
  - rewrite join_cons_cons, append_assoc. eauto.
Qed.

(** A value is read back from its own text, whatever follows it. *)
Lemma read_value_render :
  forall (fuel : nat) (v : value),
    (String.length (render st v) < fuel)%nat ->
    plain v = true -> unique_keys v = true ->
    forall rest, ends_number rest = true ->
      read_value fuel (render st v +:+ rest) = Ok (v, rest).
Proof.
  induction fuel as [|fuel IH]; intros v Hlen Hplain Huniq rest Hrest; [lia|].
  assert (forall x, (String.length (render st x) < fuel)%nat ->
            plain x = true -> unique_keys x = true ->
            forall w' rest', blank w' = true -> ends_number rest' = true ->
              read_value fuel (w' +:+ render st x +:+ rest') = Ok (x, rest')) as Hsub.
  { intros x Hx Hp Hu w' rest' Hw' Hrest'.
    rewrite (read_value_skip _ _ (render st x +:+ rest')) by (now apply skip_ws_blank).
    now apply IH. }
  destruct v as [|b|n|s|items|members|cls fields].
  - reflexivity.
  - destruct b; reflexivity.
  - now apply read_value_int.
  - destruct (read_chars_quote st s rest) as (tail & Htext & Hread).
    cbn [render]. rewrite Htext, read_value_string, Hread. reflexivity.
  - cbn [render] in *.
    set (J := Py.join (item_sep st) (map (render st) items)) in *.
    assert (("[" +:+ J +:+ "]") +:+ rest = String "[" (J +:+ String "]" rest)) as ->.
    { change ("[" +:+ J +:+ "]") with (String "[" (J +:+ "]")).
      rewrite append_cons, append_assoc. reflexivity. }
    rewrite read_value_array.
    destruct items as [|x xs]; [reflexivity|].
    destruct (join_head (item_sep st) (render st x) (map (render st) xs) (String "]" rest))
      as (after & Hafter).
    destruct (render_head st x after) as (c & tail & Hhead & Hws & Hbr).
    change (map (render st) (x :: xs)) with (render st x :: map (render st) xs) in J.
    fold J in Hafter.
    rewrite Hafter at 1. rewrite Hhead. cbn [skip_ws]. rewrite Hws, Hbr.
    change ("[" +:+ J +:+ "]") with (String "[" (J +:+ "]")) in Hlen.
    cbn [String.length] in Hlen. rewrite append_length in Hlen.
    cbn [String.length] in Hlen.
    apply (read_items_rendered (read_value fuel) rest (x :: xs) "" [] fuel).
    + discriminate.
    + pose proof (join_length_count (item_sep st) (map (render st) (x :: xs))) as Hc.
      rewrite length_map in Hc. fold J in Hc |- *.
      assert (length (x :: xs) <= String.length J)%nat; [|lia].
      apply Hc. intros p Hp. apply in_map_iff in Hp as (y & <- & _).
      apply render_nonempty.
    + reflexivity.
    + intros y Hy. apply Hsub.
      * pose proof (join_length_in (item_sep st) (map (render st) (x :: xs))
                      (render st y) (in_map _ _ _ Hy)) as Hle.
        cbn [map] in Hle. fold J in Hle. lia.
      * cbn [plain] in Hplain. rewrite forallb_forall in Hplain. now apply Hplain.
      * cbn [unique_keys] in Huniq. rewrite forallb_forall in Huniq. now apply Huniq.
  - cbn [render] in *.
    set (member := fun kx : string * value =>
                     quote st (fst kx) +:+ key_sep st +:+ render st (snd kx)) in *.
    set (J := Py.join (item_sep st) (map member members)) in *.
    assert (("{" +:+ J +:+ "}") +:+ rest = String "{" (J +:+ String "}" rest)) as ->.
    { change ("{" +:+ J +:+ "}") with (String "{" (J +:+ "}")).
      rewrite append_cons, append_assoc. reflexivity. }
    rewrite read_value_object.
    destruct members as [|[k x] kxs]; [reflexivity|].
    destruct (join_head (item_sep st) (member (k, x)) (map member kxs) (String "}" rest))
      as (after & Hafter).
    change (map member ((k, x) :: kxs)) with (member (k, x) :: map member kxs) in J.
    fold J in Hafter.
    rewrite Hafter at 1.
    assert (exists tail, member (k, x) +:+ after = String dquote tail) as (tail & ->).
    { unfold member, quote. rewrite !append_cons. eauto. }
    change (skip_ws (String dquote tail)) with (String dquote tail).
    cbv iota beta. change (Ascii.eqb dquote "}") with false. cbv iota.
    change ("{" +:+ J +:+ "}") with (String "{" (J +:+ "}")) in Hlen.
    cbn [String.length] in Hlen. rewrite append_length in Hlen.
    cbn [String.length] in Hlen.
    cbn [plain unique_keys] in Hplain, Huniq.
    apply andb_true_iff in Huniq as [Hdup Huniq].
    apply bool_decide_eq_true in Hdup. apply NoDup_ListNoDup in Hdup.
    rewrite forallb_forall in Hplain, Huniq.
    apply (read_members_rendered (read_value fuel) rest ((k, x) :: kxs) "" [] fuel).
    + discriminate.
    + pose proof (join_length_count (item_sep st) (map member ((k, x) :: kxs))) as Hc.
      rewrite length_map in Hc. fold J in Hc |- *.
      assert (length ((k, x) :: kxs) <= String.length J)%nat; [|lia].
      apply Hc. intros p Hp. apply in_map_iff in Hp as (y & <- & _).
      unfold member, quote. rewrite !append_cons. discriminate.
    + reflexivity.
    + exact Hdup.
    + intros y Hy. apply Hsub.
      * pose proof (join_length_in (item_sep st) (map member ((k, x) :: kxs))
                      (member y) (in_map _ _ _ Hy)) as Hle.
        cbn [map] in Hle. fold J in Hle. unfold member in Hle at 1.
        rewrite !append_length in Hle. lia.
      * now apply Hplain.
      * now apply Huniq.
  - discriminate Hplain.
Qed.

(** [json.loads] of the text of a value is that value. *)
Lemma loads_render (v : value) :
  plain v = true -> unique_keys v = true -> loads (render st v) = Ok v.
Proof.
  intros Hplain Huniq. unfold loads.
  pose proof (read_value_render (S (String.length (render st v))) v
                (Nat.lt_succ_diag_r _) Hplain Huniq "" eq_refl) as H.
  rewrite append_nil_r in H. rewrite H. reflexivity.
Qed.

End JsonRoundTrip.

(** ** What a hit returns *)

Section CacheRoundTrip.

Import Decorators.

Lemma loads_python (v : value) :
  Json.plain v = true -> Json.unique_keys v = true ->
  Json.loads (Json.render Json.python_style v) = Ok v.
Proof. apply (loads_render Json.python_style " " " "); reflexivity. Qed.

Lemma loads_compact (v : value) :
  Json.plain v = true -> Json.unique_keys v = true ->
  Json.loads (Json.render Json.compact_style v) = Ok v.
Proof. apply (loads_render Json.compact_style "" ""); reflexivity. Qed.

(** [parse_raw] applied to the JSON text of a model instance. *)
Lemma parse_raw_model_json (cls : model_class) (name : string)
    (fields fields' : list (string * value)) :
  Json.plain (PDict fields) = true -> Json.unique_keys (PDict fields) = true ->
  validate cls fields = Some fields' ->
  parse_raw cls (Json.render Json.compact_style (PModel name fields))
  = Ok (PModel (cls_name cls) fields').
Proof.
  intros Hplain Huniq Hval. unfold parse_raw.
  change (Json.render Json.compact_style (PModel name fields))
    with (Json.render Json.compact_style (PDict fields)).
  rewrite (loads_compact _ Hplain Huniq), Hval. reflexivity.
Qed.

Lemma encode_plain (result : value) :
  Json.plain result = true ->
  encode result = Ok (Json.render Json.python_style result).
Proof.
  intros Hplain.
  destruct result as [|b|n|s|items|members|cls fields]; try discriminate Hplain;
    try (unfold encode, Json.dumps; rewrite Hplain; reflexivity).
  destruct items as [|[] rest]; try discriminate Hplain;
    unfold encode, Json.dumps; rewrite Hplain; reflexivity.
Qed.

Lemma returned_as_is_model (cls : model_class) (m : value) :
  returned_as_is cls m -> is_model m = true.
Proof. intros (fields & -> & _). reflexivity. Qed.

Lemma each_parse_raw_item (cls : model_class) (models : list value) :
  Forall (returned_as_is cls) models ->
  each (parse_raw_item cls)
    (map (fun m => PStr (Json.render Json.compact_style m)) models)
  = Ok models.
Proof.
  induction 1 as [|m models Hm _ IH]; [reflexivity|].
  cbn [map each parse_raw_item]. destruct Hm as (fields & -> & Hplain & Huniq & Hval).
  rewrite (parse_raw_model_json cls _ fields fields Hplain Huniq Hval), IH.
  reflexivity.
Qed.

Lemma strings_plain_unique {A} (f : A -> string) (l : list A) :
  Json.plain (PList (map (fun x => PStr (f x)) l)) = true
  /\ Json.unique_keys (PList (map (fun x => PStr (f x)) l)) = true.
Proof.
  cbn [Json.plain Json.unique_keys].
  induction l as [|x l [IH1 IH2]]; [split; reflexivity|].
  cbn [map forallb Json.plain Json.unique_keys]. now rewrite IH1, IH2.
Qed.

(** What the miss branch stores for a result of the declared shape, the
    hit branch reads back as that result. *)
Lemma decode_encode (ann : annotation) (result : value) :
  fits ann result ->
  exists text, encode result = Ok text /\ decode ann text = Ok result.
Proof.
  assert (Json.plain result = true /\ Json.unique_keys result = true ->
          exists text, encode result = Ok text /\ Json.loads text = Ok result) as Hplain.
  { intros [Hp Hu]. eexists. split; [now apply encode_plain|now apply loads_python]. }
  destruct ann as [|cls|[cls| |]|]; cbn [fits decode]; try exact Hplain.
  - intros (fields & -> & Hp & Hu & Hval). eexists. split; [reflexivity|].
    now apply parse_raw_model_json.
  - intros (models & -> & Hall). destruct models as [|m ms].
    + exists "[]". split; reflexivity.
    + eexists. split.
      * apply encode_model_list; [discriminate|].
        apply forallb_forall. intros x Hx. rewrite List.Forall_forall in Hall.
        eapply returned_as_is_model, Hall, Hx.
      * destruct (strings_plain_unique (Json.render Json.compact_style) (m :: ms))
          as [Hp Hu].
        rewrite (loads_python _ Hp Hu). unfold mbind at 1, outcome_bind at 1.
        cbn [iterate]. unfold mbind at 1, outcome_bind at 1.
        rewrite (each_parse_raw_item cls (m :: ms) Hall). reflexivity.
  - intros [].
Qed.

(** X13: a result of the shape its return annotation declares is
    computed once: the first call misses, invokes the function and
    stores the result; the next call with the same keyword arguments,
    whatever its positional arguments, is a hit that returns the same
    result without invoking the function. *)
Theorem cached_result_is_returned_unchanged
    (key_pattern : string) (ttl : option Z) (func : Decorators.pyfunc)
    (args args' : list value) (kwargs : list (string * value)) (w : World)
    (cache_key : string) (result : value) :
  cache_enabled (settings w) = true ->
  Decorators.format key_pattern kwargs = Ok cache_key ->
  Py.truthy (Redis.get cache_key (redis w)) = None ->
  Decorators.body func args kwargs = Ok result ->
  result <> PNone ->
  Decorators.fits (Decorators.returns func) result ->
  0 < Decorators.ttl_or ttl (cache_default_ttl (settings w)) ->
  exists (w1 w2 : World),
    Decorators.wrapper key_pattern ttl func args kwargs w = (Ok result, w1)
    /\ Decorators.wrapper key_pattern ttl func args' kwargs w1 = (Ok result, w2)
    /\ calls w2 = calls w ++ [(args, kwargs)]
    /\ redis w2 = redis w1
    /\ monitor w2 = CacheMonitor.record_hit (CacheMonitor.record_miss (monitor w)).
Proof.
  intros Hon Hkey Hget Hbody Hnone Hfits Httl.
  destruct (decode_encode _ _ Hfits) as (text & Henc & Hdec).
  eexists _, _. split; [|split].
  - apply (wrapper_miss_store _ _ _ _ _ _ cache_key _ text); assumption.
  - rewrite (wrapper_hit key_pattern ttl func args' kwargs _ cache_key text).
    + rewrite Hdec. reflexivity.
    + exact Hon.
    + exact Hkey.
    + unfold Redis.get. cbn [redis set_redis Redis.data]. now rewrite lookup_insert_eq.
    + eapply encode_nonempty, Henc.
  - repeat split.
Qed.

(** A function that lists one tag, called twice on an empty store. *)
Lemma cached_result_is_returned_unchanged_witness :
  exists (w1 w2 : World),
    Decorators.wrapper "tags:all" (Some 60) Examples.popular_tags [] []
      (Examples.fresh_world Examples.still_clock)
    = (Ok (PList [Examples.tag (PStr "rocq")]), w1)
    /\ Decorators.wrapper "tags:all" (Some 60) Examples.popular_tags [PInt 1] [] w1
       = (Ok (PList [Examples.tag (PStr "rocq")]), w2)
    /\ calls w2 = calls (Examples.fresh_world Examples.still_clock) ++ [([], [])]
    /\ redis w2 = redis w1
    /\ monitor w2
       = CacheMonitor.record_hit
           (CacheMonitor.record_miss (monitor (Examples.fresh_world Examples.still_clock))).
Proof.
  apply (cached_result_is_returned_unchanged "tags:all" (Some 60) Examples.popular_tags
           [] [PInt 1] [] (Examples.fresh_world Examples.still_clock) "tags:all"
           (PList [Examples.tag (PStr "rocq")])).
  - reflexivity.
  - reflexivity.
  - reflexivity.
  - reflexivity.
  - discriminate.
  - exists [Examples.tag (PStr "rocq")]. split; [reflexivity|].
    constructor; [|constructor].
    exists [("tag", PStr "rocq")]. repeat split.
  - reflexivity.
Defined.

(** X14: a model instance returned by a function whose return annotation
    is missing or not a class comes back from the cache as a dict of its
    fields, not as the instance the first call returned. *)
Theorem unannotated_model_is_read_back_as_dict
    (key_pattern : string) (ttl : option Z) (func : Decorators.pyfunc)
    (args : list value) (kwargs : list (string * value)) (w : World)
    (cache_key name : string) (fields : list (string * value)) :
  cache_enabled (settings w) = true ->
  Decorators.format key_pattern kwargs = Ok cache_key ->
  Py.truthy (Redis.get cache_key (redis w)) = None ->
  Decorators.body func args kwargs = Ok (PModel name fields) ->
  Decorators.returns func = Decorators.NoAnnotation
    \/ Decorators.returns func = Decorators.AOther ->
  Json.plain (PDict fields) = true ->
  Json.unique_keys (PDict fields) = true ->
  0 < Decorators.ttl_or ttl (cache_default_ttl (settings w)) ->
  exists (w1 w2 : World),
    Decorators.wrapper key_pattern ttl func args kwargs w = (Ok (PModel name fields), w1)
    /\ Decorators.wrapper key_pattern ttl func args kwargs w1 = (Ok (PDict fields), w2)
    /\ calls w2 = calls w ++ [(args, kwargs)].
Proof.
  intros Hon Hkey Hget Hbody Hann Hplain Huniq Httl.
  eexists _, _. split; [|split].
  - apply (wrapper_miss_store _ _ _ _ _ _ cache_key _
             (Json.render Json.compact_style (PModel name fields)));
      try assumption; [discriminate|reflexivity].
  - rewrite (wrapper_hit key_pattern ttl func args kwargs _ cache_key
               (Json.render Json.compact_style (PModel name fields))).
    + assert (decode (returns func) (Json.render Json.compact_style (PModel name fields))
              = Ok (PDict fields)) as ->; [|reflexivity].
      change (Json.render Json.compact_style (PModel name fields))
        with (Json.render Json.compact_style (PDict fields)).
      destruct Hann as [-> | ->]; cbn [decode]; now apply loads_compact.
    + exact Hon.
    + exact Hkey.
    + unfold Redis.get. cbn [redis set_redis Redis.data]. now rewrite lookup_insert_eq.
    + apply (render_nonempty Json.compact_style (PModel name fields)).
  - reflexivity.
Qed.

(** A function with no return annotation that returns a tag. *)
Lemma unannotated_model_is_read_back_as_dict_witness :
  exists (w1 w2 : World),
    Decorators.wrapper "tag:{slug}" None
      {| Decorators.returns := Decorators.NoAnnotation;
         Decorators.body := fun _ _ => Ok (PModel "Tag" [("tag", PStr "rocq")]) |}
      [] [("slug", PInt 7)] (Examples.fresh_world Examples.still_clock)
    = (Ok (PModel "Tag" [("tag", PStr "rocq")]), w1)
    /\ Decorators.wrapper "tag:{slug}" None
         {| Decorators.returns := Decorators.NoAnnotation;
            Decorators.body := fun _ _ => Ok (PModel "Tag" [("tag", PStr "rocq")]) |}
         [] [("slug", PInt 7)] w1
       = (Ok (PDict [("tag", PStr "rocq")]), w2)
    /\ calls w2 = calls (Examples.fresh_world Examples.still_clock)
                  ++ [([], [("slug", PInt 7)])].
Proof.
  apply (unannotated_model_is_read_back_as_dict "tag:{slug}" None
           {| Decorators.returns := Decorators.NoAnnotation;
              Decorators.body := fun _ _ => Ok (PModel "Tag" [("tag", PStr "rocq")]) |}
           [] [("slug", PInt 7)] (Examples.fresh_world Examples.still_clock)
           "tag:7" "Tag" [("tag", PStr "rocq")]).
  - reflexivity.
  - vm_compute. reflexivity.
  - reflexivity.
  - reflexivity.
  - now left.
  - reflexivity.
  - reflexivity.
  - reflexivity.
Defined.

End CacheRoundTrip.

(** ** The monitor's hit rate *)

Section HitRate.

Import CacheMonitor.

Lemma between_halves (k lo hi : Z) (x : Q) :
  (inject_Z k - (1 # 2) <= x)%Q -> (x <= inject_Z k + (1 # 2))%Q ->
  (inject_Z lo <= x)%Q -> (x <= inject_Z hi)%Q ->
  lo <= k <= hi.
Proof.
  intros H1 H2 Hlo Hhi. split.
  - destruct (Z_lt_le_dec k lo) as [Hlt|]; [exfalso|assumption].
    assert (k + 1 <= lo) as Hle by lia.
    rewrite Zle_Qle, inject_Z_plus in Hle. change (inject_Z 1) with 1%Q in Hle. lra.
  - destruct (Z_lt_le_dec hi k) as [Hlt|]; [exfalso|assumption].
    assert (hi + 1 <= k) as Hle by lia.
    rewrite Zle_Qle, inject_Z_plus in Hle. change (inject_Z 1) with 1%Q in Hle. lra.
Qed.

(** X15: whatever was recorded, the hit rate reported is a percentage
    between 0.00 and 100.00; it is 100.00 when only hits were recorded
    and 0.00 when no hit was. *)
Theorem hit_rate_is_between_0_and_100 (events : list CacheMonitor.event) :
  exists k : Z,
    0 <= k <= 10000
    /\ CacheMonitor.stat_hit_rate (CacheMonitor.get_stats (CacheMonitor.after events))
       = Py.str_int (k / 100) +:+ "." +:+ CacheMonitor.two_digits (k mod 100) +:+ "%"
    /\ (CacheMonitor.count_misses events = 0 -> 0 < CacheMonitor.count_hits events ->
        CacheMonitor.stat_hit_rate (CacheMonitor.get_stats (CacheMonitor.after events))
        = "100.00%")
    /\ (CacheMonitor.count_hits events = 0 ->
        CacheMonitor.stat_hit_rate (CacheMonitor.get_stats (CacheMonitor.after events))
        = "0.00%").
Proof.
  unfold get_stats, after. cbn [stat_hit_rate].
  rewrite fold_record_hits, fold_record_misses. cbn [initial hits misses].
  rewrite !Z.add_0_l.
  pose proof (count_hits_nonneg events) as Hh.
  pose proof (count_misses_nonneg events) as Hm.
  set (h := count_hits events) in *. set (m := count_misses events) in *.
  unfold format_percent2.
  set (rate := if 0 <? h + m then Float.round (inject_Z h / inject_Z (h + m))%Q else 0%Q).
  set (percent := Float.mul rate 100).
  assert (0 <= percent /\ percent <= 100)%Q as [Hp0 Hp1].
  { subst percent rate. destruct (Z.ltb_spec 0 (h + m)) as [Hpos|_].
    - destruct (percent_of_counts h m Hh Hm Hpos) as (H0 & H1 & _). now split.
    - unfold Float.mul. rewrite (round_zero (0 * 100)) by reflexivity. split; lra. }
  destruct (round_half_even_near (percent * 100)) as [Hlo Hhi].
  set (k := round_half_even (percent * 100)) in *.
  exists k. split; [|split; [reflexivity|split]].
  - apply (between_halves k 0 10000 (percent * 100)); try assumption.
    + change (inject_Z 0) with 0%Q. lra.
    + change (inject_Z 10000) with 10000%Q. lra.
  - intros Hzero Hpos.
    assert (percent == 100)%Q as Hfull.
    { subst percent rate. rewrite Hzero, Z.add_0_r.
      destruct (Z.ltb_spec 0 h) as [_|]; [|lia].
      assert (inject_Z h / inject_Z h == inject_Z 1)%Q as Hone.
      { apply Qmult_inv_r. intros Heq.
        change 0%Q with (inject_Z 0) in Heq.
        apply (proj1 (inject_Z_injective h 0)) in Heq. lia. }
      unfold Float.mul.
      rewrite (round_comp _ (inject_Z 100)).
      - apply round_int. vm_compute. discriminate.
      - rewrite (round_comp _ _ Hone), round_int by (vm_compute; discriminate).
        reflexivity. }
    assert (k = 10000) as ->; [|reflexivity].
    assert (10000 <= k <= 10000); [|lia].
    apply (between_halves k 10000 10000 (percent * 100)); try assumption;
      change (inject_Z 10000) with 10000%Q; rewrite Hfull; lra.
  - intros Hzero.
    assert (percent == 0)%Q as Hnone.
    { subst percent rate. rewrite Hzero. unfold Float.mul.
      destruct (0 <? 0 + m).
      - rewrite (round_zero (inject_Z 0 / inject_Z (0 + m))).
        + rewrite (round_zero (0 * 100)) by reflexivity. reflexivity.
        + unfold Qdiv. change (inject_Z 0) with 0%Q. ring.
      - rewrite (round_zero (0 * 100)) by reflexivity. reflexivity. }
    assert (k = 0) as ->; [|reflexivity].
    assert (0 <= k <= 0); [|lia].
    apply (between_halves k 0 0 (percent * 100)); try assumption;
      change (inject_Z 0) with 0%Q; rewrite Hnone; lra.
Qed.

End HitRate.

(** ** The reset time *)

Section ResetTime.

Import RateLimiter.

(** X16: the reset time a check reports is the first multiple of the
    window after the reading of the clock, at most one window away; and
    while the clock has not passed it, the seconds to wait that a
    rejection computes from it (a float subtraction, for a reset time
    that is a double) lie between 0 and the window. *)
Theorem reset_time_is_the_end_of_the_current_window
    (w : World) (identifier endpoint : string) (limit window cur prev : Z) :
  0 < window ->
  (0 <= clock w (ticks w))%Q ->
  Redis.counter
    (RateLimiter._generate_key identifier endpoint
       (Py.int_of_float (clock w (ticks w)) / window * window)) (redis w) = Some cur ->
  Redis.counter
    (RateLimiter._generate_key identifier endpoint
       (Py.int_of_float (clock w (ticks w)) / window * window - window)) (redis w)
  = Some prev ->
  exists (allowed : bool) (info : RateLimiter.RateLimitInfo) (w' : World),
    RateLimiter.check identifier endpoint limit window w = (Ok (allowed, info), w')
    /\ RateLimiter.reset_time info mod window = 0
    /\ (clock w (ticks w) < inject_Z (RateLimiter.reset_time info))%Q
    /\ (inject_Z (RateLimiter.reset_time info) <= clock w (ticks w) + inject_Z window)%Q
    /\ (forall now : Q,
          (clock w (ticks w) <= now)%Q ->
          (now <= inject_Z (RateLimiter.reset_time info))%Q ->
          RateLimiter.reset_time info <= 2 ^ 53 ->
          0 <= Py.int_of_float
                 (Float.sub (Float.of_int (RateLimiter.reset_time info)) now) <= window).
Proof.
  intros Hw Ht Hcur Hprev.
  pose proof (check_run identifier endpoint limit window cur prev w) as Hrun.
  cbv zeta in Hrun. destruct Hrun as (w' & Hrun & _); [lia|exact Hcur|exact Hprev|].
  eexists _, _, w'. split; [exact Hrun|]. cbn [reset_time].
  rewrite (int_of_float_nonneg _ Ht).
  set (t := clock w (ticks w)) in *. set (f := Qfloor t).
  pose proof (Qfloor_le t) as Hfl. pose proof (Qlt_floor t) as Hfu. fold f in Hfl, Hfu.
  pose proof (Qfloor_nonneg t Ht) as Hf0. fold f in Hf0.
  pose proof (Z.mul_div_le f window Hw) as Hdl.
  pose proof (Z.mul_succ_div_gt f window Hw) as Hdu.
  assert (0 <= f / window) as Hq0 by (apply Z.div_pos; lia).
  set (reset := f / window * window + window) in *.
  assert (f + 1 <= reset <= f + window) as [Hr1 Hr2] by (subst reset; lia).
  assert (window <= reset) as Hwr by (subst reset; nia).
  assert (t < inject_Z reset)%Q as Hlt.
  { eapply Qlt_le_trans; [exact Hfu|]. now rewrite <- Zle_Qle. }
  assert (inject_Z reset <= t + inject_Z window)%Q as Hle.
  { rewrite Zle_Qle, inject_Z_plus in Hr2. lra. }
  split; [|split; [exact Hlt|split; [exact Hle|]]].
  - subst reset. rewrite <- Z.add_mod_idemp_l, Z.mod_mul by lia.
    rewrite Z.add_0_l. apply Z.mod_same. lia.
  - intros now Hnow Hbefore Hsmall.
    pose proof (of_int_exact reset) as Ereset.
    rewrite Z.abs_eq in Ereset by lia. specialize (Ereset Hsmall).
    unfold Float.sub.
    assert (0 <= Float.round (Float.of_int reset - now))%Q as Hpos
      by (apply round_nonneg; lra).
    rewrite (int_of_float_nonneg _ Hpos). split; [now apply Qfloor_nonneg|].
    rewrite <- (Qfloor_Z window). apply Qfloor_resp_le.
    apply Qle_trans with (Float.round (inject_Z window)).
    + apply round_mono. lra.
    + rewrite round_int by (rewrite Z.abs_eq; lia). apply Qle_refl.
Qed.

(** X16 on the store read at t = 12.5 with a window of 10 seconds. *)
Lemma reset_time_is_the_end_of_the_current_window_witness :
  exists (allowed : bool) (info : RateLimiter.RateLimitInfo) (w' : World),
    RateLimiter.check "ip:10.0.0.1" "/api/ping" 5 10 Examples.busy_world
    = (Ok (allowed, info), w')
    /\ RateLimiter.reset_time info mod 10 = 0
    /\ (clock Examples.busy_world (ticks Examples.busy_world)
        < inject_Z (RateLimiter.reset_time info))%Q
    /\ (inject_Z (RateLimiter.reset_time info)
        <= clock Examples.busy_world (ticks Examples.busy_world) + inject_Z 10)%Q
    /\ (forall now : Q,
          (clock Examples.busy_world (ticks Examples.busy_world) <= now)%Q ->
          (now <= inject_Z (RateLimiter.reset_time info))%Q ->
          RateLimiter.reset_time info <= 2 ^ 53 ->
          0 <= Py.int_of_float
                 (Float.sub (Float.of_int (RateLimiter.reset_time info)) now) <= 10).
Proof.
  apply (reset_time_is_the_end_of_the_current_window Examples.busy_world
           "ip:10.0.0.1" "/api/ping" 5 10 3 0).
  - lia.
  - vm_compute. discriminate.
  - vm_compute. reflexivity.
  - vm_compute. reflexivity.
Defined.

End ResetTime.

(** ** Field aliases *)

Section CamelCase.

Import RWModel.

Lemma split_pieces_no_separator (c : ascii) (s : string) :
  forall p, In p (Py.split c s) -> Py.contains_char c p = false.
Proof.
  induction s as [|a s IH]; intros p Hp.
  - destruct Hp as [<-|[]]. reflexivity.
  - cbn [Py.split] in Hp. destruct (Ascii.eqb a c) eqn:Hac.
    + destruct Hp as [<-|Hp]; [reflexivity|now apply IH].
    + destruct (Py.split c s) as [|w ws].
      * destruct Hp as [<-|[]]. cbn [Py.contains_char]. now rewrite Hac.
      * destruct Hp as [<-|Hp].
        -- cbn [Py.contains_char]. rewrite Hac. apply IH. now left.
        -- apply IH. now right.
Qed.

Lemma split_pieces_ascii (c : ascii) (s : string) :
  all_ascii s = true -> forall p, In p (Py.split c s) -> all_ascii p = true.
Proof.
  induction s as [|a s IH]; intros Hs p Hp.
  - destruct Hp as [<-|[]]. reflexivity.
  - cbn [all_ascii] in Hs. apply andb_true_iff in Hs as [Ha Hs].
    cbn [Py.split] in Hp. destruct (Ascii.eqb a c).
    + destruct Hp as [<-|Hp]; [reflexivity|now apply IH].
    + destruct (Py.split c s) as [|w ws].
      * destruct Hp as [<-|[]]. cbn [all_ascii]. now rewrite Ha.
      * destruct Hp as [<-|Hp].
        -- cbn [all_ascii]. rewrite Ha. apply IH; [exact Hs|now left].
        -- apply IH; [exact Hs|now right].
Qed.

Lemma upper_underscore (c : ascii) : Ascii.eqb (upper c) "_" = Ascii.eqb c "_".
Proof. destruct c as [[] [] [] [] [] [] [] []]; reflexivity. Qed.

Lemma lower_underscore (c : ascii) : Ascii.eqb (lower c) "_" = Ascii.eqb c "_".
Proof. destruct c as [[] [] [] [] [] [] [] []]; reflexivity. Qed.

Lemma lower_all_no_underscore (s : string) :
  Py.contains_char "_" (lower_all s) = Py.contains_char "_" s.
Proof.
  induction s as [|c s IH]; [reflexivity|].
  cbn [lower_all Py.contains_char]. now rewrite lower_underscore, IH.
Qed.

Lemma capitalize_no_underscore (word word' : string) :
  capitalize word = Ok word' ->
  Py.contains_char "_" word' = Py.contains_char "_" word.
Proof.
  unfold capitalize. destruct (all_ascii word); [|discriminate].
  intros [= <-]. destruct word as [|c rest]; [reflexivity|].
  cbn [Py.contains_char]. now rewrite upper_underscore, lower_all_no_underscore.
Qed.

Lemma capitalize_each_no_underscore (words words' : list string) :
  capitalize_each words = Ok words' ->
  (forall p, In p words -> Py.contains_char "_" p = false) ->
  forall p, In p words' -> Py.contains_char "_" p = false.
Proof.
  revert words'. induction words as [|word rest IH]; intros words' Hrun Hwords p Hp.
  - injection Hrun as <-. destruct Hp.
  - cbn [capitalize_each] in Hrun.
    destruct (capitalize word) as [word'| |] eqn:Hword; try discriminate Hrun.
    destruct (capitalize_each rest) as [rest'| |] eqn:Hrest; try discriminate Hrun.
    injection Hrun as <-. destruct Hp as [<-|Hp].
    + rewrite (capitalize_no_underscore _ _ Hword). apply Hwords. now left.
    + apply (IH rest' eq_refl); [|exact Hp]. intros q Hq. apply Hwords. now right.
Qed.

Lemma capitalize_each_ascii (words : list string) :
  (forall p, In p words -> all_ascii p = true) ->
  exists words', capitalize_each words = Ok words'.
Proof.
  induction words as [|word rest IH]; intros Hwords; [now exists []|].
  destruct IH as (rest' & Hrest); [intros p Hp; apply Hwords; now right|].
  cbn [capitalize_each]. unfold capitalize. rewrite (Hwords word) by now left.
  unfold mbind, outcome_bind. rewrite Hrest. eauto.
Qed.

Lemma join_no_char (c : ascii) (parts : list string) :
  (forall p, In p parts -> Py.contains_char c p = false) ->
  Py.contains_char c (Py.join "" parts) = false.
Proof.
  induction parts as [|p [|q qs] IH]; intros Hparts; [reflexivity| |].
  - apply Hparts. now left.
  - change (Py.join "" (p :: q :: qs)) with (p +:+ "" +:+ Py.join "" (q :: qs)).
    rewrite !contains_char_append, (Hparts p) by now left.
    rewrite IH; [reflexivity|]. intros r Hr. apply Hparts. now right.
Qed.

(** X17: the camel-case alias of a field name holds no underscore and
    is its own alias; a name without underscore is its own alias; and
    every ASCII name has an alias. *)
Theorem camel_case_alias_has_no_underscore_and_is_stable :
  (forall s t : string,
      RWModel.convert_field_to_camel_case s = Ok t ->
      Py.contains_char "_" t = false
      /\ RWModel.convert_field_to_camel_case t = Ok t)
  /\ (forall s : string,
        Py.contains_char "_" s = false ->
        RWModel.convert_field_to_camel_case s = Ok s)
  /\ (forall s : string,
        RWModel.all_ascii s = true ->
        exists t, RWModel.convert_field_to_camel_case s = Ok t).
Proof.
  assert (forall s : string,
             Py.contains_char "_" s = false -> convert_field_to_camel_case s = Ok s)
    as Hsame.
  { intros s Hs. unfold convert_field_to_camel_case.
    rewrite (split_no_separator _ _ Hs). reflexivity. }
  split; [|split; [exact Hsame|]].
  - intros s t Hrun.
    assert (Py.contains_char "_" t = false) as Ht; [|split; [exact Ht|now apply Hsame]].
    unfold convert_field_to_camel_case in Hrun.
    pose proof (split_pieces_no_separator "_" s) as Hpieces.
    destruct (Py.split "_" s) as [|first rest]; [now injection Hrun as <-|].
    destruct (capitalize_each rest) as [words| |] eqn:Hwords; try discriminate Hrun.
    injection Hrun as <-. apply (join_no_char "_" (first :: words)). intros p [<-|Hp].
    + apply Hpieces. now left.
    + apply (capitalize_each_no_underscore rest words Hwords); [|exact Hp].
      intros q Hq. apply Hpieces. now right.
  - intros s Hs. unfold convert_field_to_camel_case.
    pose proof (split_pieces_ascii "_" s Hs) as Hpieces.
    destruct (Py.split "_" s) as [|first rest]; [eauto|].
    destruct (capitalize_each_ascii rest) as (words & ->);
      [intros p Hp; apply Hpieces; now right|].
    eauto.
Qed.

End CamelCase.
